(** * dq-utility-ai: a shallow embedding of the coordination core

    The development follows the Python sources:

    - [Registry]           src/web/websocket_handler.py
                           (connection registry of the channel handler)
    - [ConnectionManager]  src/web/app.py
                           (connection registry of the web application)
    - [Service]            src/ecs/DQ-agent/web_app.py, agent.py, app.py
                           (task store, result cache, background task,
                           notification senders, task-status endpoint)
    - [Poller]             src/lambdas/poller/poller.py
                           (job polling loop)
    - [Fixtures]           concrete environments for the examples
    - [RegistryHandler]    src/web/websocket_handler.py (route dispatcher)
    - [WebApp]             src/web/app.py (notification endpoint, pending
                           messages of the chat)
    - [Routing]            src/ecs/DQ-agent/web_app.py, app.py
                           (request classifiers, agent endpoint, completion
                           relay)
    - [S3Uri]              src/lambdas/poller/poller.py (bucket addresses)

    The properties follow the definitions: [RegistryFacts], [CacheFacts],
    [ServiceFacts], [PollerFacts], and their instances in [Scenarios];
    then [ChannelFacts], [WebAppFacts], [NotificationFacts],
    [IsolationFacts], [EndpointFacts], [CacheReadFacts], [RoutingFacts],
    [PollerRunFacts], [S3UriFacts], and their instances in [MoreScenarios].

    Python dictionaries are finite maps ([gmap]); Python strings are
    [string]; a JSON object whose fields are all strings is a
    [gmap string string].  Python's [None] stored as a dictionary value is
    Rocq's [None] inside an [option].  Instants and durations are integer
    counts of microseconds. *)

From Stdlib Require Import ZArith Lia Ascii.
From stdpp Require Import gmap strings list fin_maps.

Open Scope string_scope.
Open Scope list_scope.

(** ** Python helpers shared by the modules *)

(** Truthiness of a Python string: only the empty string is falsy. *)
Definition truthy (s : string) : bool :=
  match s with
  | EmptyString => false
  | String _ _ => true
  end.

(** Truthiness of a value that is either [None] or a string. *)
Definition truthy_opt (o : option string) : bool :=
  match o with
  | None => false
  | Some s => truthy s
  end.

(** [d.get(k, dflt)] on a dictionary of strings. *)
Definition dict_get (d : gmap string string) (k dflt : string) : string :=
  default dflt (d !! k).

(** The newline character of the Python literals. *)
Definition nl : string := String (Ascii.ascii_of_nat 10) EmptyString.

(** ** Connection registry (src/web/websocket_handler.py) *)

Module Registry.

(** The two module-level dictionaries:
    [connections]      connection_id -> username ([None] before auth),
    [user_connections] username -> connection_id. *)
Record registry : Type := mkRegistry {
  connections : gmap string (option string);
  user_connections : gmap string string
}.

Definition empty : registry := mkRegistry ∅ ∅.

(** [handle_connect]: [connections[connection_id] = None]. *)
Definition handle_connect (connection_id : string) (r : registry) : registry :=
  mkRegistry (<[connection_id := None]> (connections r)) (user_connections r).

(** [connections.get(connection_id)]: [None] both for a missing key and
    for a key whose stored value is [None]. *)
Definition connections_get (r : registry) (connection_id : string) : option string :=
  match connections r !! connection_id with
  | Some (Some u) => Some u
  | _ => None
  end.

(** [handle_disconnect]:
<<
    username = connections.get(connection_id)
    if username and username in user_connections:
        del user_connections[username]
    if connection_id in connections:
        del connections[connection_id]
>> *)
Definition handle_disconnect (connection_id : string) (r : registry) : registry :=
  let username := connections_get r connection_id in
  let uc :=
    match username with
    | Some u =>
        if truthy u && bool_decide (is_Some (user_connections r !! u))
        then delete u (user_connections r)
        else user_connections r
    | None => user_connections r
    end in
  mkRegistry (delete connection_id (connections r)) uc.

(** The parsed body of a channel message: [body.get('type')] and
    [body.get('username')]. *)
Record message : Type := mkMessage {
  msg_type : option string;
  msg_username : option string
}.

(** The state change of [handle_message]: an ['auth'] message with a
    truthy username binds the channel to the user in both dictionaries
    (the confirmation is posted afterwards and does not undo it). *)
Definition handle_message (connection_id : string) (m : message) (r : registry)
  : registry :=
  if bool_decide (msg_type m = Some "auth") then
    match msg_username m with
    | Some u =>
        if truthy u
        then mkRegistry (<[connection_id := Some u]> (connections r))
                        (<[u := connection_id]> (user_connections r))
        else r
    | None => r
    end
  else r.

(** The status code [handle_message] returns: 500 when the body does not
    parse or when posting the confirmation raises, 200 otherwise. *)
Definition handle_message_status (body : option message) (post_ok : bool) : Z :=
  match body with
  | None => 500
  | Some m =>
      if bool_decide (msg_type m = Some "auth") && truthy_opt (msg_username m)
      then (if post_ok then 200 else 500)
      else 200
  end%Z.

(** [register(channelId, userId)] of the contract is the auth message. *)
Definition register (connection_id username : string) : registry → registry :=
  handle_message connection_id (mkMessage (Some "auth") (Some username)).

(** The lookup made by [send_notification_to_user]:
    [username in user_connections] then [user_connections[username]]. *)
Definition lookup (r : registry) (username : string) : option string :=
  user_connections r !! username.

(** [send_notification_to_user]: [false] without a post when the user has
    no mapping; a post that raises removes the user's mapping. *)
Definition send_notification_to_user (username : string) (post_ok : bool)
    (r : registry) : bool * registry :=
  match lookup r username with
  | None => (false, r)
  | Some _ =>
      if post_ok then (true, r)
      else (false, mkRegistry (connections r) (delete username (user_connections r)))
  end.

End Registry.

(** ** Connection manager of the web application (src/web/app.py)

    The second registry of the repository: [ConnectionManager] keeps
    [active_connections] (session_id -> socket; the socket itself is opaque
    here) and [user_sessions] (username -> session_id). *)

Module ConnectionManager.

Record manager : Type := mkManager {
  active_connections : gset string;
  user_sessions : gmap string string
}.

Definition empty : manager := mkManager ∅ ∅.

(** [connect(websocket, session_id, username)]. *)
Definition connect (session_id username : string) (m : manager) : manager :=
  mkManager ({[ session_id ]} ∪ active_connections m)
            (<[username := session_id]> (user_sessions m)).

(** [disconnect(session_id, username=None)]. *)
Definition disconnect (session_id : string) (username : option string) (m : manager)
  : manager :=
  let active := active_connections m ∖ {[ session_id ]} in
  match username with
  | Some u =>
      if truthy u && bool_decide (is_Some (user_sessions m !! u))
      then mkManager active (delete u (user_sessions m))
      else mkManager active (user_sessions m)
  | None => mkManager active (user_sessions m)
  end.

(** [websocket_endpoint]: the channel is opened with the session id as
    provisional username. *)
Definition open_channel (session_id : string) : manager → manager :=
  connect session_id session_id.

(** [websocket_endpoint]: an ['auth'] message with a truthy username
    points the user at this session. *)
Definition auth (session_id username : string) (m : manager) : manager :=
  if truthy username
  then mkManager (active_connections m) (<[username := session_id]> (user_sessions m))
  else m.

(** [websocket_endpoint]: on [WebSocketDisconnect] the session is
    disconnected without a username. *)
Definition close_channel (session_id : string) : manager → manager :=
  disconnect session_id None.

Definition lookup (m : manager) (username : string) : option string :=
  user_sessions m !! username.

(** [send_to_user]: a send that raises disconnects the session the user
    points at, together with the user's mapping. *)
Definition send_to_user (username : string) (send_ok : bool) (m : manager)
  : bool * manager :=
  match lookup m username with
  | Some session_id =>
      if bool_decide (session_id ∈ active_connections m) then
        if send_ok then (true, m)
        else (false, disconnect session_id (Some username) m)
      else (false, m)
  | None => (false, m)
  end.

End ConnectionManager.

(** ** More Python string helpers *)

(** [str.lower()] on the ASCII letters (bytes outside [A-Z] are kept). *)
Definition lower_ascii (c : Ascii.ascii) : Ascii.ascii :=
  let n := Ascii.nat_of_ascii c in
  if (65 <=? n)%nat && (n <=? 90)%nat then Ascii.ascii_of_nat (n + 32) else c.

Fixpoint lower (s : string) : string :=
  match s with
  | EmptyString => EmptyString
  | String c s' => String (lower_ascii c) (lower s')
  end.

(** [needle in hay] for Python strings. *)
Fixpoint contains (needle hay : string) : bool :=
  String.prefix needle hay ||
  match hay with
  | EmptyString => false
  | String _ hay' => contains needle hay'
  end.

(** [any(keyword in text for keyword in keywords)]. *)
Definition any_keyword_in (keywords : list string) (text : string) : bool :=
  existsb (λ keyword, contains keyword text) keywords.

(** [s.replace('Z', '+00:00')]. *)
Fixpoint replace_Z (s : string) : string :=
  match s with
  | EmptyString => EmptyString
  | String c s' =>
      if Ascii.eqb c "Z"%char then "+00:00" +:+ replace_Z s'
      else String c (replace_Z s')
  end.

(** ** The agent service process (web_app.py, agent.py, app.py)

    One long-lived process owns the S3 client, the in-memory cache of
    completed jobs and the HTTP client.  Its functions are written in a
    state-and-exception monad over [World]; what the process does to the
    outside (object writes, HTTP posts, sleeps, engine calls) is appended
    to [trace] in program order. *)

Module Service.

(** Exceptions the handlers tell apart. *)
Inductive exn : Type :=
| ValueError (msg : string)
| NoSuchKey
| Error (msg : string).

(** [str(e)]. *)
Definition exn_str (e : exn) : string :=
  match e with
  | ValueError msg => msg
  | NoSuchKey => "NoSuchKey"
  | Error msg => msg
  end.

Inductive result (A : Type) : Type :=
| Ok (a : A)
| Raised (e : exn).
Arguments Ok {A} a.
Arguments Raised {A} e.

(** Outward effects, in program order. *)
Inductive event : Type :=
| EvPutObject (key : string) (body : gmap string string)
| EvPost (url username message : string)
| EvSleep (seconds : Z)
| EvAgentCall (prompt : string).

Record World : Type := mkWorld {
  s3 : gmap string (gmap string string);
    (** objects of the session-store bucket: key -> JSON body *)
  completed_jobs_cache : gmap string (gmap string string);
    (** [_completed_jobs_cache]: lower-cased username -> job data *)
  trace : list event;
  ticks : nat;   (** calls of [datetime.utcnow()] made so far *)
  posts : nat;   (** calls of [requests.post] made so far *)
  runs : nat;    (** calls of [agent.prompt] made so far *)
  uuids : nat    (** calls of [uuid.uuid4()] made so far *)
}.

Definition M (A : Type) : Type := World → result A * World.

Definition ret {A} (a : A) : M A := λ w, (Ok a, w).

Definition bind {A B} (m : M A) (f : A → M B) : M B := λ w,
  match m w with
  | (Ok a, w') => f a w'
  | (Raised e, w') => (Raised e, w')
  end.

Notation "'let*' x ':=' m 'in' k" := (bind m (λ x, k))
  (at level 10, x name, m at level 100, k at level 200).
Notation "'do' m 'in' k" := (bind m (λ _, k))
  (at level 10, m at level 100, k at level 200).

Definition raise {A} (e : exn) : M A := λ w, (Raised e, w).

(** [try: m  except Exception as e: handler e]; the state changes made
    before the exception are kept. *)
Definition try_except {A} (m : M A) (handler : exn → M A) : M A := λ w,
  match m w with
  | (Ok a, w') => (Ok a, w')
  | (Raised e, w') => handler e w'
  end.

Definition get_world : M World := λ w, (Ok w, w).
Definition emit (e : event) : M unit := λ w,
  (Ok tt, mkWorld (s3 w) (completed_jobs_cache w) (trace w ++ [e])
                  (ticks w) (posts w) (runs w) (uuids w)).
Definition set_s3 (s : gmap string (gmap string string)) : M unit := λ w,
  (Ok tt, mkWorld s (completed_jobs_cache w) (trace w)
                  (ticks w) (posts w) (runs w) (uuids w)).
Definition set_cache (c : gmap string (gmap string string)) : M unit := λ w,
  (Ok tt, mkWorld (s3 w) c (trace w) (ticks w) (posts w) (runs w) (uuids w)).

(** The answer of the channel endpoint to one [requests.post]. *)
Inductive post_outcome : Type :=
| Response (status_code : Z)
| PostRaises (msg : string).   (** connection error, timeout *)

(** [response.status_code == 200] for an answer; an exception is no
    acknowledgement. *)
Definition acknowledges (o : post_outcome) : bool :=
  match o with
  | Response status_code => bool_decide (status_code = 200%Z)
  | PostRaises _ => false
  end.

(** The external calls one run of [agent.prompt] makes, in order; each
    [option string] is [Some msg] when that call raises. *)
Record engine_run : Type := mkEngineRun {
  before_try : option string;       (** raised before prompt's [try] block *)
  session_manager : option string;  (** [S3SessionManager(...)] *)
  mcp_tools : option string;        (** [get_mcp_tools_for_user(user)] *)
  agent_creation : option string;   (** [Agent(...)] *)
  agent_call : string + string      (** [agent(composite_prompt)]: the
                                        response text, or the error *)
}.

Record User : Type := mkUser { id : string; name : string }.

(** [composite_prompt] is a string (user request) or a dict (system event). *)
Inductive prompt_input : Type :=
| PromptText (text : string)
| PromptEvent (ev : gmap string string).

(** The collaborators of the process.  Those that are not functions of
    their arguments are indexed by the number of calls made before. *)
Record Env : Type := mkEnv {
  utcnow : nat → Z;
    (** [datetime.utcnow()], microseconds of the naive wall clock *)
  isoformat : Z → string;
  fromisoformat : string → option Z;
    (** [datetime.fromisoformat]; [None] when it raises *)
  http : nat → post_outcome;
  engine : nat → engine_run;
  uuid4 : nat → string;
  json_dumps : gmap string string → string;
  jwks_client : bool;
    (** whether [COGNITO_JWKS_URL] is configured *)
  jwt_decode : string → string + User;
    (** signature check and decoding of a token: the user of the claims,
        or the message of the exception *)
  CACHE_TTL_HOURS : Z;
  WEB_APP_NOTIFY_URL : option string
}.

Section WithEnvironment.

Variable env : Env.

Definition utcnow_ : M Z := λ w,
  (Ok (utcnow env (ticks w)),
   mkWorld (s3 w) (completed_jobs_cache w) (trace w)
           (S (ticks w)) (posts w) (runs w) (uuids w)).

Definition uuid4_ : M string := λ w,
  (Ok (uuid4 env (uuids w)),
   mkWorld (s3 w) (completed_jobs_cache w) (trace w)
           (ticks w) (posts w) (runs w) (S (uuids w))).

Definition engine_ : M engine_run := λ w,
  (Ok (engine env (runs w)),
   mkWorld (s3 w) (completed_jobs_cache w) (trace w)
           (ticks w) (posts w) (S (runs w)) (uuids w)).

(** [requests.post(url, json={"username":..,"message":..})]: the
    status code of the response, or the exception it raises. *)
Definition requests_post (url username message : string) : M Z := λ w,
  let w' := mkWorld (s3 w) (completed_jobs_cache w)
                    (trace w ++ [EvPost url username message])
                    (ticks w) (S (posts w)) (runs w) (uuids w) in
  match http env (posts w) with
  | Response code => (Ok code, w')
  | PostRaises msg => (Raised (Error msg), w')
  end.

Definition time_sleep (seconds : Z) : M unit := emit (EvSleep seconds).

(** [s3_client.get_object(...)] followed by [json.loads]. *)
Definition s3_get_object (key : string) : M (gmap string string) := λ w,
  match s3 w !! key with
  | Some body => (Ok body, w)
  | None => (Raised NoSuchKey, w)
  end.

Definition s3_put_object (key : string) (body : gmap string string) : M unit :=
  let* w := get_world in
  do set_s3 (<[key := body]> (s3 w)) in
  emit (EvPutObject key body).

(** *** The result cache (agent.py) *)

(** [is_cache_entry_expired].  [total_seconds()] is the age in
    microseconds divided by 10^6; the comparison with the integer
    [ttl_seconds] is made on the microsecond counts. *)
Definition is_cache_entry_expired (job_data : gmap string string) : M bool :=
  let completion_time_str := dict_get job_data "completion_time" "" in
  if negb (truthy completion_time_str) then ret true
  else
    match fromisoformat env (replace_Z completion_time_str) with
    | None => ret true
    | Some completion_time =>
        let* now := utcnow_ in
        let age_microseconds := (now - completion_time)%Z in
        let ttl_seconds := (CACHE_TTL_HOURS env * 3600)%Z in
        ret (bool_decide (age_microseconds > ttl_seconds * 1000000)%Z)
    end.

(** The text [get_cached_job_results] returns for a live entry. *)
Definition format_cached (job_data : gmap string string) : string :=
  nl +:+ "CACHED JOB RESULTS AVAILABLE:" +:+ nl
  +:+ "- Job: " +:+ dict_get job_data "job_name" "unknown" +:+ nl
  +:+ "- Status: " +:+ dict_get job_data "status" "UNKNOWN" +:+ nl
  +:+ "- Completed: " +:+ dict_get job_data "completion_time" "unknown" +:+ nl
  +:+ "- Results: " +:+ dict_get job_data "results" "No results available" +:+ nl.

(** [get_cached_job_results]: the empty string means absent. *)
Definition get_cached_job_results (username : string) : M string :=
  let user_key := lower username in
  let* w := get_world in
  match completed_jobs_cache w !! user_key with
  | Some job_data =>
      let* expired := is_cache_entry_expired job_data in
      if expired then
        let* w' := get_world in
        do set_cache (delete user_key (completed_jobs_cache w')) in
        ret ""
      else ret (format_cached job_data)
  | None => ret ""
  end.

(** The dictionary [job_result_data] built inside [prompt]
    (agent.py lines 233-241). *)
Definition job_result_data (original_event : gmap string string)
    (response_text : string) (now : Z) : gmap string string :=
  <["session_id" := dict_get original_event "session_id" ""]>
  (<["results" := response_text]>
  (<["completion_time" := isoformat env now]>
  (<["status" := dict_get original_event "status" "UNKNOWN"]>
  (<["run_id" := dict_get original_event "glue_run_id" ""]>
  (<["job_name" := dict_get original_event "glue_job_name" "unknown"]>
  (<["type" := "completed_glue_job"]> ∅)))))).

(** The cache write inside [prompt] (agent.py line 244):
    [_completed_jobs_cache[user.name.lower()] = job_result_data]. *)
Definition cache_put (user : User) (original_event : gmap string string)
    (response_text : string) : M unit :=
  let* now := utcnow_ in
  let* w := get_world in
  set_cache (<[lower (name user) := job_result_data original_event response_text now]>
               (completed_jobs_cache w)).

(** *** The task store (web_app.py; app.py defines the same functions) *)

Definition task_key (task_id : string) : string :=
  "tasks/" +:+ task_id +:+ "/status.json".

(** [create_task_session]: a failing write is logged and re-raised. *)
Definition create_task_session (user_id username prompt : string) : M string :=
  let* task_id := uuid4_ in
  let* now := utcnow_ in
  let session_data : gmap string string :=
    <["progress" := "Initializing agent reasoning..."]>
    (<["created_at" := isoformat env now]>
    (<["status" := "STARTED"]>
    (<["prompt" := prompt]>
    (<["username" := username]>
    (<["user_id" := user_id]>
    (<["task_id" := task_id]> ∅)))))) in
  try_except
    (do s3_put_object (task_key task_id) session_data in
     ret task_id)
    (λ e, raise e).

(** [session_data.update({"status":.., "progress":.., "updated_at":..})]. *)
Definition session_update (session_data : gmap string string)
    (status message updated_at : string) : gmap string string :=
  <["updated_at" := updated_at]>
  (<["progress" := message]>
  (<["status" := status]> session_data)).

(** [update_task_progress]: read, modify, write; every exception is
    logged and swallowed. *)
Definition update_task_progress (task_id status message : string) : M unit :=
  try_except
    (let* session_data := s3_get_object (task_key task_id) in
     let* now := utcnow_ in
     s3_put_object (task_key task_id)
       (session_update session_data status message (isoformat env now)))
    (λ _, ret tt).

(** [update_task_progress_from_agent] (agent.py): skipped without a task id. *)
Definition update_task_progress_from_agent (task_id : option string)
    (status message : string) : M unit :=
  if negb (truthy_opt task_id) then ret tt
  else update_task_progress (default "" task_id) status message.

(** *** Notification senders *)

(** [send_websocket_notification] of web_app.py and app.py: one attempt. *)
Definition send_websocket_notification (username message : string)
    (websocket_url : option string) : M bool :=
  if negb (truthy_opt websocket_url) then ret false
  else
    let url := default "" websocket_url in
    if contains "localhost" url || contains "127.0.0.1" url then ret true
    else
      try_except
        (let* status_code := requests_post url username message in
         if bool_decide (status_code = 200%Z) then ret true else ret false)
        (λ _, ret false).

(** [send_websocket_notification] of agent.py: falls back to the
    configured URL; [requests.post] raises on a missing or empty URL
    before anything is sent. *)
Definition agent_send_websocket_notification (username message : string)
    (websocket_url : option string) : M bool :=
  let websocket_url :=
    if negb (truthy_opt websocket_url) then WEB_APP_NOTIFY_URL env
    else websocket_url in
  try_except
    (let* status_code :=
       (if truthy_opt websocket_url
        then requests_post (default "" websocket_url) username message
        else raise (Error "Invalid URL")) in
     if bool_decide (status_code = 200%Z) then ret true else ret false)
    (λ _, ret false).

(** [range(n)]. *)
Definition range (n : Z) : list Z := (λ k, Z.of_nat k) <$> seq 0 (Z.to_nat n).

(** The body of the [for attempt in range(max_retries)] loop of
    [send_websocket_notification_with_retry] (app.py), over the
    attempts that remain. *)
Fixpoint retry_attempts (username message websocket_url : string)
    (max_retries : Z) (attempts : list Z) : M bool :=
  match attempts with
  | [] => ret false
  | attempt :: rest =>
      let* acknowledged :=
        try_except
          (let* status_code := requests_post websocket_url username message in
           ret (bool_decide (status_code = 200%Z)))
          (λ _, ret false) in
      if acknowledged then ret true
      else
        do (if bool_decide (attempt < max_retries - 1)%Z
            then time_sleep (2 ^ attempt)
            else ret tt) in
        retry_attempts username message websocket_url max_retries rest
  end.

Definition send_websocket_notification_with_retry (username message
    websocket_url : string) (max_retries : Z) : M bool :=
  retry_attempts username message websocket_url max_retries (range max_retries).

(** *** The reasoning entry point (agent.py) *)

(** [build_prompt_from_glue_event]. *)
Definition build_prompt_from_glue_event (ev : gmap string string) : string :=
  let status := dict_get ev "status" "UNKNOWN" in
  let output_path := dict_get ev "output_s3_path" "" in
  let result_preview := dict_get ev "result_preview" "" in
  if bool_decide (status = "SUCCEEDED") then
    "🎉 Great news! The SQL query execution completed successfully!" +:+ nl +:+ nl
    +:+ "📊 **Execution Results:**" +:+ nl +:+ result_preview +:+ nl +:+ nl
    +:+ "📁 **Data Location:** " +:+ output_path +:+ nl +:+ nl
    +:+ "🔍 **Analysis:** Based on these results, provide insights about the data quality, "
    +:+ "any patterns you notice, and suggest next steps or additional queries that might be helpful. "
    +:+ "Be conversational and helpful in explaining what the results mean."
  else if bool_decide (status = "FAILED") then
    "❌ The SQL query execution encountered an error." +:+ nl +:+ nl
    +:+ "🔍 **Error Details:**" +:+ nl +:+ result_preview +:+ nl +:+ nl
    +:+ "🛠️ **Your task:** Analyze this error and provide:" +:+ nl
    +:+ "1. A clear explanation of what went wrong" +:+ nl
    +:+ "2. Specific steps to fix the issue" +:+ nl
    +:+ "3. Suggestions for alternative approaches" +:+ nl
    +:+ "4. Any relevant tips for avoiding similar issues" +:+ nl +:+ nl
    +:+ "Be helpful and provide actionable guidance to resolve the problem."
  else
    "⚠️ The SQL query execution completed with status: " +:+ status +:+ nl +:+ nl
    +:+ "📋 **Details:**" +:+ nl +:+ result_preview +:+ nl +:+ nl
    +:+ "Please analyze this status and provide appropriate guidance to the user.".

Definition status_keywords : list string :=
  ["status"; "done"; "complete"; "finished"; "result"; "update"].

(** An external call of [prompt] that raises [msg] or returns. *)
Definition external_call (failure : option string) : M unit :=
  match failure with
  | Some msg => raise (Error msg)
  | None => ret tt
  end.

(** The prologue of [prompt]: a status-style text query gets the
    cached job results prepended. *)
Definition inject_cached_results (user : User) (composite_prompt : prompt_input)
  : M prompt_input :=
  match composite_prompt with
  | PromptText text =>
      if any_keyword_in status_keywords (lower text) then
        let* cached_results := get_cached_job_results (name user) in
        if truthy cached_results
        then ret (PromptText (cached_results +:+ nl +:+ nl +:+ "User Query: " +:+ text))
        else ret composite_prompt
      else ret composite_prompt
  | PromptEvent _ => ret composite_prompt
  end.

(** [prompt(user, composite_prompt, websocket_url, task_id)]. *)
Definition prompt (user : User) (composite_prompt : prompt_input)
    (websocket_url task_id : option string) : M string :=
  let* run := engine_ in
  do external_call (before_try run) in
  let* composite_prompt := inject_cached_results user composite_prompt in
  try_except
    (do update_task_progress_from_agent task_id "PROCESSING"
          "Setting up agent session..." in
     do external_call (session_manager run) in
     do update_task_progress_from_agent task_id "PROCESSING"
          "Processing your request..." in
     let is_glue_result :=
       match composite_prompt with
       | PromptEvent ev => bool_decide (ev !! "type" = Some "glue_job_result")
       | PromptText _ => false
       end in
     let original_event :=
       match composite_prompt with
       | PromptEvent ev => ev
       | PromptText _ => ∅
       end in
     let final_prompt :=
       match composite_prompt with
       | PromptEvent ev =>
           if is_glue_result then build_prompt_from_glue_event ev
           else json_dumps env ev
       | PromptText text => text
       end in
     do update_task_progress_from_agent task_id "PROCESSING"
          "Initializing data tools and connections..." in
     do external_call (mcp_tools run) in
     do update_task_progress_from_agent task_id "PROCESSING"
          "Creating fresh AI agent with your tools..." in
     do external_call (agent_creation run) in
     do update_task_progress_from_agent task_id "PROCESSING"
          "AI agent is analyzing your request and generating response..." in
     do emit (EvAgentCall final_prompt) in
     let* response_text :=
       match agent_call run with
       | inl text => ret text
       | inr msg => raise (Error msg)
       end in
     do update_task_progress_from_agent task_id "PROCESSING"
          "Finalizing response..." in
     do (if is_glue_result && truthy_opt websocket_url then
           do try_except (cache_put user original_event response_text)
                         (λ _, ret tt) in
           do agent_send_websocket_notification (name user) response_text
                websocket_url in
           ret tt
         else ret tt) in
     ret response_text)
    (λ e, ret ("Failed to process request: " +:+ exn_str e)).

(** *** The background task (web_app.py [process_agent_background]) *)

Definition process_agent_background (task_id : string) (user : User)
    (prompt_text : string) (websocket_url : option string) : M unit :=
  try_except
    (do update_task_progress task_id "PROCESSING"
          "Agent is analyzing your request..." in
     let* response_text :=
       prompt user (PromptText prompt_text) websocket_url (Some task_id) in
     do update_task_progress task_id "COMPLETED" response_text in
     do send_websocket_notification (name user) response_text websocket_url in
     ret tt)
    (λ e,
       let error_message := "Processing failed: " +:+ exn_str e in
       do update_task_progress task_id "FAILED" error_message in
       do send_websocket_notification (name user) error_message websocket_url in
       ret tt).

(** [handle_async_agent_processing] (app.py): the same steps; the
    status code of the returned dictionary is the result. *)
Definition handle_async_agent_processing (task_id : string) (user : User)
    (prompt_text : string) (websocket_url : option string) : M Z :=
  try_except
    (do update_task_progress task_id "PROCESSING"
          "Agent is analyzing your request..." in
     let* response_text :=
       prompt user (PromptText prompt_text) websocket_url (Some task_id) in
     do update_task_progress task_id "COMPLETED" response_text in
     do send_websocket_notification (name user) response_text websocket_url in
     ret 200%Z)
    (λ e,
       let error_message := "Processing failed: " +:+ exn_str e in
       do update_task_progress task_id "FAILED" error_message in
       do send_websocket_notification (name user) error_message websocket_url in
       ret 500%Z).

(** *** The task-status endpoint (web_app.py) *)

(** [auth_header.split(' ')[1]] for a header that starts with ['Bearer ']. *)
Fixpoint until_space (s : string) : string :=
  match s with
  | EmptyString => EmptyString
  | String c s' => if Ascii.eqb c " "%char then EmptyString else String c (until_space s')
  end.

Definition bearer_token (auth_header : string) : string :=
  until_space (String.substring 7 (String.length auth_header - 7) auth_header).

(** [get_user_from_token]: every failure becomes a [ValueError]. *)
Definition get_user_from_token (auth_header : option string) : M User :=
  let header := default "" auth_header in
  if negb (truthy_opt auth_header) || negb (String.prefix "Bearer " header) then
    raise (ValueError
      "Invalid authentication token: Missing or invalid Authorization header")
  else if negb (jwks_client env) then ret (mkUser "test-user" "Test User")
  else
    match jwt_decode env (bearer_token header) with
    | inr user => ret user
    | inl msg => raise (ValueError ("Invalid authentication token: " +:+ msg))
    end.

(** [get_task_status]: the HTTP status code and the JSON body. *)
Definition get_task_status (auth_header : option string) (task_id : string)
  : M (Z * gmap string string) :=
  try_except
    (let* user := get_user_from_token auth_header in
     let* session_data := s3_get_object (task_key task_id) in
     if bool_decide (session_data !! "user_id" ≠ Some (id user))
     then ret (403%Z, {[ "error" := "Access denied" ]})
     else ret (200%Z, session_data))
    (λ e,
       match e with
       | ValueError msg => ret (401%Z, {[ "error" := msg ]})
       | NoSuchKey => ret (404%Z, {[ "error" := "Task not found" ]})
       | Error msg => ret (500%Z, {[ "error" := msg ]})
       end).

(** [handle_glue_result] (web_app.py): the completion event of the poller
    is handed to [prompt] without a task id; [user_context] is the nested
    object of the event.  The result is the status code and the response
    (or error) text. *)
Definition handle_glue_result (ev user_context : gmap string string) : M (Z * string) :=
  try_except
    (let session_id := dict_get ev "session_id" "system-session" in
     let original_user_id := dict_get user_context "user_id" session_id in
     let username := dict_get user_context "username" "unknown-user" in
     let user := mkUser original_user_id username in
     let websocket_url := ev !! "websocket_url" in
     let* response_text := prompt user (PromptEvent ev) websocket_url None in
     ret (200%Z, response_text))
    (λ e, ret (500%Z, exn_str e)).

(** The asynchronous branch of [process_agent_request]: the task is
    created, then the background task runs. *)
Definition accept_async_request (user : User) (composite_prompt : string)
    (websocket_url : option string) : M string :=
  let* task_id := create_task_session (id user) (name user) composite_prompt in
  do process_agent_background task_id user composite_prompt websocket_url in
  ret task_id.

(** *** Vocabulary of the properties *)

(** The TTL in the unit of the clock. *)
Definition ttl_microseconds : Z := (CACHE_TTL_HOURS env * 3600 * 1000000)%Z.

(** The outcome of [prompt] inside a background task started in [w]. *)
Definition prompt_outcome (w : World) (task_id : string) (user : User) (text : string)
    (websocket_url : option string) : result string :=
  (prompt user (PromptText text) websocket_url (Some task_id)
     (update_task_progress task_id "PROCESSING"
        "Agent is analyzing your request..." w).2).1.

End WithEnvironment.

(** A relation between the world before and after a computation holds
    for every start. *)
Definition always {A} (R : World → World → Prop) (m : M A) : Prop :=
  ∀ w, R w (m w).2.

(** A computation that never raises. *)
Definition total {A} (m : M A) : Prop := ∀ w, ∃ a, (m w).1 = Ok a.

(** The fields [update_task_progress] may change. *)
Definition updated_fields : list string := ["status"; "progress"; "updated_at"].

(** [d'] agrees with [d] on every field that is not an updated field. *)
Definition same_identity (d d' : gmap string string) : Prop :=
  ∀ field, field ∉ updated_fields → d' !! field = d !! field.

(** Events a task in progress may produce: writes of the task's record
    with status PROCESSING, and calls of the reasoning engine. *)
Definition processing_event (key : string) (e : event) : Prop :=
  match e with
  | EvPutObject k d => k = key ∧ d !! "status" = Some "PROCESSING"
  | EvAgentCall _ => True
  | EvPost _ _ _ => False
  | EvSleep _ => False
  end.

(** From [w] to [w'] the record under [key] kept its identity fields and
    only processing events were produced. *)
Definition progress_only (key : string) (w w' : World) : Prop :=
  (∀ d, s3 w !! key = Some d → ∃ d', s3 w' !! key = Some d' ∧ same_identity d d') ∧
  (∃ evs, trace w' = trace w ++ evs ∧ Forall (processing_event key) evs).

Definition terminal_status (status : string) : Prop :=
  status = "COMPLETED" ∨ status = "FAILED".

(** The shape of everything a background task does to a world in which
    the task's record exists: processing events, then one write of the
    record with a terminal status and the final message, then at most one
    post that carries the same message. *)
Definition background_shape (w w' : World) (task_id : string) (user : User)
    (websocket_url : option string) (d0 : gmap string string)
    (status message : string) : Prop :=
  ∃ evs_pre d_term evs_post,
    trace w' = trace w ++ evs_pre ++ [EvPutObject (task_key task_id) d_term] ++ evs_post ∧
    Forall (processing_event (task_key task_id)) evs_pre ∧
    d_term !! "status" = Some status ∧
    d_term !! "progress" = Some message ∧
    same_identity d0 d_term ∧
    s3 w' !! task_key task_id = Some d_term ∧
    (evs_post = [] ∨
     ∃ url, websocket_url = Some url ∧ evs_post = [EvPost url (name user) message]).

(** The terminal status and message the background task records for an
    outcome of [prompt]. *)
Definition terminal_record (r : result string) : string * string :=
  match r with
  | Ok response_text => ("COMPLETED", response_text)
  | Raised e => ("FAILED", "Processing failed: " +:+ exn_str e)
  end.


(** A write to the session store. *)
Definition is_store_write (e : event) : Prop :=
  match e with
  | EvPutObject _ _ => True
  | _ => False
  end.


(** The fields of a task record that identify it. *)
Definition identity_fields : list string :=
  ["created_at"; "task_id"; "user_id"; "username"; "prompt"].

(** The world after one [requests.post]. *)
Definition posted (w : World) (url username message : string) : World :=
  mkWorld (s3 w) (completed_jobs_cache w) (trace w ++ [EvPost url username message])
          (ticks w) (S (posts w)) (runs w) (uuids w).

(** The world after [time.sleep(seconds)]. *)
Definition slept (w : World) (seconds : Z) : World :=
  mkWorld (s3 w) (completed_jobs_cache w) (trace w ++ [EvSleep seconds])
          (ticks w) (posts w) (runs w) (uuids w).

(** The cache of completed jobs is the same before and after. *)
Definition cache_kept (w w' : World) : Prop :=
  completed_jobs_cache w' = completed_jobs_cache w.

(** The user [handle_glue_result] builds from the event. *)
Definition event_user (ev user_context : gmap string string) : User :=
  mkUser (dict_get user_context "user_id" (dict_get ev "session_id" "system-session"))
         (dict_get user_context "username" "unknown-user").

End Service.

(** ** The job poller (src/lambdas/poller/poller.py)

    The poller runs in its own process.  The loop is a function of the
    answers of the job service and of the clock readings, both indexed by
    the iteration of [while True]; what it sends out is a list of events. *)

Module Poller.

(** What [glue.get_job_run] does in one iteration. *)
Inductive read_outcome : Type :=
| JobRunState (state : string)     (** [response['JobRun']['JobRunState']] *)
| ClientError (msg : string)       (** caught by [except ClientError] *)
| OtherException (msg : string).   (** any other exception: not caught *)

Inductive out_event : Type :=
| Progress (poll_count : nat) (status progress_message : string)
| Sleep (seconds : Z)
| Result (status output_s3_path : string) (result_preview : option string).

Record Config : Type := mkConfig {
  BUCKETNAME : option string;
  POLL_INTERVAL : Z;     (** seconds *)
  MAX_POLL_HOURS : Z
}.

Record Env : Type := mkEnv {
  get_job_run : nat → read_outcome;
  elapsed_at_check : nat → Z;
    (** [time.time() - start_time] read by the timeout safeguard of an
        iteration, in microseconds *)
  elapsed_minutes_text : nat → string;
    (** [f"{elapsed_minutes:.1f}"] of an iteration *)
  harvest : string → option string * option string
    (** the preview and the output location found for a session *)
}.

(** The fields of the input event the handler reads. *)
Record request : Type := mkRequest {
  job_name : option string;
  run_id : option string;
  session_id : string;
  output_s3_path : string;
  reinvoke : bool
}.

(** How the [while True] loop is left. *)
Inductive loop_exit : Type :=
| Break (state : string) (poll_count reads : nat) (tr : list out_event)
| Propagates (msg : string) (reads : nat) (tr : list out_event).

Inductive handler_result : Type :=
| ReturnedError (reason : string)
| Returned (status : string) (reads : nat) (tr : list out_event)
| Raised (msg : string) (tr : list out_event).

Definition terminal_states : list string :=
  ["SUCCEEDED"; "FAILED"; "STOPPED"; "TIMEOUT"].

Definition is_terminal (state : string) : bool :=
  bool_decide (state ∈ terminal_states).

Section WithEnvironment.

Variable cfg : Config.
Variable env : Env.
Variable req : request.

Definition progress_message (i : nat) (state : string) : string :=
  "Job is " +:+ lower state +:+ "... (running for "
  +:+ elapsed_minutes_text env i +:+ " minutes)".

(** [elapsed_hours > MAX_POLL_HOURS] with
    [elapsed_hours = (time.time() - start_time) / 3600], on the
    microsecond count. *)
Definition ceiling_exceeded (i : nat) : bool :=
  bool_decide (elapsed_at_check env i > MAX_POLL_HOURS cfg * 3600 * 1000000)%Z.

(** The trace after a read that returned a state: every third poll
    emits a progress event when re-invocation is on. *)
Definition with_progress (i : nat) (state : string) (poll_count : nat)
    (tr : list out_event) : list out_event :=
  if reinvoke req && (poll_count mod 3 =? 0)%nat
  then tr ++ [Progress poll_count state (progress_message i state)]
  else tr.

(** The [while True] loop from iteration [i] on; [fuel] bounds the
    number of iterations that are run. *)
Fixpoint poll_loop (fuel i : nat) (state : string) (poll_count : nat)
    (tr : list out_event) : option loop_exit :=
  match fuel with
  | O => None
  | S fuel' =>
      let timeout_safeguard (state : string) (poll_count : nat)
          (tr : list out_event) :=
        if ceiling_exceeded i then Some (Break "TIMEOUT" poll_count (S i) tr)
        else poll_loop fuel' (S i) state poll_count
               (tr ++ [Sleep (POLL_INTERVAL cfg)]) in
      match get_job_run env i with
      | JobRunState state =>
          let poll_count := S poll_count in
          let tr := with_progress i state poll_count tr in
          if is_terminal state then Some (Break state poll_count (S i) tr)
          else timeout_safeguard state poll_count tr
      | ClientError _ => timeout_safeguard state poll_count tr
      | OtherException msg => Some (Propagates msg (S i) tr)
      end
  end.

(** [handler(event, context)]. *)
Definition handler (fuel : nat) : option handler_result :=
  if negb (truthy_opt (BUCKETNAME cfg)) then
    Some (ReturnedError "BUCKETNAME not configured")
  else if negb (truthy_opt (job_name req)) || negb (truthy_opt (run_id req)) then
    Some (ReturnedError "Missing job_name or run_id")
  else
    match poll_loop fuel 0 "RUNNING" 0 [] with
    | None => None
    | Some (Propagates msg _ tr) => Some (Raised msg tr)
    | Some (Break state _ reads tr) =>
        let '(result_preview, actual_output_location) :=
          if bool_decide (state = "SUCCEEDED") then harvest env (session_id req)
          else (None, None) in
        let location :=
          if truthy_opt actual_output_location
          then default "" actual_output_location
          else output_s3_path req in
        let tr :=
          if reinvoke req then tr ++ [Result state location result_preview]
          else tr in
        Some (Returned state reads tr)
    end.

(** *** Vocabulary of the properties *)

(** The handler runs the loop when the bucket is configured and the
    request names the job and the run. *)
Definition well_formed : Prop :=
  truthy_opt (BUCKETNAME cfg) = true ∧
  truthy_opt (job_name req) = true ∧
  truthy_opt (run_id req) = true.

End WithEnvironment.

(** A read that keeps the loop going: a state that is not terminal, or
    the client error the loop catches. *)
Definition keeps_polling (o : read_outcome) : Prop :=
  match o with
  | JobRunState state => is_terminal state = false
  | ClientError _ => True
  | OtherException _ => False
  end.

(** A read that returned a state. *)
Definition is_state_read (o : read_outcome) : bool :=
  match o with
  | JobRunState _ => true
  | _ => false
  end.

(** The number of reads that returned a state among the iterations
    [i, i + len). *)
Definition state_reads (env : Env) (i len : nat) : nat :=
  length (List.filter (λ j, is_state_read (get_job_run env j)) (seq i len)).

End Poller.

(** ** Concrete environments for the examples *)

Module Fixtures.

(** *** Service *)

Definition minute : Z := 60 * 1000000.

(** The clock of the cache example: entry completed at T, reads at
    T + 59 min and T + 61 min, a new entry at T + 61 min, a read one second
    later. *)
Definition example_clock (n : nat) : Z :=
  nth n [0; 59 * minute; 61 * minute; 61 * minute; 61 * minute + 1000000]%Z
        (61 * minute + 1000000)%Z.

Definition iso_table : list (Z * string) :=
  [ (0, "1970-01-01T00:00:00");
    (59 * minute, "1970-01-01T00:59:00");
    (61 * minute, "1970-01-01T01:01:00");
    (61 * minute + 1000000, "1970-01-01T01:01:01") ]%Z.

(** [isoformat] and [fromisoformat] on the instants of the example. *)
Definition table_isoformat (t : Z) : string :=
  match List.find (λ p, Z.eqb p.1 t) iso_table with
  | Some p => p.2
  | None => ""
  end.

Definition table_fromisoformat (s : string) : option Z :=
  match List.find (λ p, String.eqb p.2 s) iso_table with
  | Some p => Some p.1
  | None => None
  end.

Definition responding (text : string) : Service.engine_run :=
  Service.mkEngineRun None None None None (inl text).

Definition raising (msg : string) : Service.engine_run :=
  Service.mkEngineRun (Some msg) None None None (inl "").

(** An environment with a TTL of one hour, a channel endpoint that
    answers as [http] says and an engine that runs as [engine] says. *)
Definition example_env (http : nat → Service.post_outcome)
    (engine : nat → Service.engine_run) : Service.Env :=
  Service.mkEnv example_clock table_isoformat table_fromisoformat http engine
    (λ n, nth n ["task-0"; "task-1"; "task-2"] "task-n") (λ _, "{}") false (λ _, inl "no signing key")
    1 None.

Definition always_ok : nat → Service.post_outcome := λ _, Service.Response 200.

(** Two refused attempts (an error status, then a timeout), then 200. *)
Definition fails_twice : nat → Service.post_outcome := λ k,
  match k with
  | 0 => Service.Response 503
  | 1 => Service.PostRaises "timed out"
  | _ => Service.Response 200
  end%nat.


Definition empty_world : Service.World := Service.mkWorld ∅ ∅ [] 0 0 0 0.

Definition alice : Service.User := Service.mkUser "u-1" "Alice".

(** A completion event of the poller, with and without a push URL. *)
Definition completion_event (websocket_url : option string) : gmap string string :=
  let ev : gmap string string :=
    <["type" := "glue_job_result"]>
    (<["glue_job_name" := "dq-job"]>
    (<["glue_run_id" := "jr_1"]>
    (<["status" := "SUCCEEDED"]>
    (<["session_id" := "s-1"]> ∅)))) in
  match websocket_url with
  | Some url => <["websocket_url" := url]> ev
  | None => ev
  end.

Definition alice_context : gmap string string :=
  <["user_id" := "u-1"]> (<["username" := "Alice"]> ∅).

(** *** Poller *)

Definition poller_cfg : Poller.Config := Poller.mkConfig (Some "results-bucket") 0 1.

Definition poller_req : Poller.request :=
  Poller.mkRequest (Some "dq-job") (Some "jr_1") "s-1" "" true.

Definition hour : Z := 3600 * 1000000.

(** The scripted job: RUNNING three times, then SUCCEEDED. *)
Definition scripted_env : Poller.Env :=
  Poller.mkEnv
    (λ i, nth i [Poller.JobRunState "RUNNING"; Poller.JobRunState "RUNNING";
                 Poller.JobRunState "RUNNING"]
                (Poller.JobRunState "SUCCEEDED"))
    (λ i, Z.of_nat i) (λ _, "0.0") (λ _, (Some "Row Count: 3", None)).

(** A job that is RUNNING for ever; each iteration takes a bit more than
    one hour, the ceiling of [poller_cfg]. *)
Definition stuck_env : Poller.Env :=
  Poller.mkEnv (λ _, Poller.JobRunState "RUNNING")
    (λ i, Z.of_nat i * hour + 1)%Z (λ _, "60.0") (λ _, (None, None)).

(** A job service that cannot be reached: every read raises an exception
    that is not the client error. *)
Definition unreachable_env : Poller.Env :=
  Poller.mkEnv (λ _, Poller.OtherException "EndpointConnectionError")
    (λ i, Z.of_nat (S i) * 2 * hour)%Z (λ _, "120.0") (λ _, (None, None)).

(** A task record as [create_task_session] writes it. *)
Definition created_world (env : Service.Env) : Service.World :=
  (Service.create_task_session env "u-1" "Alice" "User prompt: count the rows" empty_world).2.

Definition created_record (env : Service.Env) : gmap string string :=
  default ∅ (Service.s3 (created_world env) !! Service.task_key "task-0").


End Fixtures.

(** ** The route dispatcher of the channel handler
    (src/web/websocket_handler.py, [handler]) *)

Module RegistryHandler.
Import Registry.

(** [handler(event, context)]: the status code of the response and the
    registry afterwards.  [body] is the parsed message ([None] when
    [json.loads] raises), [post_ok] tells whether posting the confirmation
    succeeds. *)
Definition handler (route_key connection_id : string) (body : option message)
    (post_ok : bool) (r : registry) : Z * registry :=
  if bool_decide (route_key = "$connect") then (200%Z, handle_connect connection_id r)
  else if bool_decide (route_key = "$disconnect") then
    (200%Z, handle_disconnect connection_id r)
  else if bool_decide (route_key = "$default") then
    (handle_message_status body post_ok,
     match body with
     | Some m => handle_message connection_id m r
     | None => r
     end)
  else (400%Z, r).

End RegistryHandler.

(** ** The notification endpoint of the web application
    (src/web/app.py, [notify_user]) *)

Module WebApp.

(** An entry of [chat_history_store]. *)
Record chat_message : Type := mkChatMessage {
  role : string;
  content : string;
  timestamp : Z
}.

(** The process state the endpoint works on: the connection manager and
    [chat_history_store] (username -> pending messages, oldest first). *)
Record state : Type := mkState {
  manager : ConnectionManager.manager;
  chat_history_store : gmap string (list chat_message)
}.

(** How an endpoint function ends: it returns its body, which the
    framework answers with status 200, or it raises
    [HTTPException(status_code=...)]. *)
Inductive endpoint_outcome : Type :=
| Returns
| RaisesHTTPException (status_code : Z).

(** [notify_user(request)]: [body] is the parsed JSON body ([None] when it
    does not parse), [now_ms] is [int(time.time() * 1000)], [send_ok] tells
    whether the socket accepts the text.  The result is how the function
    ends and the state afterwards. *)
Definition notify_user (body : option (gmap string string)) (now_ms : Z)
    (send_ok : bool) (st : state) : endpoint_outcome * state :=
  match body with
  | None => (RaisesHTTPException 400, st)
  | Some data =>
      let username := data !! "username" in
      let message := data !! "message" in
      if negb (truthy_opt username) || negb (truthy_opt message)
      then (RaisesHTTPException 400, st)
      else
        let u := default "" username in
        let msg := default "" message in
        let pending := default [] (chat_history_store st !! u) in
        let store :=
          <[u := pending ++ [mkChatMessage "assistant" msg now_ms]]>
            (chat_history_store st) in
        let pushed := ConnectionManager.send_to_user u send_ok (manager st) in
        (Returns, mkState pushed.2 store)
  end.

(** What [auth_exception_handler] (app.py lines 88-95), the handler the
    application registers for every [HTTPException], returns: a redirect
    for status 401, and for every other status the exception object
    itself. *)
Inductive handler_return : Type :=
| RedirectResponse (status_code : Z)
| ExceptionObject (status_code : Z).

Definition auth_exception_handler (status_code : Z) : handler_return :=
  if bool_decide (status_code = 401%Z) then RedirectResponse 302
  else ExceptionObject status_code.

(** The status the client receives.  The framework sends the response the
    exception handler returns; the exception object is not a response, and
    the framework's attempt to send it fails, which the client sees as
    status 500. *)
Definition response_status (o : endpoint_outcome) : Z :=
  match o with
  | Returns => 200
  | RaisesHTTPException status_code =>
      match auth_exception_handler status_code with
      | RedirectResponse redirect_status => redirect_status
      | ExceptionObject _ => 500
      end
  end%Z.

(** The step of [chat] that hands the pending messages of a user to the
    conversation and clears them (app.py lines 317-330). *)
Definition take_pending (username : string) (history : list (string * string))
    (st : state) : list (string * string) * state :=
  match chat_history_store st !! username with
  | Some (m :: pending) =>
      (history ++ ((λ p, (role p, content p)) <$> (m :: pending)),
       mkState (manager st) (<[username := []]> (chat_history_store st)))
  | _ => (history, st)
  end.

End WebApp.

(** ** Python string helpers of the request classifiers *)

(** The ASCII characters [str.strip()] removes: tab to carriage return,
    the four separators 28 to 31, and the space. *)
Definition is_space (c : Ascii.ascii) : bool :=
  let n := Ascii.nat_of_ascii c in
  ((9 <=? n)%nat && (n <=? 13)%nat) || ((28 <=? n)%nat && (n <=? 32)%nat).

(** [s.lstrip()], [s.rstrip()] and [s.strip()]. *)
Fixpoint lstrip (s : string) : string :=
  match s with
  | EmptyString => EmptyString
  | String c s' => if is_space c then lstrip s' else s
  end.

Fixpoint rstrip (s : string) : string :=
  match s with
  | EmptyString => EmptyString
  | String c s' =>
      match rstrip s' with
      | EmptyString => if is_space c then EmptyString else String c EmptyString
      | r => String c r
      end
  end.

Definition strip (s : string) : string := rstrip (lstrip s).

(** Python strings are held as their UTF-8 encoding.  A byte of the form
    10xxxxxx continues a character; every other byte starts one. *)
Definition is_continuation (c : Ascii.ascii) : bool :=
  let n := Ascii.nat_of_ascii c in
  (128 <=? n)%nat && (n <? 192)%nat.

(** [len(s)]: the number of characters. *)
Fixpoint str_len (s : string) : nat :=
  match s with
  | EmptyString => 0
  | String c s' => (if is_continuation c then 0 else 1) + str_len s'
  end.

(** A text of ASCII characters only.  On such a text [lower], [strip] and
    [str_len] are Python's [str.lower], [str.strip] and [len]; beyond ASCII,
    [lower] leaves cased characters as they are and [strip] keeps white
    space such as the no-break space, where Python does not. *)
Fixpoint is_ascii (s : string) : bool :=
  match s with
  | EmptyString => true
  | String c s' => (Ascii.nat_of_ascii c <? 128)%nat && is_ascii s'
  end.

(** A string that does not start with a character [lstrip] removes. *)
Definition starts_unspaced (s : string) : bool :=
  match s with
  | EmptyString => true
  | String c _ => negb (is_space c)
  end.

(** [s.endswith(suffix)]. *)
Fixpoint ends_with (suffix s : string) : bool :=
  String.eqb suffix s ||
  match s with
  | EmptyString => false
  | String _ s' => ends_with suffix s'
  end.

(** ** Request routing (web_app.py [is_simple_message],
    [process_agent_request]; app.py [handle_user_request_async],
    [handle_glue_result]) *)

Module Routing.
Import Service.

(** *** web_app.py *)

Definition data_keywords : list string :=
  ["sql"; "query"; "database"; "table"; "select"; "data"; "analyze"; "run";
   "execute"; "show"; "list"; "schema"; "glue"].

Definition simple_patterns : list string :=
  ["hi"; "hello"; "hey"; "good morning"; "good afternoon"; "good evening";
   "how are you"; "what's up"; "thanks"; "thank you"; "bye"; "goodbye";
   "ok"; "okay"; "yes"; "no"; "sure"; "great"; "awesome"; "cool";
   "who are you"; "what can you do"; "help"; "what is this"].

(** The test of one pattern inside the loop of [is_simple_message]. *)
Definition matches_pattern (text_lower pattern : string) : bool :=
  String.eqb text_lower pattern
  || String.prefix (pattern +:+ " ") text_lower
  || ends_with (" " +:+ pattern) text_lower.

(** [is_simple_message(text)]; [len] counts characters. *)
Definition is_simple_message (text : string) : bool :=
  let text_lower := strip (lower text) in
  if (str_len (strip text) <=? 30)%nat
     && negb (any_keyword_in data_keywords text_lower)
  then true
  else existsb (matches_pattern text_lower) simple_patterns.

(** What [process_agent_request] hands to the background thread. *)
Record background_job : Type := mkJob {
  job_task_id : string;
  job_user : User;
  job_prompt : string;
  job_websocket_url : option string
}.

(** What the agent endpoint finds in the body of the request. *)
Inductive agent_body : Type :=
| BodyRaises (msg : string)
    (** [request.get_json()] raises: there is no JSON body, or it does not
        parse *)
| BodyWithoutText
    (** [request.get_json()] returns a falsy value, or an object without a
        ['text'] field *)
| BodyWithText (text : string) (websocket_url : option string).
    (** an object with the ['text'] field and its ['websocket_url'] field,
        if any *)

(** The request as the endpoint reads it: the Authorization header, the
    body and the client address. *)
Record agent_request : Type := mkAgentRequest {
  authorization : option string;
  json : agent_body;
  client_ip : string
}.

    (** an object that is not empty: its string fields other than
        ['user_context'], and its ['user_context'] object, if any *)

(** *** app.py *)

Definition data_processing_keywords : list string :=
  ["record count"; "count(*)"; "count records"; "how many records"; "total records";
   "count of"; "number of records"; "row count"; "total rows";
   "select * from"; "select count"; "run query"; "execute query"; "analyze data";
   "query the data"; "data analysis"; "aggregate"; "sum"; "average"; "min"; "max"].

Definition schema_keywords : list string :=
  ["schema"; "describe table"; "show tables"; "table structure"; "columns";
   "what tables"; "list tables"; "table info"; "database"; "catalog"; "metadata"].

Definition simple_keywords : list string :=
  ["hello"; "hi"; "help"; "what can you do"; "how are you"; "test"].

(** The decision of [handle_user_request_async] between the asynchronous
    and the synchronous path (app.py lines 196-242): [use_async] is the
    ['async'] field of the request. *)
Definition use_async_processing (prompt_text : string) (use_async : bool) : bool :=
  let likely_needs_glue := any_keyword_in data_processing_keywords (lower prompt_text) in
  let is_schema_query := any_keyword_in schema_keywords (lower prompt_text) in
  let is_simple_query := any_keyword_in simple_keywords (lower prompt_text) in
  let likely_needs_glue :=
    if is_schema_query || is_simple_query then false else likely_needs_glue in
  use_async || likely_needs_glue.

Section WithEnvironment.

Variable env : Env.

(** The composite prompt both services build. *)
Definition composite_prompt (user : User) (ip text : string) : string :=
  "User name: " +:+ name user +:+ nl
  +:+ "User IP: " +:+ ip +:+ nl
  +:+ "User prompt: " +:+ text.

(** [process_agent_request] (web_app.py): the status code, the JSON body
    of the response (a null field is left out), and the job of the
    background thread, if one is started.  [thread.start()] returns at
    once and the function touches nothing after it, so the state it leaves
    is the state in which the thread makes its first step; the thread
    itself is [run_job]. *)
Definition process_agent_request (req : agent_request)
  : M (Z * gmap string string * option background_job) :=
  try_except
    (let* user := get_user_from_token env (authorization req) in
     match json req with
     | BodyRaises msg => raise (Error msg)
     | BodyWithoutText =>
         ret (400%Z, {[ "error" := "Missing 'text' field in request" ]}, None)
     | BodyWithText user_text websocket_url_field =>
         let prompt_text := composite_prompt user (client_ip req) user_text in
         let websocket_url :=
           if truthy_opt websocket_url_field then websocket_url_field
           else WEB_APP_NOTIFY_URL env in
         if is_simple_message user_text then
           let* response_text := prompt env user (PromptText prompt_text) websocket_url None in
           ret (200%Z,
                <["message" := "Response generated immediately"]>
                (<["processing_type" := "sync"]>
                (<["text" := response_text]> ∅)), None)
         else
           let* task_id := create_task_session env (id user) (name user) prompt_text in
           let body : gmap string string :=
             <["message" :=
                 "Your request is being processed. You'll receive updates in short."]>
             (<["processing_type" := "async"]>
             (<["status" := "STARTED"]>
             (<["task_id" := task_id]> ∅))) in
           ret (200%Z,
                match websocket_url with
                | Some url => <["websocket_url" := url]> body
                | None => body
                end,
                Some (mkJob task_id user prompt_text websocket_url))
     end)
    (λ e,
       match e with
       | ValueError msg => ret (401%Z, {[ "error" := msg ]}, None)
       | _ => ret (500%Z, {[ "error" := exn_str e ]}, None)
       end).

(** The body of the background thread [process_agent_request] starts:
    [process_agent_background] on what was handed over. *)
Definition run_job (job : background_job) : M unit :=
  process_agent_background env (job_task_id job) (job_user job) (job_prompt job)
    (job_websocket_url job).


End WithEnvironment.

End Routing.

(** ** Bucket addresses (src/lambdas/poller/poller.py, [parse_s3_uri]) *)

Module S3Uri.

(** [uri.replace("s3://", "")]: every occurrence, left to right. *)
Fixpoint remove_scheme (s : string) : string :=
  match s with
  | String "s" (String "3" (String ":" (String "/" (String "/" rest)))) =>
      remove_scheme rest
  | String c rest => String c (remove_scheme rest)
  | EmptyString => EmptyString
  end.

(** [s.split("/", 1)]: the part before the first slash, and the part
    after it when there is a slash. *)
Fixpoint split_first_slash (s : string) : string * option string :=
  match s with
  | EmptyString => (EmptyString, None)
  | String c rest =>
      if Ascii.eqb c "/"%char then (EmptyString, Some rest)
      else let '(bucket, key) := split_first_slash rest in (String c bucket, key)
  end.

(** [parse_s3_uri(uri)]: [(bucket, key)], or [None] when it raises
    [ValueError]. *)
Definition parse_s3_uri (uri : string) : option (string * string) :=
  if negb (String.prefix "s3://" uri) then None
  else
    let parts := split_first_slash (remove_scheme uri) in
    Some (parts.1, default "" parts.2).

End S3Uri.

(** ** Readings of a trace *)

Module Observations.
Import Service.

(** The durations of the sleeps of a trace, in order. *)
Fixpoint sleeps_of (tr : list event) : list Z :=
  match tr with
  | [] => []
  | EvSleep seconds :: tr' => seconds :: sleeps_of tr'
  | _ :: tr' => sleeps_of tr'
  end.

(** The number of HTTP posts of a trace. *)
Fixpoint post_count (tr : list event) : nat :=
  match tr with
  | [] => 0
  | EvPost _ _ _ :: tr' => S (post_count tr')
  | _ :: tr' => post_count tr'
  end.

(** The first [n] delays of the exponential backoff: 1, 2, 4, ... seconds. *)
Definition backoff_delays (n : nat) : list Z := (λ i, 2 ^ Z.of_nat i)%Z <$> seq 0 n.

(** The store afterwards differs from the store before at most under
    [key], and no record is created there. *)
Definition touches_only (key : string) (w w' : World) : Prop :=
  (∀ k, k ≠ key → s3 w' !! k = s3 w !! k) ∧
  (s3 w !! key = None → s3 w' !! key = None).

(** The cache afterwards differs from the cache before at most under [key]. *)
Definition cache_touched_only_at (key : string) (w w' : World) : Prop :=
  ∀ k, k ≠ key → completed_jobs_cache w' !! k = completed_jobs_cache w !! k.

(** The cache afterwards is the cache before, or the cache before without
    the entry under [key]. *)
Definition cache_shrinks_at (key : string) (w w' : World) : Prop :=
  completed_jobs_cache w' = completed_jobs_cache w ∨
  completed_jobs_cache w' = delete key (completed_jobs_cache w).

(** The task store is the same before and after. *)
Definition store_kept (w w' : World) : Prop := s3 w' = s3 w.

(** Nothing was written to the store between [w] and [w']: the store is
    as it was and the trace has gained no store write. *)
Definition nothing_written (w w' : World) : Prop :=
  s3 w' = s3 w ∧
  ∃ evs, trace w' = trace w ++ evs ∧ Forall (λ e, ¬ is_store_write e) evs.

(** Nothing is written when there is no record under [key]. *)
Definition unrecorded (key : string) (w w' : World) : Prop :=
  s3 w !! key = None → nothing_written w w'.

(** The first call of [prompt]'s [try] block that raises, with its
    message: the session manager, the tools, the agent creation, the agent
    call, in this order. *)
Definition first_failure (run : engine_run) : option string :=
  match session_manager run, mcp_tools run, agent_creation run, agent_call run with
  | Some msg, _, _, _ => Some msg
  | None, Some msg, _, _ => Some msg
  | None, None, Some msg, _ => Some msg
  | None, None, None, inr msg => Some msg
  | None, None, None, inl _ => None
  end.

(** What [prompt] returns for a run that does not raise before the [try]
    block: the response, or the failure turned into text. *)
Definition prompt_text_result (run : engine_run) : string :=
  match first_failure run with
  | Some msg => "Failed to process request: " +:+ msg
  | None => match agent_call run with inl text => text | inr _ => "" end
  end.

End Observations.

(** ** Readings of a poller trace *)

Module PollerObservations.
Import Poller.

Definition is_sleep (e : out_event) : bool :=
  match e with
  | Sleep _ => true
  | _ => false
  end.

Definition is_result (e : out_event) : bool :=
  match e with
  | Result _ _ _ => true
  | _ => false
  end.

(** The number of sleeps of a trace. *)
Definition sleep_count (tr : list out_event) : nat :=
  length (List.filter is_sleep tr).

(** The result events of a trace. *)
Definition result_events (tr : list out_event) : list out_event :=
  List.filter is_result tr.

(** The poll counts of the progress events of a trace, in order. *)
Fixpoint progress_polls (tr : list out_event) : list nat :=
  match tr with
  | [] => []
  | Progress poll_count _ _ :: tr' => poll_count :: progress_polls tr'
  | _ :: tr' => progress_polls tr'
  end.

(** The multiples of three among the poll numbers [first], ...,
    [first + len - 1]. *)
Definition third_polls (first len : nat) : list nat :=
  List.filter (λ n, (n mod 3 =? 0)%nat) (seq first len).

End PollerObservations.

(** ** More concrete environments *)

Module MoreFixtures.
Import Fixtures.

(** An engine run whose agent call raises. *)
Definition failing_call (msg : string) : Service.engine_run :=
  Service.mkEngineRun None None None None (inr msg).

(** A request for the agent endpoint that is no simple message. *)
Definition data_request : Routing.agent_request :=
  Routing.mkAgentRequest (Some "Bearer token")
    (Routing.BodyWithText "select count(*) from orders" None) "10.0.0.1".

(** A job service that throttles every read: the client error the loop
    catches, with the clock of [unreachable_env]. *)
Definition throttled_env : Poller.Env :=
  Poller.mkEnv (λ _, Poller.ClientError "ThrottlingException")
    (λ i, Z.of_nat (S i) * 2 * hour)%Z (λ _, "120.0") (λ _, (None, None)).

(** A job that is seen FAILED at the first read, by a poller whose clock
    is past the ceiling of [poller_cfg] already. *)
Definition overdue_env : Poller.Env :=
  Poller.mkEnv (λ _, Poller.JobRunState "FAILED") (λ _, 2 * hour)%Z (λ _, "120.0")
    (λ _, (None, None)).

End MoreFixtures.

(** * Properties *)

(** ** Python helpers *)

Lemma truthy_true (s : string) : truthy s = true ↔ s ≠ "".
Proof. destruct s; simpl; split; congruence. Qed.

Lemma truthy_false (s : string) : truthy s = false ↔ s = "".
Proof. destruct s; simpl; split; congruence. Qed.

Example lower_example : lower "Alice_01" = "alice_01".
Proof. reflexivity. Qed.

Example contains_example :
  contains "status" "what is the status?" = true ∧ contains "done" "do it" = false.
Proof. split; reflexivity. Qed.

Example replace_Z_example : replace_Z "2024-01-01T00:00:00Z" = "2024-01-01T00:00:00+00:00".
Proof. reflexivity. Qed.

(** ** Theorems: connection registry *)

Module RegistryFacts.
Import Registry.

Lemma lookup_register (r : registry) (c u : string) :
  u ≠ "" → lookup (register c u r) u = Some c.
Proof.
  intros Hu. unfold register, handle_message, lookup. simpl.
  apply truthy_true in Hu. rewrite Hu. simpl.
  apply lookup_insert_eq.
Qed.

Lemma connections_register (r : registry) (c u : string) :
  u ≠ "" → connections_get (register c u r) c = Some u.
Proof.
  intros Hu. unfold register, handle_message, connections_get. simpl.
  apply truthy_true in Hu. rewrite Hu. simpl.
  by rewrite lookup_insert_eq.
Qed.

Lemma connections_register_ne (r : registry) (c c' u : string) :
  c ≠ c' → connections_get (register c u r) c' = connections_get r c'.
Proof.
  intros Hc. unfold register, handle_message, connections_get. simpl.
  destruct (truthy u); simpl; [ | done ].
  by rewrite lookup_insert_ne.
Qed.

(** What [handle_disconnect] does to the reverse index, for every user. *)
Lemma lookup_handle_disconnect (r : registry) (c u : string) :
  lookup (handle_disconnect c r) u =
    if bool_decide (connections_get r c = Some u) && truthy u
    then None else lookup r u.
Proof.
  unfold handle_disconnect, lookup. simpl.
  destruct (connections_get r c) as [v|] eqn:Hget.
  - destruct (decide (v = u)) as [->|Hne].
    + rewrite (bool_decide_eq_true_2 (Some u = Some u)) by done. simpl.
      destruct (truthy u); simpl; [ | done ].
      case_bool_decide as Hin.
      * apply lookup_delete_eq.
      * by apply eq_None_not_Some in Hin.
    + rewrite (bool_decide_eq_false_2 (Some v = Some u)) by congruence. simpl.
      destruct (truthy v && bool_decide (is_Some (user_connections r !! v))); [ | done ].
      by apply lookup_delete_ne.
  - rewrite (bool_decide_eq_false_2 (None = Some u)) by congruence. done.
Qed.

(** After a user is bound to channel [a] and then to channel [b], the
    lookup returns [b]; closing [a] afterwards removes the user's reverse
    mapping whichever channel it points at, and no other user's. *)
Lemma handle_disconnect_after_supersede (r : registry) (a b u : string) :
  u ≠ "" →
  let r1 := register b u (register a u r) in
  lookup r1 u = Some b ∧
  lookup (handle_disconnect a r1) u = None ∧
  (∀ v, v ≠ u → lookup (handle_disconnect a r1) v = lookup r1 v).
Proof.
  intros Hu r1.
  assert (Hget : connections_get r1 a = Some u).
  { subst r1. destruct (decide (b = a)) as [->|Hne].
    - by apply connections_register.
    - rewrite connections_register_ne by done. by apply connections_register. }
  split; [ by apply lookup_register | ].
  split.
  - rewrite lookup_handle_disconnect, Hget.
    rewrite (bool_decide_eq_true_2 (Some u = Some u)) by done.
    apply truthy_true in Hu. by rewrite Hu.
  - intros v Hv. rewrite lookup_handle_disconnect, Hget.
    rewrite (bool_decide_eq_false_2 (Some u = Some v)) by congruence. done.
Qed.

(** The connection manager of the web application never touches the
    reverse index when a channel closes. *)
Lemma close_channel_keeps_lookup (m : ConnectionManager.manager) (session_id u : string) :
  ConnectionManager.lookup (ConnectionManager.close_channel session_id m) u
    = ConnectionManager.lookup m u.
Proof. reflexivity. Qed.

(** On the connection manager the scenario of C1 goes as the claim says:
    alice on A, then on B, then A closes, and alice still points at B. *)
Example connection_manager_keeps_newer_mapping :
  let m := ConnectionManager.auth "B" "alice"
             (ConnectionManager.open_channel "B"
                (ConnectionManager.auth "A" "alice"
                   (ConnectionManager.open_channel "A" ConnectionManager.empty))) in
  ConnectionManager.lookup m "alice" = Some "B" ∧
  ConnectionManager.lookup (ConnectionManager.close_channel "A" m) "alice" = Some "B".
Proof. split; reflexivity. Qed.

(** A failed send removes the user's mapping (channel handler), and
    the session it points at together with it (web application). *)
Lemma send_failure_removes_mapping (r : registry) (u : string) :
  lookup (send_notification_to_user u false r).2 u = None.
Proof.
  unfold send_notification_to_user.
  destruct (lookup r u) eqn:H; simpl; [ apply lookup_delete_eq | done ].
Qed.

Lemma send_to_user_failure_removes_mapping (m : ConnectionManager.manager)
    (u session_id : string) :
  u ≠ "" →
  ConnectionManager.lookup m u = Some session_id →
  session_id ∈ ConnectionManager.active_connections m →
  let m' := (ConnectionManager.send_to_user u false m).2 in
  ConnectionManager.lookup m' u = None ∧
  session_id ∉ ConnectionManager.active_connections m'.
Proof.
  intros Hu Hl Hin. unfold ConnectionManager.send_to_user. rewrite Hl.
  rewrite bool_decide_eq_true_2 by done. simpl.
  unfold ConnectionManager.disconnect, ConnectionManager.lookup in *.
  apply truthy_true in Hu. rewrite Hu. simpl.
  rewrite bool_decide_eq_true_2 by (by eexists). simpl.
  split; [ apply lookup_delete_eq | ].
  rewrite elem_of_difference, elem_of_singleton. tauto.
Qed.

(** C1, the code at the failing input: in websocket_handler.py, after
    alice is bound to channel A and then to channel B the lookup returns B,
    but closing channel A then deletes alice's entry of the reverse index
    although it points at B, so the lookup of alice returns absent. *)
Theorem C1_unregister_drops_newer_mapping :
  let r0 := handle_connect "B" (register "A" "alice" (handle_connect "A" empty)) in
  let r1 := register "B" "alice" r0 in
  lookup r1 "alice" = Some "B" ∧
  connections_get (handle_disconnect "A" r1) "B" = Some "alice" ∧
  lookup (handle_disconnect "A" r1) "alice" = None.
Proof. repeat split. Qed.

End RegistryFacts.


(** ** The result cache *)

Module CacheFacts.
Import Service.

(** Unfolds the monad in a goal that runs cache operations. *)
Ltac run_cache :=
  unfold get_cached_job_results, is_cache_entry_expired, cache_put,
    bind, ret, get_world, set_cache, utcnow_; simpl.

Section Facts.

Variable env : Env.

Lemma format_cached_nonempty (job_data : gmap string string) :
  format_cached job_data ≠ "".
Proof. unfold format_cached, nl. simpl. discriminate. Qed.

Lemma get_absent (w : World) (username : string) :
  completed_jobs_cache w !! lower username = None →
  get_cached_job_results env username w = (Ok "", w).
Proof. intros H. run_cache. by rewrite H. Qed.

(** The three ways a read of an existing entry can go. *)
Lemma get_no_timestamp (w : World) (username : string) (job_data : gmap string string) :
  completed_jobs_cache w !! lower username = Some job_data →
  dict_get job_data "completion_time" "" = "" →
  get_cached_job_results env username w =
    (Ok "", mkWorld (s3 w) (delete (lower username) (completed_jobs_cache w))
                    (trace w) (ticks w) (posts w) (runs w) (uuids w)).
Proof. intros H Hs. run_cache. rewrite H. simpl. by rewrite Hs. Qed.

Lemma get_unparseable (w : World) (username : string) (job_data : gmap string string) :
  completed_jobs_cache w !! lower username = Some job_data →
  fromisoformat env (replace_Z (dict_get job_data "completion_time" "")) = None →
  get_cached_job_results env username w =
    (Ok "", mkWorld (s3 w) (delete (lower username) (completed_jobs_cache w))
                    (trace w) (ticks w) (posts w) (runs w) (uuids w)).
Proof.
  intros H Hp. run_cache. rewrite H. simpl.
  destruct (truthy _); simpl; [ | done ]. by rewrite Hp.
Qed.

Lemma get_parsed (w : World) (username : string) (job_data : gmap string string)
    (completion_time : Z) :
  completed_jobs_cache w !! lower username = Some job_data →
  dict_get job_data "completion_time" "" ≠ "" →
  fromisoformat env (replace_Z (dict_get job_data "completion_time" ""))
    = Some completion_time →
  get_cached_job_results env username w =
    if bool_decide (utcnow env (ticks w) - completion_time > ttl_microseconds env)%Z
    then (Ok "", mkWorld (s3 w) (delete (lower username) (completed_jobs_cache w))
                         (trace w) (S (ticks w)) (posts w) (runs w) (uuids w))
    else (Ok (format_cached job_data),
          mkWorld (s3 w) (completed_jobs_cache w)
                  (trace w) (S (ticks w)) (posts w) (runs w) (uuids w)).
Proof.
  intros H Hs Hp. run_cache. rewrite H. simpl.
  apply truthy_true in Hs. rewrite Hs, Hp. simpl.
  unfold ttl_microseconds.
  by case_bool_decide.
Qed.

(** C2: a read of an existing entry checks the age of the entry
    against the TTL first: an age above the TTL deletes the entry and
    returns absent (the empty string), an age within the TTL returns the
    cached value and keeps the entry; an entry whose completion
    timestamp is missing, empty or unparseable is deleted and absent is
    returned.  A read of a key without entry returns absent.  The cached
    value is returned as a text that is never the absent answer: a header
    line, then the job name, the status, the completion time and the
    results of the entry, each on a line of its own. *)
Theorem C2_cache_get_checks_ttl (w : World) (username : string) :
  let out := get_cached_job_results env username w in
  let key := lower username in
  (completed_jobs_cache w !! key = None → out = (Ok "", w)) ∧
  (∀ job_data, completed_jobs_cache w !! key = Some job_data →
     let stamp := dict_get job_data "completion_time" "" in
     ((job_data !! "completion_time" = None ∨ stamp = "" ∨
       fromisoformat env (replace_Z stamp) = None) →
        out.1 = Ok "" ∧
        completed_jobs_cache out.2 = delete key (completed_jobs_cache w)) ∧
     (∀ completion_time,
        stamp ≠ "" →
        fromisoformat env (replace_Z stamp) = Some completion_time →
        let age := (utcnow env (ticks w) - completion_time)%Z in
        ((age > ttl_microseconds env)%Z →
           out.1 = Ok "" ∧
           completed_jobs_cache out.2 = delete key (completed_jobs_cache w)) ∧
        ((age ≤ ttl_microseconds env)%Z →
           out.1 =
             Ok (nl +:+ "CACHED JOB RESULTS AVAILABLE:" +:+ nl
                 +:+ "- Job: " +:+ dict_get job_data "job_name" "unknown" +:+ nl
                 +:+ "- Status: " +:+ dict_get job_data "status" "UNKNOWN" +:+ nl
                 +:+ "- Completed: " +:+ dict_get job_data "completion_time" "unknown"
                 +:+ nl
                 +:+ "- Results: "
                 +:+ dict_get job_data "results" "No results available" +:+ nl) ∧
           out.1 ≠ Ok "" ∧
           completed_jobs_cache out.2 = completed_jobs_cache w))).
Proof.
  intros out key. split.
  { intros H. by apply get_absent. }
  intros job_data H stamp. split.
  - intros [Hnone | [Hempty | Hparse]].
    + subst out. rewrite (get_no_timestamp w username job_data); [ done | done | ].
      unfold dict_get. by rewrite Hnone.
    + subst out. by rewrite (get_no_timestamp w username job_data).
    + subst out. by rewrite (get_unparseable w username job_data).
  - intros completion_time Hs Hp age. subst out.
    rewrite (get_parsed w username job_data completion_time) by done.
    split; intros Hage.
    + rewrite bool_decide_eq_true_2 by done. done.
    + rewrite bool_decide_eq_false_2 by (subst age; lia).
      split; [ reflexivity | ]. split; [ | done ].
      intros Hempty. cbn [fst] in Hempty.
      apply (format_cached_nonempty job_data). congruence.
Qed.

Lemma completion_time_of_entry (ev : gmap string string) (text : string) (now : Z) :
  dict_get (job_result_data env ev text now) "completion_time" "" = isoformat env now.
Proof. reflexivity. Qed.

Lemma results_of_entry (ev : gmap string string) (text : string) (now : Z) :
  dict_get (job_result_data env ev text now) "results" "No results available" = text.
Proof. reflexivity. Qed.

Lemma cache_put_world (w : World) (user : User) (ev : gmap string string) (text : string) :
  cache_put env user ev text w =
    (Ok tt,
     mkWorld (s3 w)
       (<[lower (name user) := job_result_data env ev text (utcnow env (ticks w))]>
          (completed_jobs_cache w))
       (trace w) (S (ticks w)) (posts w) (runs w) (uuids w)).
Proof. reflexivity. Qed.

(** C7: the cache write stores the new entry under the lower-cased
    username whatever was stored there before; a later read under any
    casing of that username, made while the age of the new entry is
    within the TTL, returns the new entry, also when the old entry had
    expired before the write: the text returned names the job and the
    status of the event that was put, the instant of the put as completion
    time, and the result that was put as results. *)
Theorem C7_put_overwrites_case_normalized (w w_later : World) (user : User)
    (ev : gmap string string) (text username : string) :
  let t_put := utcnow env (ticks w) in
  let entry := job_result_data env ev text t_put in
  let w1 := (cache_put env user ev text w).2 in
  lower username = lower (name user) →
  isoformat env t_put ≠ "" →
  fromisoformat env (replace_Z (isoformat env t_put)) = Some t_put →
  completed_jobs_cache w_later = completed_jobs_cache w1 →
  (utcnow env (ticks w_later) - t_put ≤ ttl_microseconds env)%Z →
  completed_jobs_cache w1 !! lower username = Some entry ∧
  dict_get entry "results" "No results available" = text ∧
  (get_cached_job_results env username w_later).1 =
    Ok (nl +:+ "CACHED JOB RESULTS AVAILABLE:" +:+ nl
        +:+ "- Job: " +:+ dict_get ev "glue_job_name" "unknown" +:+ nl
        +:+ "- Status: " +:+ dict_get ev "status" "UNKNOWN" +:+ nl
        +:+ "- Completed: " +:+ isoformat env t_put +:+ nl
        +:+ "- Results: " +:+ text +:+ nl) ∧
  (get_cached_job_results env username w_later).1 ≠ Ok "".
Proof.
  intros t_put entry w1 Hcase Hiso Hround Hlater Hage.
  assert (Hw1 : completed_jobs_cache w1 !! lower username = Some entry).
  { subst w1. rewrite cache_put_world. simpl. rewrite Hcase.
    apply lookup_insert_eq. }
  split; [ done | ]. split; [ apply results_of_entry | ].
  assert (Hget : (get_cached_job_results env username w_later).1 =
                 Ok (format_cached entry)); [ | split ].
  2: { rewrite Hget. reflexivity. }
  2: { rewrite Hget. intros Hempty. apply (format_cached_nonempty entry). congruence. }
  rewrite (get_parsed w_later username entry t_put).
  - rewrite bool_decide_eq_false_2 by lia. done.
  - by rewrite Hlater.
  - subst entry. by rewrite completion_time_of_entry.
  - subst entry. by rewrite completion_time_of_entry.
Qed.

End Facts.

End CacheFacts.

(** ** The task store and the background task *)

Module ServiceFacts.
Import Service.

Lemma always_ret {A} (R : World → World → Prop) `{!Reflexive R} (a : A) :
  always R (ret a).
Proof. intros w. simpl. reflexivity. Qed.

Lemma always_raise {A} (R : World → World → Prop) `{!Reflexive R} (e : exn) :
  always R (@raise A e).
Proof. intros w. simpl. reflexivity. Qed.

Lemma always_bind {A B} (R : World → World → Prop) `{!Transitive R}
    (m : M A) (f : A → M B) :
  always R m → (∀ a, always R (f a)) → always R (bind m f).
Proof.
  intros Hm Hf w. unfold bind. specialize (Hm w).
  destruct (m w) as [[a|e] w']; simpl in *; [ | done ].
  etrans; [ exact Hm | apply Hf ].
Qed.

Lemma always_try_except {A} (R : World → World → Prop) `{!Transitive R}
    (m : M A) (h : exn → M A) :
  always R m → (∀ e, always R (h e)) → always R (try_except m h).
Proof.
  intros Hm Hh w. unfold try_except. specialize (Hm w).
  destruct (m w) as [[a|e] w']; simpl in *; [ done | ].
  etrans; [ exact Hm | apply Hh ].
Qed.

Lemma always_bind_post {A B} (R : World → World → Prop) `{!Transitive R}
    (Q : A → Prop) (m : M A) (f : A → M B) :
  always R m → (∀ w a, (m w).1 = Ok a → Q a) → (∀ a, Q a → always R (f a)) →
  always R (bind m f).
Proof.
  intros Hm HQ Hf w. unfold bind. specialize (Hm w). specialize (HQ w).
  destruct (m w) as [[a|e] w']; simpl in *; [ | done ].
  etrans; [ exact Hm | by apply Hf, HQ ].
Qed.

Section Facts.

Variable env : Env.

#[local] Instance same_identity_refl : Reflexive same_identity.
Proof. by intros d field _. Qed.

#[local] Instance same_identity_trans : Transitive same_identity.
Proof. intros d1 d2 d3 H12 H23 field Hf. rewrite H23, H12; done. Qed.

Lemma session_update_identity (d : gmap string string) (status message stamp : string) :
  same_identity d (session_update d status message stamp).
Proof.
  intros field Hf. unfold session_update, updated_fields in *.
  rewrite !elem_of_cons, elem_of_nil in Hf.
  rewrite !lookup_insert_ne; [ done | | | ]; intros <-; apply Hf; tauto.
Qed.

Lemma session_update_status (d : gmap string string) (status message stamp : string) :
  session_update d status message stamp !! "status" = Some status.
Proof.
  unfold session_update.
  rewrite lookup_insert_ne by done. rewrite lookup_insert_ne by done.
  apply lookup_insert_eq.
Qed.

Lemma session_update_progress (d : gmap string string) (status message stamp : string) :
  session_update d status message stamp !! "progress" = Some message.
Proof.
  unfold session_update. rewrite lookup_insert_ne by done.
  apply lookup_insert_eq.
Qed.

Lemma update_task_progress_found (w : World) (task_id status message : string)
    (d : gmap string string) :
  s3 w !! task_key task_id = Some d →
  let d' := session_update d status message (isoformat env (utcnow env (ticks w))) in
  update_task_progress env task_id status message w =
    (Ok tt, mkWorld (<[task_key task_id := d']> (s3 w)) (completed_jobs_cache w)
                    (trace w ++ [EvPutObject (task_key task_id) d'])
                    (S (ticks w)) (posts w) (runs w) (uuids w)).
Proof.
  intros H d'. unfold update_task_progress, try_except, bind, s3_get_object.
  rewrite H. reflexivity.
Qed.

Lemma update_task_progress_missing (w : World) (task_id status message : string) :
  s3 w !! task_key task_id = None →
  update_task_progress env task_id status message w = (Ok tt, w).
Proof.
  intros H. unfold update_task_progress, try_except, bind, s3_get_object.
  rewrite H. reflexivity.
Qed.

Lemma update_task_progress_total (task_id status message : string) :
  total (update_task_progress env task_id status message).
Proof.
  intros w. exists tt. destruct (s3 w !! task_key task_id) as [d|] eqn:H.
  - by rewrite (update_task_progress_found w _ _ _ d).
  - by rewrite update_task_progress_missing.
Qed.

#[local] Instance progress_only_refl key : Reflexive (progress_only key).
Proof.
  intros w. split.
  - intros d Hd. exists d. split; [ done | reflexivity ].
  - exists []. split; [ by rewrite app_nil_r | constructor ].
Qed.

#[local] Instance progress_only_trans key : Transitive (progress_only key).
Proof.
  intros w1 w2 w3 [Hs12 [e12 [Ht12 Hf12]]] [Hs23 [e23 [Ht23 Hf23]]]. split.
  - intros d Hd. destruct (Hs12 d Hd) as [d2 [Hd2 Hi2]].
    destruct (Hs23 d2 Hd2) as [d3 [Hd3 Hi3]].
    exists d3. split; [ done | by etrans ].
  - exists (e12 ++ e23). split.
    + by rewrite Ht23, Ht12, app_assoc.
    + by apply Forall_app.
Qed.

Lemma progress_only_silent (key : string) (w w' : World) :
  s3 w' = s3 w → trace w' = trace w → progress_only key w w'.
Proof.
  intros Hs Ht. split.
  - intros d Hd. exists d. rewrite Hs. split; [ done | reflexivity ].
  - exists []. rewrite Ht, app_nil_r. split; [ done | constructor ].
Qed.

Lemma progress_only_update (task_id message : string) :
  always (progress_only (task_key task_id))
         (update_task_progress env task_id "PROCESSING" message).
Proof.
  intros w. destruct (s3 w !! task_key task_id) as [d|] eqn:H.
  - rewrite (update_task_progress_found w _ _ _ d) by done. simpl. split.
    + intros d0 Hd0. assert (d0 = d) as -> by congruence.
      eexists. split; [ apply lookup_insert_eq | apply session_update_identity ].
    + eexists. split; [ reflexivity | ].
      constructor; [ | constructor ]. split; [ done | apply session_update_status ].
  - rewrite update_task_progress_missing by done. simpl. reflexivity.
Qed.

Lemma progress_only_update_from_agent (task_id message : string) :
  always (progress_only (task_key task_id))
         (update_task_progress_from_agent env (Some task_id) "PROCESSING" message).
Proof.
  unfold update_task_progress_from_agent. simpl.
  destruct (truthy task_id); simpl.
  - apply progress_only_update.
  - apply always_ret, _.
Qed.

Lemma progress_only_get_cached (key username : string) :
  always (progress_only key) (get_cached_job_results env username).
Proof.
  intros w. apply progress_only_silent;
    unfold get_cached_job_results, is_cache_entry_expired, bind, ret,
      get_world, set_cache, utcnow_; simpl;
    destruct (completed_jobs_cache w !! lower username) as [jd|]; simpl; try done;
    destruct (truthy (dict_get jd "completion_time" "")); simpl; try done;
    destruct (fromisoformat env _); simpl; try done;
    case_bool_decide; done.
Qed.

Lemma progress_only_external_call (key : string) (failure : option string) :
  always (progress_only key) (external_call failure).
Proof. destruct failure; simpl; [ apply always_raise, _ | apply always_ret, _ ]. Qed.

Lemma progress_only_engine (key : string) :
  always (progress_only key) (engine_ env).
Proof. intros w. by apply progress_only_silent. Qed.

Lemma progress_only_agent_call (key prompt_text : string) :
  always (progress_only key) (emit (EvAgentCall prompt_text)).
Proof.
  intros w. simpl. split.
  - intros d Hd. exists d. split; [ done | reflexivity ].
  - eexists. split; [ reflexivity | ]. constructor; [ done | constructor ].
Qed.

(** The prologue keeps a text prompt a text prompt. *)
Lemma inject_cached_results_text (user : User) (text : string) (w : World) :
  ∃ text', (inject_cached_results env user (PromptText text) w).1 = Ok (PromptText text').
Proof.
  unfold inject_cached_results, bind.
  destruct (any_keyword_in _ _); [ | by eexists ].
  destruct (get_cached_job_results env (name user) w) as [[cached|e] w'] eqn:E.
  - destruct (truthy cached); by eexists.
  - exfalso. revert E.
    unfold get_cached_job_results, is_cache_entry_expired, bind, ret,
      get_world, set_cache, utcnow_; simpl.
    destruct (completed_jobs_cache w !! lower (name user)) as [jd|]; simpl; try done.
    destruct (truthy (dict_get jd "completion_time" "")); simpl; try done.
    destruct (fromisoformat env _); simpl; try done.
    case_bool_decide; done.
Qed.

Lemma progress_only_inject (key : string) (user : User) (p : prompt_input) :
  always (progress_only key) (inject_cached_results env user p).
Proof.
  unfold inject_cached_results. destruct p as [text|ev]; [ | apply always_ret, _ ].
  destruct (any_keyword_in _ _); [ | apply always_ret, _ ].
  apply always_bind; [ apply _ | apply progress_only_get_cached | ].
  intros cached. destruct (truthy cached); apply always_ret, _.
Qed.

(** The steps of [prompt] after the prologue, for a text prompt. *)
Lemma progress_only_prompt_text (user : User) (text task_id : string)
    (websocket_url : option string) :
  always (progress_only (task_key task_id))
         (prompt env user (PromptText text) websocket_url (Some task_id)).
Proof.
  unfold prompt. set (key := task_key task_id).
  apply always_bind; [ apply _ | apply progress_only_engine | intros run ].
  apply always_bind; [ apply _ | apply progress_only_external_call | intros _ ].
  apply (always_bind_post _ (λ p, ∃ text', p = PromptText text'));
    [ apply progress_only_inject | | ].
  { intros w p Hp. destruct (inject_cached_results_text user text w) as [text' Ht].
    exists text'. congruence. }
  intros p [text' ->]. simpl.
  apply always_try_except; [ apply _ | | intros; apply always_ret, _ ].
  repeat (first
    [ apply progress_only_update_from_agent
    | apply progress_only_external_call
    | apply progress_only_agent_call
    | apply always_ret, _
    | apply always_raise, _
    | apply always_bind; [ apply _ | | intros ? ] ]).
  destruct (agent_call run); [ apply always_ret, _ | apply always_raise, _ ].
Qed.

(** One attempt of the single-shot sender: it never raises, leaves the
    store alone and posts at most once, to the given URL. *)
Lemma send_websocket_notification_effect (w : World) (username message : string)
    (websocket_url : option string) :
  ∃ b w', send_websocket_notification env username message websocket_url w = (Ok b, w') ∧
    s3 w' = s3 w ∧ completed_jobs_cache w' = completed_jobs_cache w ∧
    (trace w' = trace w ∨
     ∃ url, websocket_url = Some url ∧
            trace w' = trace w ++ [EvPost url username message]).
Proof.
  unfold send_websocket_notification.
  destruct (truthy_opt websocket_url) eqn:Hurl; simpl.
  2: { exists false, w. repeat split. by left. }
  destruct websocket_url as [url|]; [ | done ]. simpl.
  destruct (contains "localhost" url || contains "127.0.0.1" url).
  { exists true, w. repeat split. by left. }
  unfold try_except, bind, requests_post.
  destruct (http env (posts w)) as [code|msg]; simpl.
  - case_bool_decide; eexists _, _; (split; [ reflexivity | ]); simpl;
      repeat split; right; by exists url.
  - eexists _, _. split; [ reflexivity | ]. simpl. repeat split. right. by exists url.
Qed.

(** The terminal write followed by the notification, from a world that is
    a processing-only extension of the start. *)
Lemma terminal_write_then_notify (w w2 : World) (task_id status message : string)
    (user : User) (websocket_url : option string) (d0 : gmap string string) :
  s3 w !! task_key task_id = Some d0 →
  progress_only (task_key task_id) w w2 →
  ∃ w3 b w',
    update_task_progress env task_id status message w2 = (Ok tt, w3) ∧
    send_websocket_notification env (name user) message websocket_url w3 = (Ok b, w') ∧
    background_shape w w' task_id user websocket_url d0 status message.
Proof.
  intros Hd0 [Hstore [evs [Htr Hevs]]].
  destruct (Hstore d0 Hd0) as [d2 [Hd2 Hid2]].
  rewrite (update_task_progress_found w2 _ _ _ d2) by done.
  set (d_term := session_update d2 status message _).
  set (w3 := mkWorld _ _ _ _ _ _ _).
  destruct (send_websocket_notification_effect w3 (name user) message websocket_url)
    as [b [w' [Hsend [Hs3 [_ Hpost]]]]].
  exists w3, b, w'. split; [ done | ]. split; [ done | ].
  assert (Htr3 : trace w3 = trace w ++ evs ++ [EvPutObject (task_key task_id) d_term]).
  { subst w3. simpl. by rewrite Htr, <- app_assoc. }
  assert (Hrec : s3 w' !! task_key task_id = Some d_term).
  { rewrite Hs3. subst w3. simpl. apply lookup_insert_eq. }
  assert (Hid : same_identity d0 d_term).
  { etrans; [ exact Hid2 | apply session_update_identity ]. }
  destruct Hpost as [Hsame | [url [Hurl Hposted]]].
  - exists evs, d_term, [].
    rewrite Hsame, Htr3, app_nil_r.
    repeat split; try done.
    + apply session_update_status.
    + apply session_update_progress.
    + by left.
  - exists evs, d_term, [EvPost url (name user) message].
    rewrite Hposted, Htr3, <- !app_assoc.
    repeat split; try done.
    + apply session_update_status.
    + apply session_update_progress.
    + right. by exists url.
Qed.

(** The update of a task in progress followed by the run of [prompt]. *)
Lemma processing_prefix (w : World) (task_id : string) (user : User) (text : string)
    (websocket_url : option string) :
  ∃ w1 r w2,
    update_task_progress env task_id "PROCESSING"
      "Agent is analyzing your request..." w = (Ok tt, w1) ∧
    prompt env user (PromptText text) websocket_url (Some task_id) w1 = (r, w2) ∧
    progress_only (task_key task_id) w w2.
Proof.
  pose proof (progress_only_update task_id "Agent is analyzing your request..." w) as H1.
  destruct (update_task_progress_total task_id "PROCESSING"
              "Agent is analyzing your request..." w) as [[] Hu].
  destruct (update_task_progress env task_id "PROCESSING"
              "Agent is analyzing your request..." w) as [r1 w1].
  simpl in *. subst r1.
  pose proof (progress_only_prompt_text user text task_id websocket_url w1) as H2.
  destruct (prompt env user (PromptText text) websocket_url (Some task_id) w1)
    as [r w2] eqn:E.
  exists w1, r, w2. split; [ done | ]. split; [ done | ].
  simpl in H2. by etrans.
Qed.

Lemma process_agent_background_shape (w : World) (task_id : string) (user : User)
    (text : string) (websocket_url : option string) (d0 : gmap string string) :
  s3 w !! task_key task_id = Some d0 →
  let rec := terminal_record (prompt_outcome env w task_id user text websocket_url) in
  ∃ w', process_agent_background env task_id user text websocket_url w = (Ok tt, w') ∧
        background_shape w w' task_id user websocket_url d0 rec.1 rec.2.
Proof.
  intros Hd0. cbv zeta. unfold prompt_outcome.
  destruct (processing_prefix w task_id user text websocket_url)
    as (w1 & r & w2 & Hu & Hp & Hprog).
  unfold process_agent_background, try_except, bind, ret.
  rewrite Hu. simpl. rewrite Hp. simpl.
  destruct r as [response_text|e]; simpl.
  - destruct (terminal_write_then_notify w w2 task_id "COMPLETED" response_text
                user websocket_url d0 Hd0 Hprog) as (w3 & b & w' & Hw & Hs & Hshape).
    rewrite Hw, Hs. by exists w'.
  - destruct (terminal_write_then_notify w w2 task_id "FAILED"
                ("Processing failed: " +:+ exn_str e)
                user websocket_url d0 Hd0 Hprog) as (w3 & b & w' & Hw & Hs & Hshape).
    rewrite Hw, Hs. by exists w'.
Qed.


Lemma terminal_record_status (r : result string) :
  terminal_status (terminal_record r).1.
Proof. destruct r; [ by left | by right ]. Qed.



Lemma same_identity_fields (d d' : gmap string string) :
  same_identity d d' → ∀ field, field ∈ identity_fields → d' !! field = d !! field.
Proof.
  intros Hid field Hf. apply Hid. unfold identity_fields in Hf. unfold updated_fields.
  rewrite !elem_of_cons, elem_of_nil in Hf. rewrite !elem_of_cons, elem_of_nil.
  intros Hu.
  destruct Hf as [->|[->|[->|[->|[->|[]]]]]]; destruct Hu as [?|[?|[?|[]]]]; discriminate.
Qed.

(** C8: an update of an existing record sets status and progress and
    leaves created_at, task_id, user_id, username and prompt (every field
    but status, progress and updated_at) as they were; a background task
    writes PROCESSING until its one terminal write, whose status is
    COMPLETED or FAILED, writes nothing to the store afterwards, and the
    stored record then has that status and the identity fields it had at
    the start. *)
Theorem C8_update_frame_and_terminal_status (w : World) (task_id : string)
    (d0 : gmap string string) :
  s3 w !! task_key task_id = Some d0 →
  (∀ status message,
     ∃ d', s3 (update_task_progress env task_id status message w).2 !! task_key task_id
             = Some d' ∧
           d' !! "status" = Some status ∧
           d' !! "progress" = Some message ∧
           same_identity d0 d' ∧
           (∀ field, field ∈ identity_fields → d' !! field = d0 !! field)) ∧
  (∀ user text websocket_url,
     ∃ evs_pre d_term evs_post status,
       trace (process_agent_background env task_id user text websocket_url w).2
         = trace w ++ evs_pre ++ [EvPutObject (task_key task_id) d_term] ++ evs_post ∧
       Forall (processing_event (task_key task_id)) evs_pre ∧
       d_term !! "status" = Some status ∧
       terminal_status status ∧
       Forall (λ e, ¬ is_store_write e) evs_post ∧
       s3 (process_agent_background env task_id user text websocket_url w).2
         !! task_key task_id = Some d_term ∧
       (∀ field, field ∈ identity_fields → d_term !! field = d0 !! field)).
Proof.
  intros Hd0. split.
  - intros status message.
    rewrite (update_task_progress_found w _ _ _ d0) by done. simpl.
    eexists. split; [ apply lookup_insert_eq | ].
    split; [ apply session_update_status | ].
    split; [ apply session_update_progress | ].
    split; [ apply session_update_identity | ].
    apply same_identity_fields, session_update_identity.
  - intros user text websocket_url.
    destruct (process_agent_background_shape w task_id user text websocket_url d0 Hd0)
      as (w' & Hrun & pre & d_term & post & Htr & Hpre & Hst & Hmsg & Hid & Hrec & Hpost).
    rewrite Hrun. simpl.
    exists pre, d_term, post, (terminal_record (prompt_outcome env w task_id user text websocket_url)).1.
    repeat split; try done.
    + apply terminal_record_status.
    + destruct Hpost as [-> | [url [_ ->]]]; [ constructor | ].
      constructor; [ by intros [] | constructor ].
    + by apply same_identity_fields.
Qed.

(** *** The retrying dispatcher *)

(** One attempt of the loop: a post, acknowledged or not. *)
Lemma retry_attempt (w : World) (username message url : string) :
  try_except
    (let* status_code := requests_post env url username message in
     ret (bool_decide (status_code = 200%Z)))
    (λ _, ret false) w
  = (Ok (acknowledges (http env (posts w))), posted w url username message).
Proof.
  unfold try_except, bind, requests_post, posted, acknowledges.
  by destruct (http env (posts w)).
Qed.

Lemma retry_attempts_cons (w : World) (username message url : string)
    (max_retries attempt : Z) (rest : list Z) :
  retry_attempts env username message url max_retries (attempt :: rest) w =
    if acknowledges (http env (posts w)) then (Ok true, posted w url username message)
    else retry_attempts env username message url max_retries rest
           (if bool_decide (attempt < max_retries - 1)%Z
            then slept (posted w url username message) (2 ^ attempt)
            else posted w url username message).
Proof.
  simpl. unfold bind at 1. rewrite retry_attempt.
  destruct (acknowledges (http env (posts w))); [ done | ].
  unfold bind. by case_bool_decide.
Qed.



(** *** The task-status endpoint *)

Lemma get_user_from_token_world (auth_header : option string) (w : World) :
  (get_user_from_token env auth_header w).2 = w.
Proof.
  unfold get_user_from_token.
  destruct (negb (truthy_opt auth_header) || _); [ done | ].
  destruct (negb (jwks_client env)); [ done | ].
  by destruct (jwt_decode env _).
Qed.

Lemma get_user_from_token_raises (auth_header : option string) (w : World) (e : exn) :
  (get_user_from_token env auth_header w).1 = Raised e → ∃ msg, e = ValueError msg.
Proof.
  unfold get_user_from_token.
  destruct (negb (truthy_opt auth_header) || _); simpl.
  { intros [= <-]. by eexists. }
  destruct (negb (jwks_client env)); [ done | ].
  destruct (jwt_decode env _); simpl; [ | done ].
  intros [= <-]. by eexists.
Qed.

(** A request whose token is refused is answered 401 whatever the store holds. *)
Lemma get_task_status_unauthenticated (w : World) (auth_header : option string)
    (task_id : string) (e : exn) :
  (get_user_from_token env auth_header w).1 = Raised e →
  ∃ msg, get_task_status env auth_header task_id w = (Ok (401%Z, {[ "error" := msg ]}), w).
Proof.
  intros Hauth. destruct (get_user_from_token_raises _ _ _ Hauth) as [msg ->].
  pose proof (get_user_from_token_world auth_header w) as Hw.
  exists msg. unfold get_task_status, try_except, bind.
  destruct (get_user_from_token env auth_header w) as [r w']. simpl in *.
  by subst.
Qed.

(** C10: for an authenticated requester, the endpoint answers 200 with the
    stored record exactly when the record's user_id is the requester's id;
    for a record of another user it answers 403 with the fixed
    access-denied body (no field of the record); for a task id without a
    record it answers 404.  The world is not changed. *)
Theorem C10_task_status_enforces_ownership (w : World) (auth_header : option string)
    (task_id : string) (user : User) :
  (get_user_from_token env auth_header w).1 = Ok user →
  let out := get_task_status env auth_header task_id w in
  out.2 = w ∧
  (s3 w !! task_key task_id = None →
     out.1 = Ok (404%Z, {[ "error" := "Task not found" ]})) ∧
  (∀ session_data, s3 w !! task_key task_id = Some session_data →
     (session_data !! "user_id" = Some (id user) →
        out.1 = Ok (200%Z, session_data)) ∧
     (session_data !! "user_id" ≠ Some (id user) →
        out.1 = Ok (403%Z, {[ "error" := "Access denied" ]}))).
Proof.
  intros Hauth out. subst out.
  pose proof (get_user_from_token_world auth_header w) as Hw.
  unfold get_task_status, try_except, bind, s3_get_object.
  destruct (get_user_from_token env auth_header w) as [r w']. simpl in *. subst.
  destruct (s3 w !! task_key task_id) as [d|] eqn:Hd.
  - case_bool_decide as Hne; simpl.
    + split; [ done | ]. split; [ done | ].
      intros ? [= <-]. split; [ done | done ].
    + split; [ done | ]. split; [ done | ].
      intros ? [= <-]. split; [ done | ]. intros Hne'. by destruct Hne.
  - simpl. split; [ done | ]. split; [ done | ]. intros ? [=].
Qed.

(** *** Completion events and the result cache *)

#[local] Instance cache_kept_refl : Reflexive cache_kept.
Proof. by intros w. Qed.

#[local] Instance cache_kept_trans : Transitive cache_kept.
Proof. intros w1 w2 w3 H12 H23. unfold cache_kept in *. congruence. Qed.

Lemma agent_send_websocket_notification_effect (w : World) (username message : string)
    (websocket_url : option string) :
  ∃ b w', agent_send_websocket_notification env username message websocket_url w
            = (Ok b, w') ∧
          s3 w' = s3 w ∧ completed_jobs_cache w' = completed_jobs_cache w.
Proof.
  unfold agent_send_websocket_notification, try_except, bind.
  destruct (truthy_opt (if negb (truthy_opt websocket_url) then _ else _)).
  - unfold requests_post. destruct (http env (posts w)); simpl.
    + case_bool_decide; by eexists _, _.
    + by eexists _, _.
  - simpl. by eexists _, _.
Qed.

(** [prompt] on a completion event that carries a push URL, when the
    reasoning engine responds. *)
Lemma glue_event_prompt (w : World) (user : User) (ev : gmap string string)
    (url text : string) :
  ev !! "type" = Some "glue_job_result" →
  url ≠ "" →
  engine env (runs w) = mkEngineRun None None None None (inl text) →
  let out := prompt env user (PromptEvent ev) (Some url) None w in
  out.1 = Ok text ∧
  completed_jobs_cache out.2 =
    <[lower (name user) := job_result_data env ev text (utcnow env (ticks w))]>
      (completed_jobs_cache w).
Proof.
  intros Htype Hurl Hrun out. subst out.
  apply truthy_true in Hurl.
  unfold prompt, try_except, bind, engine_, external_call,
    inject_cached_results, update_task_progress_from_agent, ret, emit. simpl.
  rewrite Hrun. simpl. rewrite Htype.
  rewrite (bool_decide_eq_true_2 _ eq_refl). rewrite Hurl. simpl.
  match goal with
  | |- context [agent_send_websocket_notification env ?u ?m ?o ?w0] =>
      destruct (agent_send_websocket_notification_effect w0 u m o)
        as (b & w' & Hsend & _ & Hcache)
  end.
  rewrite Hsend. simpl. split; [ done | ]. by rewrite Hcache.
Qed.

(** [prompt] on a completion event without a push URL: the cache is not
    written. *)
Lemma glue_event_prompt_without_url (user : User) (ev : gmap string string)
    (task_id : option string) :
  always cache_kept (prompt env user (PromptEvent ev) None task_id).
Proof.
  assert (Hupd : ∀ status message,
            always cache_kept (update_task_progress_from_agent env task_id status message)).
  { intros status message w. unfold update_task_progress_from_agent, cache_kept.
    destruct (negb (truthy_opt task_id)); [ done | ].
    destruct (s3 w !! task_key (default "" task_id)) as [d|] eqn:Hd.
    - by rewrite (update_task_progress_found w _ _ _ d).
    - by rewrite update_task_progress_missing. }
  assert (Hext : ∀ failure, always cache_kept (external_call failure)).
  { intros [msg|]; simpl; [ apply always_raise, _ | apply always_ret, _ ]. }
  unfold prompt. simpl.
  apply always_bind; [ apply _ | by intros w | intros run ].
  apply always_bind; [ apply _ | apply Hext | intros _ ].
  apply always_bind; [ apply _ | apply always_ret, _ | intros p ].
  apply always_try_except; [ apply _ | | intros; apply always_ret, _ ].
  repeat (first
    [ apply Hupd
    | apply Hext
    | apply always_ret, _
    | apply always_raise, _
    | by intros w
    | progress rewrite andb_false_r
    | apply always_bind; [ apply _ | | intros ? ] ]).
  destruct (agent_call run); [ apply always_ret, _ | apply always_raise, _ ].
Qed.

(** A status-style query finds a live cache entry: the prologue of
    [prompt] puts the cached results in front of the query. *)
Lemma status_query_finds_entry (w : World) (user : User) (query : string)
    (entry : gmap string string) (completion_time : Z) :
  any_keyword_in status_keywords (lower query) = true →
  completed_jobs_cache w !! lower (name user) = Some entry →
  dict_get entry "completion_time" "" ≠ "" →
  fromisoformat env (replace_Z (dict_get entry "completion_time" "")) = Some completion_time →
  (utcnow env (ticks w) - completion_time ≤ ttl_microseconds env)%Z →
  (inject_cached_results env user (PromptText query) w).1 =
    Ok (PromptText (format_cached entry +:+ nl +:+ nl +:+ "User Query: " +:+ query)).
Proof.
  intros Hkw Hentry Hstamp Hparse Hage.
  unfold inject_cached_results. rewrite Hkw. unfold bind.
  rewrite (CacheFacts.get_parsed env w (name user) entry completion_time) by done.
  rewrite bool_decide_eq_false_2 by lia.
  destruct (truthy (format_cached entry)) eqn:Ht; [ done | ].
  apply truthy_false in Ht. by destruct (CacheFacts.format_cached_nonempty entry).
Qed.

(** C9 (amended): a completion event (type glue_job_result) that carries a
    non-empty push URL and for which the reasoning engine returns a
    response is answered 200 with that response, and the cache then holds,
    under the lower-cased username of the event, an entry with that
    response as results (replacing any earlier entry); a later status-style
    query of that user, made while the entry is within the TTL, gets the
    cached results put in front of the query. *)
Theorem C9_completion_event_with_url_is_cached (w w_later : World)
    (ev user_context : gmap string string) (url text query : string) :
  let user := event_user ev user_context in
  let t_put := utcnow env (ticks w) in
  let entry := job_result_data env ev text t_put in
  let out := handle_glue_result env ev user_context w in
  ev !! "type" = Some "glue_job_result" →
  ev !! "websocket_url" = Some url →
  url ≠ "" →
  engine env (runs w) = mkEngineRun None None None None (inl text) →
  out.1 = Ok (200%Z, text) ∧
  completed_jobs_cache out.2 = <[lower (name user) := entry]> (completed_jobs_cache w) ∧
  dict_get entry "results" "No results available" = text ∧
  (isoformat env t_put ≠ "" →
   fromisoformat env (replace_Z (isoformat env t_put)) = Some t_put →
   completed_jobs_cache w_later = completed_jobs_cache out.2 →
   (utcnow env (ticks w_later) - t_put ≤ ttl_microseconds env)%Z →
   any_keyword_in status_keywords (lower query) = true →
   (inject_cached_results env user (PromptText query) w_later).1 =
     Ok (PromptText (format_cached entry +:+ nl +:+ nl +:+ "User Query: " +:+ query))).
Proof.
  intros user t_put entry out Htype Hws Hurl Hrun.
  destruct (glue_event_prompt w user ev url text Htype Hurl Hrun) as [Hres Hcache].
  assert (Hout : out = (Ok (200%Z, text),
                        (prompt env user (PromptEvent ev) (Some url) None w).2)).
  { subst out. unfold handle_glue_result, try_except, bind. rewrite Hws.
    fold (event_user ev user_context). fold user.
    destruct (prompt env user (PromptEvent ev) (Some url) None w) as [r w'].
    simpl in Hres. by subst r. }
  rewrite Hout. simpl. split; [ done | ]. split; [ done | ].
  split; [ reflexivity | ].
  intros Hiso Hround Hlater Hage Hkw.
  apply (status_query_finds_entry w_later user query entry t_put); try done.
  rewrite Hlater, Hcache. apply lookup_insert_eq.
Qed.

End Facts.

End ServiceFacts.

(** ** The job poller *)

Module PollerFacts.
Import Poller.

Section Facts.

Variable cfg : Config.
Variable env : Env.
Variable req : request.

Lemma state_reads_cons (i len : nat) :
  state_reads env i (S len) =
    ((if is_state_read (get_job_run env i) then 1 else 0) + state_reads env (S i) len)%nat.
Proof.
  unfold state_reads. simpl.
  by destruct (is_state_read (get_job_run env i)).
Qed.

(** An iteration whose read fails with the client error passes the
    observed state and the poll count on unchanged. *)
Lemma poll_loop_client_error (fuel i : nat) (state : string) (poll_count : nat)
    (tr : list out_event) (msg : string) :
  get_job_run env i = ClientError msg →
  poll_loop cfg env req (S fuel) i state poll_count tr =
    if ceiling_exceeded cfg env i then Some (Break "TIMEOUT" poll_count (S i) tr)
    else poll_loop cfg env req fuel (S i) state poll_count (tr ++ [Sleep (POLL_INTERVAL cfg)]).
Proof. intros H. simpl. by rewrite H. Qed.

(** An iteration whose read raises anything else leaves the loop by that
    exception, whatever the clock says. *)
Lemma poll_loop_other_exception (fuel i : nat) (state : string) (poll_count : nat)
    (tr : list out_event) (msg : string) :
  get_job_run env i = OtherException msg →
  poll_loop cfg env req (S fuel) i state poll_count tr = Some (Propagates msg (S i) tr).
Proof. intros H. simpl. by rewrite H. Qed.

(** An iteration whose read returns a state that is not terminal. *)
Lemma poll_loop_running (fuel i : nat) (state st : string) (poll_count : nat)
    (tr : list out_event) :
  get_job_run env i = JobRunState st →
  is_terminal st = false →
  poll_loop cfg env req (S fuel) i state poll_count tr =
    if ceiling_exceeded cfg env i
    then Some (Break "TIMEOUT" (S poll_count) (S i) (with_progress env req i st (S poll_count) tr))
    else poll_loop cfg env req fuel (S i) st (S poll_count)
           (with_progress env req i st (S poll_count) tr ++ [Sleep (POLL_INTERVAL cfg)]).
Proof. intros H Ht. unfold with_progress. cbn [poll_loop]. by rewrite H, Ht. Qed.

(** An iteration whose read returns a terminal state leaves the loop at
    once, before the timeout safeguard and without a sleep. *)
Lemma poll_loop_terminal (fuel i : nat) (state st : string) (poll_count : nat)
    (tr : list out_event) :
  get_job_run env i = JobRunState st →
  is_terminal st = true →
  poll_loop cfg env req (S fuel) i state poll_count tr =
    Some (Break st (S poll_count) (S i) (with_progress env req i st (S poll_count) tr)).
Proof. intros H Ht. unfold with_progress. cbn [poll_loop]. by rewrite H, Ht. Qed.

(** The loop from iteration [i], when no read up to iteration [i + k] ends
    it and the ceiling is first exceeded at the check of iteration [i + k]. *)
Lemma poll_loop_reaches_ceiling (k : nat) :
  ∀ (i : nat) (state : string) (poll_count : nat) (tr : list out_event) (fuel : nat),
    (∀ j, i ≤ j ≤ i + k → keeps_polling (get_job_run env j))%nat →
    (∀ j, i ≤ j < i + k → ceiling_exceeded cfg env j = false)%nat →
    ceiling_exceeded cfg env (i + k) = true →
    (k < fuel)%nat →
    ∃ tr', poll_loop cfg env req fuel i state poll_count tr =
             Some (Break "TIMEOUT" (poll_count + state_reads env i (S k)) (S (i + k)) tr').
Proof.
  induction k as [|k IH]; intros i state poll_count tr fuel Hreads Hbelow Hceil Hfuel.
  - destruct fuel as [|fuel]; [ lia | ].
    rewrite Nat.add_0_r in *. rewrite state_reads_cons.
    assert (Hr : keeps_polling (get_job_run env i)) by (apply Hreads; lia).
    destruct (get_job_run env i) as [st|msg|msg] eqn:Hread; simpl in Hr; [ | | done ].
    + rewrite (poll_loop_running _ _ _ st) by done. rewrite Hceil.
      eexists. f_equal. f_equal. unfold state_reads. simpl. lia.
    + rewrite (poll_loop_client_error _ _ _ _ _ msg) by done. rewrite Hceil.
      eexists. f_equal. f_equal. unfold state_reads. simpl. lia.
  - destruct fuel as [|fuel]; [ lia | ].
    assert (Hr : keeps_polling (get_job_run env i)) by (apply Hreads; lia).
    assert (Hc : ceiling_exceeded cfg env i = false) by (apply Hbelow; lia).
    rewrite state_reads_cons.
    replace (i + S k)%nat with (S i + k)%nat in * by lia.
    destruct (get_job_run env i) as [st|msg|msg] eqn:Hread; simpl in Hr; [ | | done ].
    + rewrite (poll_loop_running _ _ _ st) by done. rewrite Hc.
      edestruct (IH (S i) st (S poll_count)) as [tr' Htr'];
        [ | | exact Hceil | | rewrite Htr' ].
      * intros j Hj. apply Hreads. lia.
      * intros j Hj. apply Hbelow. lia.
      * lia.
      * eexists. f_equal. f_equal. simpl. lia.
    + rewrite (poll_loop_client_error _ _ _ _ _ msg) by done. rewrite Hc.
      edestruct (IH (S i) state poll_count) as [tr' Htr'];
        [ | | exact Hceil | | rewrite Htr' ].
      * intros j Hj. apply Hreads. lia.
      * intros j Hj. apply Hbelow. lia.
      * lia.
      * eexists. f_equal.
Qed.

Lemma handler_runs_loop (fuel : nat) :
  well_formed cfg req →
  handler cfg env req fuel =
    match poll_loop cfg env req fuel 0 "RUNNING" 0 [] with
    | None => None
    | Some (Propagates msg _ tr) => Some (Raised msg tr)
    | Some (Break state _ reads tr) =>
        let '(result_preview, actual_output_location) :=
          if bool_decide (state = "SUCCEEDED") then harvest env (session_id req)
          else (None, None) in
        let location :=
          if truthy_opt actual_output_location
          then default "" actual_output_location
          else output_s3_path req in
        Some (Returned state reads
                (if reinvoke req then tr ++ [Result state location result_preview] else tr))
    end.
Proof. intros (Hb & Hj & Hr). unfold handler. by rewrite Hb, Hj, Hr. Qed.

(** What the loop does for the reads it tolerates: when every read up to
    iteration [n] either returns a state that is not terminal or fails with
    the client error the loop catches, and the timeout safeguard first
    finds the ceiling exceeded in iteration [n], the loop ends in that
    iteration and the handler returns TIMEOUT after [n + 1] reads; the poll
    count is the number of reads that returned a state; a read that fails
    with the client error passes the observed state and the poll count on
    unchanged, and a read that raises any other exception ends the loop
    with that exception. *)
Lemma poller_ceiling_forces_timeout (n fuel : nat) :
  well_formed cfg req →
  (∀ j, j ≤ n → keeps_polling (get_job_run env j))%nat →
  (∀ j, j < n → ceiling_exceeded cfg env j = false)%nat →
  ceiling_exceeded cfg env n = true →
  (n < fuel)%nat →
  (∃ tr, handler cfg env req fuel = Some (Returned "TIMEOUT" (S n) tr)) ∧
  (∃ tr, poll_loop cfg env req fuel 0 "RUNNING" 0 [] =
           Some (Break "TIMEOUT" (state_reads env 0 (S n)) (S n) tr)) ∧
  (∀ i msg fuel' state poll_count tr,
     get_job_run env i = ClientError msg →
     poll_loop cfg env req (S fuel') i state poll_count tr =
       if ceiling_exceeded cfg env i then Some (Break "TIMEOUT" poll_count (S i) tr)
       else poll_loop cfg env req fuel' (S i) state poll_count
              (tr ++ [Sleep (POLL_INTERVAL cfg)])) ∧
  (∀ i msg fuel' state poll_count tr,
     get_job_run env i = OtherException msg →
     poll_loop cfg env req (S fuel') i state poll_count tr =
       Some (Propagates msg (S i) tr)).
Proof.
  intros Hwf Hreads Hbelow Hceil Hfuel.
  destruct (poll_loop_reaches_ceiling n 0 "RUNNING" 0 [] fuel) as [tr Htr]; try done.
  { intros j Hj. apply Hreads. lia. }
  { intros j Hj. apply Hbelow. lia. }
  simpl in Htr. split; [ | split; [ by exists tr | split ] ].
  - rewrite handler_runs_loop by done. rewrite Htr. simpl.
    by eexists.
  - intros. by apply poll_loop_client_error with (msg := msg).
  - intros. by apply poll_loop_other_exception.
Qed.

(** C6: with re-invocation on and the ceiling not exceeded, the reads
    RUNNING, RUNNING, RUNNING, SUCCEEDED make the handler emit exactly one
    progress event, at the third poll, before the result event, and return
    SUCCEEDED after exactly four reads: the loop is left on the fourth read,
    with no sleep and no further poll, however much fuel remains. *)
Theorem C6_poller_cadence (fuel : nat) :
  well_formed cfg req →
  reinvoke req = true →
  get_job_run env 0 = JobRunState "RUNNING" →
  get_job_run env 1 = JobRunState "RUNNING" →
  get_job_run env 2 = JobRunState "RUNNING" →
  get_job_run env 3 = JobRunState "SUCCEEDED" →
  (∀ j, j < 3 → ceiling_exceeded cfg env j = false)%nat →
  (4 ≤ fuel)%nat →
  ∃ location preview,
    handler cfg env req fuel =
      Some (Returned "SUCCEEDED" 4
              [ Sleep (POLL_INTERVAL cfg);
                Sleep (POLL_INTERVAL cfg);
                Progress 3 "RUNNING" (progress_message env 2 "RUNNING");
                Sleep (POLL_INTERVAL cfg);
                Result "SUCCEEDED" location preview ]).
Proof.
  intros Hwf Hre H0 H1 H2 H3 Hbelow Hfuel.
  do 4 (destruct fuel as [|fuel]; [ lia | ]).
  rewrite handler_runs_loop by done.
  rewrite (poll_loop_running _ _ _ "RUNNING") by done.
  rewrite (Hbelow 0%nat) by lia.
  rewrite (poll_loop_running _ _ _ "RUNNING") by done.
  rewrite (Hbelow 1%nat) by lia.
  rewrite (poll_loop_running _ _ _ "RUNNING") by done.
  rewrite (Hbelow 2%nat) by lia.
  rewrite (poll_loop_terminal _ _ _ "SUCCEEDED") by done.
  unfold with_progress. rewrite Hre. simpl.
  destruct (harvest env (session_id req)) as [preview location]. simpl.
  by eexists _, _.
Qed.

End Facts.

End PollerFacts.

(** ** The theorems at concrete inputs *)

Module Scenarios.
Import Service Fixtures.

(** The cache example of the specification, run on the model: TTL one
    hour, an entry completed at T; the read at T + 59 min returns it, the
    read at T + 61 min returns absent and deletes it; an entry written at
    T + 61 min is returned one second later. *)
Example cache_ttl_scenario :
  let env := example_env always_ok (λ _, responding "42 rows") in
  let ev := completion_event None in
  let w1 := (cache_put env alice ev "old result" empty_world).2 in
  let r2 := get_cached_job_results env "Alice" w1 in
  let r3 := get_cached_job_results env "ALICE" r2.2 in
  let w4 := (cache_put env alice ev "new result" r3.2).2 in
  let r5 := get_cached_job_results env "alice" w4 in
  r2.1 = Ok (format_cached (job_result_data env ev "old result" 0)) ∧
  r3.1 = Ok "" ∧
  completed_jobs_cache r3.2 = ∅ ∧
  r5.1 = Ok (format_cached (job_result_data env ev "new result" (61 * minute))).
Proof. vm_compute. repeat split. Qed.

Lemma C2_cache_get_checks_ttl_witness :
  let env := example_env always_ok (λ _, responding "42 rows") in
  let ev := completion_event None in
  let entry := job_result_data env ev "old result" 0 in
  let w1 := (cache_put env alice ev "old result" empty_world).2 in
  let w2 := (get_cached_job_results env "Alice" w1).2 in
  (get_cached_job_results env "Alice" w1).1 =
    Ok (nl +:+ "CACHED JOB RESULTS AVAILABLE:" +:+ nl
        +:+ "- Job: dq-job" +:+ nl
        +:+ "- Status: SUCCEEDED" +:+ nl
        +:+ "- Completed: 1970-01-01T00:00:00" +:+ nl
        +:+ "- Results: old result" +:+ nl) ∧
  (get_cached_job_results env "ALICE" w2).1 = Ok "".
Proof.
  intros env ev entry w1 w2. split.
  - destruct (CacheFacts.C2_cache_get_checks_ttl env w1 "Alice") as [_ H].
    destruct (H entry eq_refl) as [_ H'].
    destruct (H' 0%Z) as [_ Hlive]; [ discriminate | reflexivity | ].
    apply Hlive. vm_compute. discriminate.
  - destruct (CacheFacts.C2_cache_get_checks_ttl env w2 "ALICE") as [_ H].
    destruct (H entry eq_refl) as [_ H'].
    destruct (H' 0%Z) as [Hexpired _]; [ discriminate | reflexivity | ].
    apply Hexpired. vm_compute. reflexivity.
Defined.

Lemma C7_put_overwrites_case_normalized_witness :
  let env := example_env always_ok (λ _, responding "42 rows") in
  let ev := completion_event None in
  let w_expired :=
    mkWorld ∅ {[ "alice" := job_result_data env ev "old result" 0 ]} [] 3 0 0 0 in
  let entry := job_result_data env ev "new result" (61 * minute) in
  let w1 := (cache_put env alice ev "new result" w_expired).2 in
  completed_jobs_cache w1 !! lower "ALICE" = Some entry ∧
  dict_get entry "results" "No results available" = "new result" ∧
  (get_cached_job_results env "ALICE" w1).1 =
    Ok (nl +:+ "CACHED JOB RESULTS AVAILABLE:" +:+ nl
        +:+ "- Job: dq-job" +:+ nl
        +:+ "- Status: SUCCEEDED" +:+ nl
        +:+ "- Completed: 1970-01-01T01:01:00" +:+ nl
        +:+ "- Results: new result" +:+ nl) ∧
  (get_cached_job_results env "ALICE" w1).1 ≠ Ok "".
Proof.
  intros env ev w_expired entry w1.
  apply (CacheFacts.C7_put_overwrites_case_normalized env w_expired w1 alice ev
           "new result" "ALICE").
  - reflexivity.
  - discriminate.
  - reflexivity.
  - reflexivity.
  - vm_compute. discriminate.
Defined.



Example create_task_session_record :
  let env := example_env always_ok (λ _, responding "42 rows") in
  (create_task_session env "u-1" "Alice" "User prompt: count the rows" empty_world).1
    = Ok "task-0" ∧
  created_record env !! "status" = Some "STARTED" ∧
  created_record env !! "created_at" = Some "1970-01-01T00:00:00" ∧
  created_record env !! "user_id" = Some "u-1".
Proof. vm_compute. repeat split. Qed.

(** Both paths of the background task, run on the model: the engine
    responds (COMPLETED is written, then the response is posted), the
    engine raises (FAILED is written, then the error is posted). *)
Example background_task_paths :
  let url := Some "https://web/api/notify" in
  let ok := example_env always_ok (λ _, responding "42 rows") in
  let ko := example_env always_ok (λ _, raising "boom") in
  let w_ok := (process_agent_background ok "task-0" alice "count the rows" url
                 (created_world ok)).2 in
  let w_ko := (process_agent_background ko "task-0" alice "count the rows" url
                 (created_world ko)).2 in
  (s3 w_ok !! task_key "task-0" ≫= (.!! "status") = Some "COMPLETED" ∧
   last (trace w_ok) = Some (EvPost "https://web/api/notify" "Alice" "42 rows")) ∧
  (s3 w_ko !! task_key "task-0" ≫= (.!! "status") = Some "FAILED" ∧
   last (trace w_ko) = Some (EvPost "https://web/api/notify" "Alice" "Processing failed: boom")).
Proof. vm_compute. repeat split. Qed.

Lemma C8_update_frame_and_terminal_status_witness :
  let env := example_env always_ok (λ _, responding "42 rows") in
  let w := created_world env in
  ∃ d', s3 (update_task_progress env "task-0" "PROCESSING" "working" w).2
          !! task_key "task-0" = Some d' ∧
        d' !! "status" = Some "PROCESSING" ∧
        d' !! "created_at" = created_record env !! "created_at".
Proof.
  intros env w.
  destruct (ServiceFacts.C8_update_frame_and_terminal_status env w "task-0"
              (created_record env) eq_refl) as [Hupdate _].
  destruct (Hupdate "PROCESSING" "working") as (d' & Hd' & Hst & _ & _ & Hfields).
  exists d'. split; [ exact Hd' | ]. split; [ exact Hst | ].
  apply Hfields. unfold identity_fields. apply list_elem_of_here.
Defined.

Lemma C9_completion_event_with_url_is_cached_witness :
  let env := example_env always_ok (λ _, responding "42 rows") in
  let ev := completion_event (Some "https://web/api/notify") in
  let entry := job_result_data env ev "42 rows" 0 in
  let out := handle_glue_result env ev alice_context empty_world in
  out.1 = Ok (200%Z, "42 rows") ∧
  completed_jobs_cache out.2 = <[ "alice" := entry ]> ∅ ∧
  (inject_cached_results env alice (PromptText "is my job done?") out.2).1 =
    Ok (PromptText (format_cached entry +:+ nl +:+ nl +:+ "User Query: "
                    +:+ "is my job done?")).
Proof.
  intros env ev entry out.
  destruct (ServiceFacts.C9_completion_event_with_url_is_cached env empty_world out.2
              ev alice_context "https://web/api/notify" "42 rows" "is my job done?")
    as (Hres & Hcache & _ & Hquery); [ reflexivity | reflexivity | discriminate | reflexivity | ].
  split; [ exact Hres | ]. split; [ exact Hcache | ].
  apply Hquery; [ discriminate | reflexivity | reflexivity | | reflexivity ].
  vm_compute. discriminate.
Defined.

(** C9, the claim as written fails on the code: a completion event
    without a push URL is processed (answered 200 with the response) and
    leaves the cache empty, so the status-style query that follows finds
    nothing. *)
Lemma C9_completion_event_without_url_not_cached :
  let env := example_env always_ok (λ _, responding "42 rows") in
  let ev := completion_event None in
  let out := handle_glue_result env ev alice_context empty_world in
  ev !! "type" = Some "glue_job_result" ∧
  out.1 = Ok (200%Z, "42 rows") ∧
  completed_jobs_cache out.2 = ∅ ∧
  (get_cached_job_results env "Alice" out.2).1 = Ok "" ∧
  (inject_cached_results env alice (PromptText "is my job done?") out.2).1 =
    Ok (PromptText "is my job done?").
Proof. vm_compute. repeat split. Qed.

Lemma C10_task_status_enforces_ownership_witness :
  let env := example_env always_ok (λ _, responding "42 rows") in
  let mine : gmap string string := <["user_id" := "test-user"]> (<["status" := "STARTED"]> ∅) in
  let theirs : gmap string string := <["user_id" := "u-1"]> (<["status" := "STARTED"]> ∅) in
  let w := mkWorld (<[task_key "t-2" := theirs]> (<[task_key "t-1" := mine]> ∅))
                   ∅ [] 0 0 0 0 in
  (get_task_status env (Some "Bearer token") "t-1" w).1 = Ok (200%Z, mine) ∧
  (get_task_status env (Some "Bearer token") "t-2" w).1
    = Ok (403%Z, {[ "error" := "Access denied" ]}) ∧
  (get_task_status env (Some "Bearer token") "t-3" w).1
    = Ok (404%Z, {[ "error" := "Task not found" ]}).
Proof.
  intros env mine theirs w.
  split; [ | split ].
  - destruct (ServiceFacts.C10_task_status_enforces_ownership env w (Some "Bearer token")
                "t-1" (mkUser "test-user" "Test User") eq_refl) as (_ & _ & H).
    destruct (H mine eq_refl) as [Hmine _]. by apply Hmine.
  - destruct (ServiceFacts.C10_task_status_enforces_ownership env w (Some "Bearer token")
                "t-2" (mkUser "test-user" "Test User") eq_refl) as (_ & _ & H).
    destruct (H theirs eq_refl) as [_ Htheirs]. apply Htheirs. discriminate.
  - destruct (ServiceFacts.C10_task_status_enforces_ownership env w (Some "Bearer token")
                "t-3" (mkUser "test-user" "Test User") eq_refl) as (_ & H & _).
    by apply H.
Defined.

(** The ceiling example of the specification: a job that stays RUNNING
    and a ceiling of one hour; the second safeguard check finds it exceeded. *)
Lemma poller_ceiling_forces_timeout_example :
  ∃ tr, Poller.handler poller_cfg stuck_env poller_req 2
          = Some (Poller.Returned "TIMEOUT" 2 tr).
Proof.
  destruct (PollerFacts.poller_ceiling_forces_timeout poller_cfg stuck_env poller_req 1 2)
    as [H _].
  - repeat split.
  - intros j _. reflexivity.
  - intros j Hj. assert (j = 0%nat) as -> by lia. reflexivity.
  - reflexivity.
  - lia.
  - exact H.
Defined.

(** C4: the poller does not survive every failed read, as the claim
    says it does.  When each read of the job state fails with an exception
    that is not the client error (here a connection error) and the ceiling
    is exceeded from the first iteration on, the handler does not return
    TIMEOUT: the exception of the first read leaves the loop and the
    handler, before the timeout safeguard is reached, and nothing is sent.
    On the same run with the client error in place of the connection error
    the read is a no-op, the safeguard is reached and the handler returns
    TIMEOUT after that one read, with the result event. *)
Theorem C4_uncaught_read_failure_ends_the_poller :
  Poller.ceiling_exceeded poller_cfg unreachable_env 0 = true ∧
  (∀ fuel, Poller.handler poller_cfg unreachable_env poller_req (S fuel)
             = Some (Poller.Raised "EndpointConnectionError" []) ∧
           ¬ ∃ reads tr, Poller.handler poller_cfg unreachable_env poller_req (S fuel)
                           = Some (Poller.Returned "TIMEOUT" reads tr)) ∧
  (∀ fuel, Poller.handler poller_cfg MoreFixtures.throttled_env poller_req (S fuel)
             = Some (Poller.Returned "TIMEOUT" 1 [Poller.Result "TIMEOUT" "" None])).
Proof.
  split; [ reflexivity | ]. split; [ | reflexivity ]. intros fuel.
  assert (H : Poller.handler poller_cfg unreachable_env poller_req (S fuel)
              = Some (Poller.Raised "EndpointConnectionError" [])) by reflexivity.
  split; [ exact H | ]. intros (reads & tr & Hret). rewrite H in Hret. discriminate.
Qed.

Lemma C6_poller_cadence_witness :
  ∃ location preview,
    Poller.handler poller_cfg scripted_env poller_req 10 =
      Some (Poller.Returned "SUCCEEDED" 4
              [ Poller.Sleep 0; Poller.Sleep 0;
                Poller.Progress 3 "RUNNING" "Job is running... (running for 0.0 minutes)";
                Poller.Sleep 0;
                Poller.Result "SUCCEEDED" location preview ]).
Proof.
  apply (PollerFacts.C6_poller_cadence poller_cfg scripted_env poller_req 10).
  - repeat split.
  - reflexivity.
  - reflexivity.
  - reflexivity.
  - reflexivity.
  - reflexivity.
  - intros j Hj. destruct j as [|[|[|j]]]; [ reflexivity | reflexivity | reflexivity | lia ].
  - lia.
Defined.

End Scenarios.

(** ** The channel handler and the web application: more properties *)

Module ChannelFacts.
Import Registry RegistryHandler.

(** X1: a connection that is opened, authenticated and closed leaves no
    trace: when the connection id and the username are new to the registry,
    the three events in order give back the registry they started from. *)
Theorem registry_lifecycle_round_trip (r : registry) (c u : string) (ok : bool) :
  connections r !! c = None →
  user_connections r !! u = None →
  u ≠ "" →
  let r1 := (handler "$connect" c None ok r).2 in
  let r2 := (handler "$default" c (Some (mkMessage (Some "auth") (Some u))) ok r1).2 in
  (handler "$disconnect" c None ok r2).2 = r.
Proof.
  intros Hc Hu Hne. apply truthy_true in Hne.
  destruct r as [conns users]. simpl in *.
  unfold handle_message, handle_disconnect, handle_connect, connections_get. simpl.
  rewrite Hne. simpl. rewrite lookup_insert_eq, Hne. simpl.
  rewrite (bool_decide_eq_true_2 (is_Some (<[u:=c]> users !! u)))
    by (rewrite lookup_insert_eq; by eexists).
  f_equal.
  - rewrite delete_insert_eq, delete_insert_eq. by apply delete_id.
  - by apply delete_insert_id.
Qed.

(** X2: the dispatcher changes the registry on a connect, on a
    disconnect and on an auth message with a non-empty username, and on
    nothing else: an unknown route is answered 400, a message that does not
    parse 500, and any other message 200, all with the registry as it was. *)
Theorem registry_changes_only_on_connect_auth_disconnect (route c : string)
    (body : option message) (ok : bool) (r : registry) :
  route ≠ "$connect" →
  route ≠ "$disconnect" →
  (∀ u, body = Some (mkMessage (Some "auth") (Some u)) → u = "") →
  let out := handler route c body ok r in
  out.2 = r ∧
  (route ≠ "$default" → out.1 = 400%Z) ∧
  (route = "$default" → body = None → out.1 = 500%Z) ∧
  (route = "$default" → body ≠ None → out.1 = 200%Z).
Proof.
  intros Hc Hd Hauth. unfold handler.
  rewrite (bool_decide_eq_false_2 (route = "$connect")) by done.
  rewrite (bool_decide_eq_false_2 (route = "$disconnect")) by done.
  case_bool_decide as Hdef; simpl; [ | by repeat split ].
  destruct body as [[mtype musername]|]; simpl; [ | by repeat split ].
  unfold handle_message. simpl.
  case_bool_decide as Htype; simpl.
  - destruct musername as [u|]; simpl.
    + subst mtype. rewrite (Hauth u eq_refl). simpl. by repeat split.
    + by repeat split.
  - by repeat split.
Qed.

(** X3: [send_notification_to_user] answers true exactly when the user
    has a mapping and the post succeeds; it never touches [connections] nor
    another user's mapping; a success leaves the registry as it was, a
    failed post removes the user's mapping. *)
Theorem send_notification_outcome (r : registry) (u : string) (post_ok : bool) :
  let out := send_notification_to_user u post_ok r in
  (out.1 = true ↔ is_Some (lookup r u) ∧ post_ok = true) ∧
  connections out.2 = connections r ∧
  (∀ v, v ≠ u → lookup out.2 v = lookup r v) ∧
  (out.1 = true → out.2 = r) ∧
  (post_ok = false → lookup out.2 u = None).
Proof.
  unfold send_notification_to_user.
  destruct (lookup r u) as [c|] eqn:Hl; simpl; [ destruct post_ok; simpl | ].
  all: split_and!; try done.
  all: try (split; [ try done; by intros [_ ?] | try done; by intros [[? ?] ?] ]).
  all: try (intros v Hv; unfold lookup; simpl; by apply lookup_delete_ne).
  all: try (intros _; unfold lookup; simpl; apply lookup_delete_eq).
Qed.

(** X4: the connection manager keeps the user's mapping when a channel
    closes: the user still points at the closed session, and a send to
    that user fails without any clean-up. *)
Theorem closed_channel_leaves_stale_mapping (m : ConnectionManager.manager)
    (s u : string) (send_ok : bool) :
  u ≠ "" →
  let m1 := ConnectionManager.close_channel s
              (ConnectionManager.auth s u (ConnectionManager.open_channel s m)) in
  ConnectionManager.lookup m1 u = Some s ∧
  (s ∉ ConnectionManager.active_connections m1) ∧
  ConnectionManager.send_to_user u send_ok m1 = (false, m1).
Proof.
  intros Hu m1. apply truthy_true in Hu.
  assert (Hl : ConnectionManager.lookup m1 u = Some s).
  { subst m1. unfold ConnectionManager.lookup, ConnectionManager.auth. rewrite Hu.
    simpl. apply lookup_insert_eq. }
  assert (Hs : s ∉ ConnectionManager.active_connections m1).
  { subst m1. unfold ConnectionManager.auth. rewrite Hu. simpl.
    rewrite elem_of_difference, elem_of_singleton. tauto. }
  split; [ done | ]. split; [ done | ].
  unfold ConnectionManager.send_to_user. rewrite Hl.
  by rewrite bool_decide_eq_false_2.
Qed.

End ChannelFacts.

Module WebAppFacts.
Import WebApp.

(** The endpoint on a body that carries a username and a message. *)
Lemma notify_user_valid (data : gmap string string) (u msg : string) (now_ms : Z)
    (send_ok : bool) (st : state) :
  data !! "username" = Some u → data !! "message" = Some msg →
  u ≠ "" → msg ≠ "" →
  notify_user (Some data) now_ms send_ok st =
    (Returns,
     mkState (ConnectionManager.send_to_user u send_ok (manager st)).2
       (<[u := default [] (chat_history_store st !! u)
               ++ [mkChatMessage "assistant" msg now_ms]]> (chat_history_store st))).
Proof.
  intros Hu Hmsg Hune Hmne. unfold notify_user. rewrite Hu, Hmsg. simpl.
  apply truthy_true in Hune. apply truthy_true in Hmne. by rewrite Hune, Hmne.
Qed.

(** X5: a notification with a username and a message returns (the client
    is answered 200) and its message is appended, as an assistant message,
    after the pending messages of that user, whether or not the push over
    the socket works and whether or not the user is connected; other users'
    messages are untouched.  For a body that does not parse, or lacks the
    username or the message, the function raises HTTPException 400 and
    changes nothing; the client is answered 500, not 400, because the
    exception handler of the application returns the exception object for
    every status but 401. *)
Theorem notify_user_stores_message (body : option (gmap string string)) (now_ms : Z)
    (send_ok : bool) (st : state) :
  let out := notify_user body now_ms send_ok st in
  (∀ data u msg,
     body = Some data → data !! "username" = Some u → data !! "message" = Some msg →
     u ≠ "" → msg ≠ "" →
     out.1 = Returns ∧ response_status out.1 = 200%Z ∧
     chat_history_store out.2 !! u =
       Some (default [] (chat_history_store st !! u)
             ++ [mkChatMessage "assistant" msg now_ms]) ∧
     (∀ v, v ≠ u → chat_history_store out.2 !! v = chat_history_store st !! v)) ∧
  (body = None →
     out = (RaisesHTTPException 400, st) ∧ response_status out.1 = 500%Z) ∧
  (∀ data, body = Some data →
     truthy_opt (data !! "username") = false ∨ truthy_opt (data !! "message") = false →
     out = (RaisesHTTPException 400, st) ∧ response_status out.1 = 500%Z).
Proof.
  intros out. subst out. split; [ | split ].
  - intros data u msg -> Hu Hmsg Hune Hmne.
    rewrite (notify_user_valid data u msg) by done. simpl.
    split; [ done | ]. split; [ done | ]. split; [ apply lookup_insert_eq | ].
    intros v Hv. by apply lookup_insert_ne.
  - by intros ->.
  - intros data -> [H|H]; unfold notify_user; rewrite H; simpl; [ done | ].
    by rewrite orb_true_r.
Qed.

(** X6: messages notified while the user is away reach the conversation
    in the order of their arrival and exactly once: after two
    notifications for a user without pending messages, the next turn of the
    chat appends the two messages in order and clears them, and the turn
    after that appends nothing. *)
Theorem pending_messages_delivered_once_in_order (st : state) (u m1 m2 : string)
    (t1 t2 : Z) (ok1 ok2 : bool) (history : list (string * string)) :
  u ≠ "" → m1 ≠ "" → m2 ≠ "" →
  default [] (chat_history_store st !! u) = [] →
  let body := λ m : string, Some (<["message" := m]> (<["username" := u]> ∅)) in
  let st1 := (notify_user (body m1) t1 ok1 st).2 in
  let st2 := (notify_user (body m2) t2 ok2 st1).2 in
  let turn := take_pending u history st2 in
  turn.1 = history ++ [("assistant", m1); ("assistant", m2)] ∧
  take_pending u turn.1 turn.2 = (turn.1, turn.2).
Proof.
  intros Hu Hm1 Hm2 Hempty body st1 st2 turn.
  assert (Hbody : ∀ m : string,
            (<["message" := m]> (<["username" := u]> (∅ : gmap string string)))
              !! "username" = Some u ∧
            (<["message" := m]> (<["username" := u]> (∅ : gmap string string)))
              !! "message" = Some m).
  { intros m. split.
    - rewrite lookup_insert_ne by done. apply lookup_insert_eq.
    - apply lookup_insert_eq. }
  assert (H2 : chat_history_store st2 !! u =
               Some [mkChatMessage "assistant" m1 t1; mkChatMessage "assistant" m2 t2]).
  { subst st2 st1 body. cbv beta.
    destruct (Hbody m1) as [Hu1 Hmsg1]. destruct (Hbody m2) as [Hu2 Hmsg2].
    rewrite (notify_user_valid _ u m1 t1 ok1 st Hu1 Hmsg1) by done.
    rewrite (notify_user_valid _ u m2 t2 ok2 _ Hu2 Hmsg2) by done.
    simpl. rewrite lookup_insert_eq, lookup_insert_eq. simpl. by rewrite Hempty. }
  assert (Hturn : turn = (history ++ [("assistant", m1); ("assistant", m2)],
                          mkState (manager st2) (<[u := []]> (chat_history_store st2)))).
  { subst turn. unfold take_pending. by rewrite H2. }
  rewrite Hturn. simpl. split; [ done | ].
  unfold take_pending. simpl. by rewrite lookup_insert_eq.
Qed.

End WebAppFacts.

(** ** Notification senders: more properties *)

Module NotificationFacts.
Import Service Observations Routing.

Section Facts.

Variable env : Env.

(** The retry loop over the attempts [a], [a + 1], ..., [a + len - 1] of
    a dispatcher with [a + len] attempts in all, when the first [k] answers
    are no acknowledgement and the next one, if there is one, is. *)
Lemma retry_attempts_schedule (username message url : string) (len : nat) :
  ∀ (a k : nat) (w : World),
    (k ≤ len)%nat →
    (∀ j, (j < k)%nat → acknowledges (http env (posts w + j)) = false) →
    ((k < len)%nat → acknowledges (http env (posts w + k)) = true) →
    ∃ evs w',
      retry_attempts env username message url (Z.of_nat (a + len))
        ((λ i, Z.of_nat i) <$> seq a len) w = (Ok (bool_decide (k < len)%nat), w') ∧
      trace w' = trace w ++ evs ∧
      s3 w' = s3 w ∧ completed_jobs_cache w' = completed_jobs_cache w ∧
      post_count evs = Nat.min (S k) len ∧
      sleeps_of evs = (λ i, 2 ^ Z.of_nat i)%Z <$> seq a (Nat.min k (len - 1)) ∧
      Forall (λ e, e = EvPost url username message ∨ ∃ s, e = EvSleep s) evs.
Proof.
  induction len as [|len IH]; intros a k w Hk Hfail Hack.
  - assert (k = 0)%nat as -> by lia. exists [], w. simpl.
    rewrite app_nil_r. by repeat split.
  - change (seq a (S len)) with (a :: seq (S a) len).
    rewrite fmap_cons, ServiceFacts.retry_attempts_cons.
    destruct k as [|k].
    + rewrite Nat.add_0_r in Hack. rewrite Hack by lia.
      exists [EvPost url username message], (posted w url username message).
      rewrite bool_decide_eq_true_2 by lia. simpl.
      repeat split; try done. constructor; [ by left | constructor ].
    + assert (H0 : acknowledges (http env (posts w)) = false).
      { rewrite <- (Nat.add_0_r (posts w)). apply Hfail. lia. }
      rewrite H0.
      set (w1 := if bool_decide (Z.of_nat a < Z.of_nat (a + S len) - 1)%Z then _ else _).
      assert (Hw1 : posts w1 = S (posts w) ∧ s3 w1 = s3 w ∧
                    completed_jobs_cache w1 = completed_jobs_cache w).
      { subst w1. by case_bool_decide. }
      destruct Hw1 as (Hp1 & Hs1 & Hc1).
      destruct (IH (S a) k w1) as (evs & w' & Hrun & Htr & Hs & Hc & Hposts & Hsl & Hall).
      { lia. }
      { intros j Hj. rewrite Hp1.
        replace (S (posts w) + j)%nat with (posts w + S j)%nat by lia.
        apply Hfail. lia. }
      { intros Hlt. rewrite Hp1.
        replace (S (posts w) + k)%nat with (posts w + S k)%nat by lia.
        apply Hack. lia. }
      replace (S a + len)%nat with (a + S len)%nat in Hrun by lia.
      rewrite Hrun.
      destruct len as [|len].
      * assert (k = 0)%nat as -> by lia.
        exists (EvPost url username message :: evs), w'.
        assert (Htr1 : trace w1 = trace w ++ [EvPost url username message]).
        { subst w1. rewrite bool_decide_eq_false_2 by lia. done. }
        rewrite Htr, Htr1, <- app_assoc. simpl in *.
        split; [ done | ]. split; [ done | ].
        split; [ congruence | ]. split; [ congruence | ].
        split; [ by rewrite Hposts | ]. split; [ done | ].
        constructor; [ by left | done ].
      * exists (EvPost url username message :: EvSleep (2 ^ Z.of_nat a) :: evs), w'.
        assert (Htr1 : trace w1 =
                  (trace w ++ [EvPost url username message]) ++ [EvSleep (2 ^ Z.of_nat a)]).
        { subst w1. rewrite bool_decide_eq_true_2 by lia. done. }
        rewrite Htr, Htr1, <- !app_assoc.
        split; [ do 2 f_equal; apply bool_decide_ext; lia | ].
        split; [ done | ].
        split; [ congruence | ]. split; [ congruence | ].
        split; [ simpl; rewrite Hposts; lia | ].
        split.
        { simpl sleeps_of. rewrite Hsl.
          replace (Nat.min (S k) (S (S len) - 1)) with (S (Nat.min k (S len - 1))) by lia.
          done. }
        constructor; [ by left | ]. constructor; [ right; by eexists | done ].
Qed.

(** X7: the retrying dispatcher with any number of attempts.  When the
    first [k] answers are no acknowledgement and the next one (if the
    attempts are not used up) is, the dispatcher returns true exactly when
    [k] is below the number of attempts; it makes [k + 1] posts, or all of
    them when none is acknowledged; between the failed attempts it sleeps
    1, 2, 4, ... seconds, with no sleep after the last attempt; it does
    nothing else, and with no attempt at all ([max_retries <= 0]) it
    returns false without a post. *)
Theorem retry_backoff_schedule (w : World) (username message url : string)
    (max_retries : Z) (k : nat) :
  let n := Z.to_nat max_retries in
  (k ≤ n)%nat →
  (∀ j, (j < k)%nat → acknowledges (http env (posts w + j)) = false) →
  ((k < n)%nat → acknowledges (http env (posts w + k)) = true) →
  let out := send_websocket_notification_with_retry env username message url max_retries w in
  ∃ evs,
    out.1 = Ok (bool_decide (k < n)%nat) ∧
    trace out.2 = trace w ++ evs ∧
    s3 out.2 = s3 w ∧ completed_jobs_cache out.2 = completed_jobs_cache w ∧
    post_count evs = Nat.min (S k) n ∧
    sleeps_of evs = backoff_delays (Nat.min k (n - 1)) ∧
    Forall (λ e, e = EvPost url username message ∨ ∃ s, e = EvSleep s) evs.
Proof.
  intros n Hk Hfail Hack out. subst out.
  unfold send_websocket_notification_with_retry, range, backoff_delays. fold n.
  destruct (decide (n = 0)%nat) as [Hn|Hn].
  - rewrite Hn in *. assert (k = 0)%nat as -> by lia.
    exists []. simpl. rewrite app_nil_r. by repeat split.
  - assert (Hmax : max_retries = Z.of_nat (0 + n)) by lia.
    clearbody n. subst max_retries.
    destruct (retry_attempts_schedule username message url n 0 k w Hk Hfail Hack)
      as (evs & w' & Hrun & Htr & Hs & Hc & Hposts & Hsl & Hall).
    rewrite Hrun. exists evs. by repeat split.
Qed.

(** X8: the single-attempt sender of web_app.py and app.py never raises.
    Without a URL it returns false and sends nothing; for a loopback URL it
    returns true although nothing is sent; otherwise it makes exactly one
    post and returns true exactly when that post is answered with status
    200 (an exception of the transport gives false). *)
Theorem single_attempt_sender_outcome (w : World) (username message : string)
    (websocket_url : option string) :
  let out := send_websocket_notification env username message websocket_url w in
  let loopback := λ url : string, contains "localhost" url || contains "127.0.0.1" url in
  (truthy_opt websocket_url = false → out = (Ok false, w)) ∧
  (∀ url, websocket_url = Some url → url ≠ "" → loopback url = true →
     out = (Ok true, w)) ∧
  (∀ url, websocket_url = Some url → url ≠ "" → loopback url = false →
     out = (Ok (acknowledges (http env (posts w))), posted w url username message)).
Proof.
  intros out loopback. subst out loopback. unfold send_websocket_notification.
  split_and!.
  - by intros ->.
  - intros url -> Hne Hlocal. apply truthy_true in Hne. simpl. by rewrite Hne, Hlocal.
  - intros url -> Hne Hlocal. apply truthy_true in Hne. simpl. rewrite Hne, Hlocal. simpl.
    unfold try_except, bind, requests_post, posted, acknowledges.
    destruct (http env (posts w)); simpl; [ by case_bool_decide | done ].
Qed.


End Facts.

End NotificationFacts.

(** ** What the reasoning entry point and the background task leave alone *)

Module IsolationFacts.
Import Service Observations ServiceFacts.

#[local] Instance touches_only_refl key : Reflexive (touches_only key).
Proof. by intros w. Qed.

#[local] Instance touches_only_trans key : Transitive (touches_only key).
Proof.
  intros w1 w2 w3 [Hk12 Hn12] [Hk23 Hn23]. split.
  - intros k Hk. by rewrite Hk23, Hk12.
  - intros Hn. by apply Hn23, Hn12.
Qed.

#[local] Instance store_kept_refl : Reflexive store_kept.
Proof. by intros w. Qed.

#[local] Instance store_kept_trans : Transitive store_kept.
Proof. intros w1 w2 w3 H12 H23. unfold store_kept in *. congruence. Qed.

#[local] Instance cache_touched_only_at_refl key : Reflexive (cache_touched_only_at key).
Proof. by intros w. Qed.

#[local] Instance cache_touched_only_at_trans key : Transitive (cache_touched_only_at key).
Proof. intros w1 w2 w3 H12 H23 k Hk. by rewrite H23, H12. Qed.

#[local] Instance cache_shrinks_at_refl key : Reflexive (cache_shrinks_at key).
Proof. intros w. by left. Qed.

#[local] Instance cache_shrinks_at_trans key : Transitive (cache_shrinks_at key).
Proof.
  intros w1 w2 w3 [H12|H12] [H23|H23]; unfold cache_shrinks_at; rewrite H23, H12.
  - by left.
  - by right.
  - by right.
  - right. apply delete_delete_eq.
Qed.

#[local] Instance cache_unchanged_refl : Reflexive cache_kept.
Proof. by intros w. Qed.

#[local] Instance cache_unchanged_trans : Transitive cache_kept.
Proof. intros w1 w2 w3 H12 H23. unfold cache_kept in *. congruence. Qed.

Section Facts.

Variable env : Env.

(** A relation that every step of [prompt] keeps is kept by [prompt].
    The steps are the progress updates, the reading of the cache (for a
    text prompt), the call of the engine, and, for a completion event with
    a push URL, the cache write and the notification. *)
Lemma prompt_always (R : World → World → Prop) `{!Reflexive R} `{!Transitive R}
    (user : User) (p : prompt_input) (websocket_url task_id : option string) :
  (∀ status message,
     always R (update_task_progress_from_agent env task_id status message)) →
  always R (engine_ env) →
  (∀ text, p = PromptText text → always R (get_cached_job_results env (name user))) →
  (∀ text, always R (emit (EvAgentCall text))) →
  (∀ ev text, p = PromptEvent ev → ev !! "type" = Some "glue_job_result" →
     truthy_opt websocket_url = true →
     always R (cache_put env user ev text) ∧
     always R (agent_send_websocket_notification env (name user) text websocket_url)) →
  always R (prompt env user p websocket_url task_id).
Proof.
  intros Hupd Hengine Hread Hcall Hput.
  assert (Hext : ∀ failure, always R (external_call failure)).
  { intros [msg|]; simpl; [ apply always_raise, _ | apply always_ret, _ ]. }
  unfold prompt.
  apply always_bind; [ apply _ | apply Hengine | intros run ].
  apply always_bind; [ apply _ | apply Hext | intros _ ].
  apply (always_bind_post _
           (λ p', match p with
                  | PromptText _ => ∃ text', p' = PromptText text'
                  | PromptEvent ev => p' = PromptEvent ev
                  end)).
  { unfold inject_cached_results. destruct p as [text|ev]; [ | apply always_ret, _ ].
    destruct (any_keyword_in _ _); [ | apply always_ret, _ ].
    apply always_bind; [ apply _ | by eapply Hread | ].
    intros cached. destruct (truthy cached); apply always_ret, _. }
  { intros w p' Hp'. destruct p as [text|ev].
    - destruct (inject_cached_results_text env user text w) as [text' Ht].
      exists text'. congruence.
    - simpl in Hp'. congruence. }
  intros p' Hp'.
  apply always_try_except; [ apply _ | | intros; apply always_ret, _ ].
  apply always_bind; [ apply _ | apply Hupd | intros _ ].
  apply always_bind; [ apply _ | apply Hext | intros _ ].
  apply always_bind; [ apply _ | apply Hupd | intros _ ].
  apply always_bind; [ apply _ | apply Hupd | intros _ ].
  apply always_bind; [ apply _ | apply Hext | intros _ ].
  apply always_bind; [ apply _ | apply Hupd | intros _ ].
  apply always_bind; [ apply _ | apply Hext | intros _ ].
  apply always_bind; [ apply _ | apply Hupd | intros _ ].
  apply always_bind; [ apply _ | apply Hcall | intros _ ].
  apply always_bind;
    [ apply _
    | destruct (agent_call run); [ apply always_ret, _ | apply always_raise, _ ]
    | intros response_text ].
  apply always_bind; [ apply _ | apply Hupd | intros _ ].
  apply always_bind; [ apply _ | | intros _; apply always_ret, _ ].
  destruct p as [text|ev].
  - destruct Hp' as [text' ->]. simpl. apply always_ret, _.
  - subst p'. case_bool_decide as Htype; simpl; [ | apply always_ret, _ ].
    destruct (truthy_opt websocket_url) eqn:Hurl; [ | apply always_ret, _ ].
    destruct (Hput ev response_text eq_refl Htype eq_refl) as [Hc Hs].
    apply always_bind; [ apply _ | | intros _ ].
    { apply always_try_except; [ apply _ | apply Hc | intros; apply always_ret, _ ]. }
    apply always_bind; [ apply _ | apply Hs | intros _; apply always_ret, _ ].
Qed.

(** *** Running [prompt] step by step *)

Lemma bind_ok {A B} (m : M A) (f : A → M B) (w : World) (a : A) (w1 : World) :
  m w = (Ok a, w1) → bind m f w = f a w1.
Proof. intros H. unfold bind. by rewrite H. Qed.

Lemma bind_raised {A B} (m : M A) (f : A → M B) (w : World) (e : exn) (w1 : World) :
  m w = (Raised e, w1) → bind m f w = (Raised e, w1).
Proof. intros H. unfold bind. by rewrite H. Qed.

(** A progress update returns; it leaves the cache and the counters of
    the engine and of the posts alone. *)
Lemma update_from_agent_run (task_id : option string) (status message : string)
    (w : World) :
  ∃ w1, update_task_progress_from_agent env task_id status message w = (Ok tt, w1) ∧
        completed_jobs_cache w1 = completed_jobs_cache w ∧ runs w1 = runs w.
Proof.
  unfold update_task_progress_from_agent.
  destruct (negb (truthy_opt task_id)); [ by exists w | ].
  destruct (s3 w !! task_key (default "" task_id)) as [d|] eqn:Hd.
  - rewrite (update_task_progress_found env w _ _ _ d) by done. by eexists.
  - rewrite update_task_progress_missing by done. by eexists.
Qed.

(** The prologue returns, with a prompt of the same kind; it leaves the
    engine counter alone, and an event is handed on as it is, in the same
    world. *)
Lemma inject_cached_results_run (user : User) (p : prompt_input) (w : World) :
  ∃ p' w1, inject_cached_results env user p w = (Ok p', w1) ∧
    match p with
    | PromptText _ => ∃ text', p' = PromptText text'
    | PromptEvent ev => p' = PromptEvent ev ∧ w1 = w
    end.
Proof.
  destruct p as [text|ev]; [ | by eexists _, _ ].
  destruct (inject_cached_results_text env user text w) as [text' Ht].
  destruct (inject_cached_results env user (PromptText text) w) as [r w1].
  simpl in Ht. subst r. exists (PromptText text'), w1. split; [ done | by eexists ].
Qed.

(** The cache write returns. *)
Lemma cache_put_run (user : User) (ev : gmap string string) (text : string) (w : World) :
  ∃ w1, try_except (cache_put env user ev text) (λ _, ret tt) w = (Ok tt, w1).
Proof. by eexists. Qed.

Lemma bind_external_some {B} (msg : string) (f : unit → M B) (w : World) :
  bind (external_call (Some msg)) f w = (Raised (Error msg), w).
Proof. done. Qed.

Lemma bind_external_none {B} (f : unit → M B) (w : World) :
  bind (external_call None) f w = f tt w.
Proof. done. Qed.

(** The cache write and the notification that follow the answer to a
    completion event return. *)
Lemma notify_stage_run (b : bool) (user : User) (ev : gmap string string)
    (text : string) (websocket_url : option string) (w : World) :
  ∃ w1,
    (if b then
       do try_except (cache_put env user ev text) (λ _, ret tt) in
       do agent_send_websocket_notification env (name user) text websocket_url in
       ret tt
     else ret tt) w = (Ok tt, w1).
Proof.
  destruct b; [ | by eexists ].
  destruct (cache_put_run user ev text w) as [w1 H1].
  rewrite (bind_ok _ _ w tt w1 H1).
  destruct (agent_send_websocket_notification_effect env w1 (name user) text websocket_url)
    as (sent & w2 & H2 & _).
  rewrite (bind_ok _ _ w1 sent w2 H2). by eexists.
Qed.

Ltac step_update :=
  match goal with
  | |- context [bind (update_task_progress_from_agent env ?t ?s ?m) ?f ?w] =>
      let w1 := fresh "w" in
      let H := fresh "Hstep" in
      let Hc := fresh "Hcache" in
      let Hr := fresh "Hruns" in
      destruct (update_from_agent_run t s m w) as (w1 & H & Hc & Hr);
      rewrite (bind_ok _ f w tt w1 H); clear H; cbv beta zeta
  end.

Ltac step_external H :=
  match goal with
  | |- context [bind (external_call ?failure) ?f ?w] =>
      destruct failure as [?msg|] eqn:H;
      [ rewrite (bind_external_some msg f w)
      | rewrite (bind_external_none f w); cbv beta zeta ]
  end.

Ltac failure_case :=
  cbn [fst snd]; unfold prompt_text_result, first_failure, cache_kept;
  repeat match goal with H : _ = Some _ |- _ => rewrite H; clear H
                    | H : _ = None |- _ => rewrite H; clear H
                    | H : _ = inr _ |- _ => rewrite H; clear H end;
  split;
    [ reflexivity
    | let ev := fresh "ev" in let Hev := fresh "Hev" in
      intros ev Hev _;
      match goal with Hc : ∀ ev0, _ = PromptEvent ev0 → _ |- _ => specialize (Hc ev Hev) end;
      unfold ret; cbn [snd]; congruence ].

(** What [prompt] returns: a failure before its [try] block is raised,
    every later failure is turned into the text of a normal answer.  When
    anything fails, an event prompt leaves the cache as it was. *)
Lemma prompt_run (w : World) (user : User) (p : prompt_input)
    (websocket_url task_id : option string) :
  let run := engine env (runs w) in
  let out := prompt env user p websocket_url task_id w in
  out.1 = match before_try run with
          | Some msg => Raised (Error msg)
          | None => Ok (prompt_text_result run)
          end ∧
  (∀ ev, p = PromptEvent ev →
     before_try run ≠ None ∨ first_failure run ≠ None → cache_kept w out.2).
Proof.
  intros run out. subst out. unfold prompt.
  rewrite (bind_ok (engine_ env) _ w run _ eq_refl).
  set (w0 := mkWorld _ _ _ _ _ _ _).
  assert (Hc0 : completed_jobs_cache w0 = completed_jobs_cache w) by done.
  clearbody w0. generalize dependent run. intros run.
  destruct (before_try run) as [msg|] eqn:Hbefore.
  { rewrite bind_external_some. split; [ done | ]. by intros ev _ _. }
  rewrite bind_external_none.
  destruct (inject_cached_results_run user p w0) as (p' & w1 & Hinject & Hp').
  rewrite (bind_ok _ _ w0 p' w1 Hinject). clear Hinject. unfold try_except.
  assert (Hc1 : ∀ ev, p = PromptEvent ev →
                      completed_jobs_cache w1 = completed_jobs_cache w).
  { intros ev ->. destruct Hp' as [_ ->]. done. }
  clear Hp'.
  step_update. step_external Hsm; [ failure_case | ].
  step_update. step_update. step_external Hmcp; [ failure_case | ].
  step_update. step_external Hcreate; [ failure_case | ].
  step_update.
  rewrite (bind_ok (emit _) _ _ tt _ eq_refl).
  set (w7 := mkWorld _ _ _ _ _ _ _).
  assert (Hc7 : completed_jobs_cache w7 = completed_jobs_cache w6) by done.
  clearbody w7.
  destruct (agent_call run) as [text|msg] eqn:Hcall; cbv beta match.
  2: { rewrite (bind_raised (raise (Error msg)) _ w7 (Error msg) w7 eq_refl).
       cbn [fst snd]. unfold prompt_text_result, first_failure, cache_kept.
       rewrite Hsm, Hmcp, Hcreate, Hcall.
       split; [ reflexivity | intros ev Hev _; specialize (Hc1 ev Hev); unfold ret; cbn [snd]; congruence ]. }
  rewrite (bind_ok (ret text) _ w7 text w7 eq_refl). cbv beta zeta.
  step_update.
  match goal with
  | |- context [bind (if ?b then _ else _) ?f ?w8] =>
      destruct (notify_stage_run b user
                  match p' with PromptEvent ev => ev | PromptText _ => ∅ end
                  text websocket_url w8) as [w9 Hnotify];
      erewrite (bind_ok _ f w8 tt w9); [ | exact Hnotify ]
  end.
  cbn [fst snd]. unfold prompt_text_result, first_failure.
  rewrite Hsm, Hmcp, Hcreate, Hcall. split; [ done | ].
  intros ev _ [H|H]; done.
Qed.

(** *** Steps that leave the store or the cache alone *)

Lemma get_cached_effect (username : string) (w : World) :
  let w' := (get_cached_job_results env username w).2 in
  s3 w' = s3 w ∧ cache_shrinks_at (lower username) w w'.
Proof.
  unfold cache_shrinks_at, get_cached_job_results, is_cache_entry_expired, bind, ret,
    get_world, set_cache, utcnow_; simpl.
  destruct (completed_jobs_cache w !! lower username) as [jd|]; simpl; [ | by split; [ | left ] ].
  destruct (truthy (dict_get jd "completion_time" "")); simpl; [ | by split; [ | right ] ].
  destruct (fromisoformat env _); simpl; [ | by split; [ | right ] ].
  case_bool_decide; simpl; by split; [ | right + left ].
Qed.

Lemma cache_shrinks_touches_only (key : string) (w w' : World) :
  cache_shrinks_at key w w' → cache_touched_only_at key w w'.
Proof.
  intros [H|H] k Hk; rewrite H; [ done | by apply lookup_delete_ne ].
Qed.

Lemma touches_only_silent (key : string) (w w' : World) :
  s3 w' = s3 w → touches_only key w w'.
Proof. intros H. unfold touches_only. rewrite H. by split. Qed.

Lemma touches_only_update (task_id status message : string) :
  always (touches_only (task_key task_id))
         (update_task_progress env task_id status message).
Proof.
  intros w. destruct (s3 w !! task_key task_id) as [d|] eqn:Hd.
  - rewrite (update_task_progress_found env w _ _ _ d) by done. simpl. split.
    + intros k Hk. by apply lookup_insert_ne.
    + simpl. congruence.
  - rewrite update_task_progress_missing by done. reflexivity.
Qed.

Lemma touches_only_send (key username message : string) (websocket_url : option string) :
  always (touches_only key)
         (send_websocket_notification env username message websocket_url).
Proof.
  intros w.
  destruct (send_websocket_notification_effect env w username message websocket_url)
    as (b & w' & H & Hs & _).
  rewrite H. by apply touches_only_silent.
Qed.

Lemma agent_send_effect (username message : string) (websocket_url : option string)
    (w : World) :
  let w' := (agent_send_websocket_notification env username message websocket_url w).2 in
  s3 w' = s3 w ∧ completed_jobs_cache w' = completed_jobs_cache w.
Proof.
  destruct (agent_send_websocket_notification_effect env w username message websocket_url)
    as (b & w' & H & Hs & Hc).
  by rewrite H.
Qed.

Lemma touches_only_prompt (user : User) (p : prompt_input)
    (websocket_url : option string) (task_id : string) :
  always (touches_only (task_key task_id))
         (prompt env user p websocket_url (Some task_id)).
Proof.
  apply prompt_always; try apply _.
  - intros status message. unfold update_task_progress_from_agent. simpl.
    destruct (truthy task_id); simpl; [ apply touches_only_update | apply always_ret, _ ].
  - intros w. by apply touches_only_silent.
  - intros text _ w. apply touches_only_silent, get_cached_effect.
  - intros text w. by apply touches_only_silent.
  - intros ev text _ _ _. split; intros w.
    + by apply touches_only_silent.
    + apply touches_only_silent, agent_send_effect.
Qed.

(** X10: a background task touches the task store only under the key of
    its own task, and it does not create the record: for a task id without
    a record the store stays as it is, and no other record is ever changed.
    This holds for the thread of web_app.py and for the asynchronous entry
    of app.py. *)
Theorem background_task_touches_only_its_record (w : World) (task_id : string)
    (user : User) (text : string) (websocket_url : option string) :
  touches_only (task_key task_id) w
    (process_agent_background env task_id user text websocket_url w).2 ∧
  touches_only (task_key task_id) w
    (handle_async_agent_processing env task_id user text websocket_url w).2.
Proof.
  split.
  - revert w. change (always (touches_only (task_key task_id))
                        (process_agent_background env task_id user text websocket_url)).
    unfold process_agent_background.
    apply always_try_except; [ apply _ | | intros e ].
    + apply always_bind; [ apply _ | apply touches_only_update | intros _ ].
      apply always_bind; [ apply _ | apply touches_only_prompt | intros response_text ].
      apply always_bind; [ apply _ | apply touches_only_update | intros _ ].
      apply always_bind; [ apply _ | apply touches_only_send | intros _ ].
      apply always_ret, _.
    + apply always_bind; [ apply _ | apply touches_only_update | intros _ ].
      apply always_bind; [ apply _ | apply touches_only_send | intros _ ].
      apply always_ret, _.
  - revert w. change (always (touches_only (task_key task_id))
                        (handle_async_agent_processing env task_id user text websocket_url)).
    unfold handle_async_agent_processing.
    apply always_try_except; [ apply _ | | intros e ].
    + apply always_bind; [ apply _ | apply touches_only_update | intros _ ].
      apply always_bind; [ apply _ | apply touches_only_prompt | intros response_text ].
      apply always_bind; [ apply _ | apply touches_only_update | intros _ ].
      apply always_bind; [ apply _ | apply touches_only_send | intros _ ].
      apply always_ret, _.
    + apply always_bind; [ apply _ | apply touches_only_update | intros _ ].
      apply always_bind; [ apply _ | apply touches_only_send | intros _ ].
      apply always_ret, _.
Qed.

Lemma update_from_agent_keeps_cache (R : World → World → Prop)
    (task_id : option string) (status message : string) :
  (∀ w w', completed_jobs_cache w' = completed_jobs_cache w → R w w') →
  always R (update_task_progress_from_agent env task_id status message).
Proof.
  intros HR w.
  destruct (update_from_agent_run task_id status message w) as (w1 & H & Hc & _).
  rewrite H. by apply HR.
Qed.

Lemma prompt_store_kept (user : User) (p : prompt_input)
    (websocket_url : option string) :
  always store_kept (prompt env user p websocket_url None).
Proof.
  apply prompt_always; try apply _.
  - intros status message. apply always_ret, _.
  - by intros w.
  - intros text _ w. apply get_cached_effect.
  - by intros text w.
  - intros ev text _ _ _. split; intros w; [ done | apply agent_send_effect ].
Qed.

Lemma prompt_cache_frame (w : World) (user : User) (p : prompt_input)
    (websocket_url task_id : option string) :
  cache_touched_only_at (lower (name user)) w
    (prompt env user p websocket_url task_id w).2.
Proof.
  revert w. change (always (cache_touched_only_at (lower (name user)))
                      (prompt env user p websocket_url task_id)).
  apply prompt_always; try apply _.
  - intros status message. apply update_from_agent_keeps_cache.
    intros w w' H k _. by rewrite H.
  - by intros w.
  - intros text _ w. apply cache_shrinks_touches_only, get_cached_effect.
  - by intros text w.
  - intros ev text _ _ _. split; intros w.
    + intros k Hk. simpl. by apply lookup_insert_ne.
    + intros k _. by rewrite (proj2 (agent_send_effect _ _ _ w)).
Qed.


(** X11: [prompt] changes the result cache at most under the lower-cased
    name of its user, whatever the prompt, the URL and the task; a text
    prompt never writes the cache: the most it does is to remove the user's
    own entry (when a status-style query finds it expired). *)
Theorem prompt_cache_isolation (w : World) (user : User) (p : prompt_input)
    (websocket_url task_id : option string) :
  let out := prompt env user p websocket_url task_id w in
  (∀ other, other ≠ lower (name user) →
     completed_jobs_cache out.2 !! other = completed_jobs_cache w !! other) ∧
  (∀ text, p = PromptText text →
     completed_jobs_cache out.2 = completed_jobs_cache w ∨
     completed_jobs_cache out.2 = delete (lower (name user)) (completed_jobs_cache w)).
Proof.
  intros out. subst out. split.
  - apply prompt_cache_frame.
  - intros text ->. revert w.
    change (always (cache_shrinks_at (lower (name user)))
              (prompt env user (PromptText text) websocket_url task_id)).
    apply prompt_always; try apply _.
    + intros status message. apply update_from_agent_keeps_cache.
      intros w w' H. by left.
    + intros w. by left.
    + intros text' _ w. apply get_cached_effect.
    + intros text' w. by left.
    + by intros ev text' [=].
Qed.

(** X12: [prompt] raises only for a failure before its [try] block.  A
    failure of the session manager, of the tools, of the agent creation or
    of the agent call is returned as the text "Failed to process request: "
    followed by the message of the first of them, as if it were an answer;
    otherwise the answer of the agent is returned. *)
Theorem prompt_turns_failures_into_text (w : World) (user : User) (p : prompt_input)
    (websocket_url task_id : option string) :
  let run := engine env (runs w) in
  let out := prompt env user p websocket_url task_id w in
  (∀ msg, before_try run = Some msg → out.1 = Raised (Error msg)) ∧
  (∀ msg, before_try run = None → first_failure run = Some msg →
     out.1 = Ok ("Failed to process request: " +:+ msg)) ∧
  (∀ text, before_try run = None → first_failure run = None →
     agent_call run = inl text → out.1 = Ok text).
Proof.
  intros run out.
  destruct (prompt_run w user p websocket_url task_id) as [H _]. fold run out in H.
  rewrite H. unfold prompt_text_result. split_and!.
  - by intros msg ->.
  - by intros msg -> ->.
  - by intros text -> -> ->.
Qed.

(** X13: the result cache is written only in answer to a completion
    event: when an event prompt leaves the cache different from what it was,
    the event has the type glue_job_result, a non-empty push URL was given,
    and the engine answered without any failure, which is the response
    returned. *)
Theorem cache_written_only_for_answered_completion_event (w : World) (user : User)
    (ev : gmap string string) (websocket_url task_id : option string) :
  let run := engine env (runs w) in
  let out := prompt env user (PromptEvent ev) websocket_url task_id w in
  completed_jobs_cache out.2 ≠ completed_jobs_cache w →
  ev !! "type" = Some "glue_job_result" ∧
  truthy_opt websocket_url = true ∧
  before_try run = None ∧ first_failure run = None ∧
  ∃ text, agent_call run = inl text ∧ out.1 = Ok text.
Proof.
  intros run out Hchanged.
  destruct (prompt_run w user (PromptEvent ev) websocket_url task_id) as [Hres Hkept].
  fold run out in Hres, Hkept.
  assert (Hguard : ev !! "type" = Some "glue_job_result" ∧ truthy_opt websocket_url = true).
  { destruct (decide (ev !! "type" = Some "glue_job_result")) as [Ht|Ht];
      destruct (truthy_opt websocket_url) eqn:Hu; try done; exfalso; apply Hchanged.
    all: subst out; revert w run Hchanged Hres Hkept; intros w _ _ _ _;
      revert w;
      change (always cache_kept (prompt env user (PromptEvent ev) websocket_url task_id));
      apply prompt_always; try apply _;
      [ intros status message; apply update_from_agent_keeps_cache; by intros
      | by intros w
      | by intros text [=]
      | by intros text w
      | intros ev' text [= <-] Ht' Hu'; congruence ]. }
  destruct Hguard as [Ht Hu]. split; [ done | ]. split; [ done | ].
  destruct (before_try run) as [msg|] eqn:Hb.
  { exfalso. apply Hchanged, (Hkept ev eq_refl). by left. }
  destruct (first_failure run) as [msg|] eqn:Hf.
  { exfalso. apply Hchanged, (Hkept ev eq_refl). by right. }
  split; [ done | ]. split; [ done | ].
  unfold prompt_text_result in Hres. rewrite Hf in Hres.
  destruct (agent_call run) as [text|msg] eqn:Hcall.
  - by exists text.
  - unfold first_failure in Hf. rewrite Hcall in Hf.
    by destruct (session_manager run), (mcp_tools run), (agent_creation run).
Qed.

Lemma update_task_progress_runs (task_id status message : string) (w : World) :
  runs (update_task_progress env task_id status message w).2 = runs w.
Proof.
  destruct (s3 w !! task_key task_id) as [d|] eqn:Hd.
  - by rewrite (update_task_progress_found env w _ _ _ d).
  - by rewrite update_task_progress_missing.
Qed.

(** X14: what a background task records for a failure.  For a task whose
    record exists, the final record has status FAILED only when [prompt]
    fails before its [try] block; a failure of the session manager, the
    tools, the agent creation or the agent call is recorded with status
    COMPLETED and the text "Failed to process request: ..." as progress;
    an answer of the agent is recorded with status COMPLETED. *)
Theorem task_reports_engine_failure_as_completed (w : World) (task_id : string)
    (user : User) (text : string) (websocket_url : option string)
    (d0 : gmap string string) :
  s3 w !! task_key task_id = Some d0 →
  let run := engine env (runs w) in
  let w' := (process_agent_background env task_id user text websocket_url w).2 in
  ∃ d, s3 w' !! task_key task_id = Some d ∧
    (∀ msg, before_try run = Some msg →
       d !! "status" = Some "FAILED" ∧
       d !! "progress" = Some ("Processing failed: " +:+ msg)) ∧
    (∀ msg, before_try run = None → first_failure run = Some msg →
       d !! "status" = Some "COMPLETED" ∧
       d !! "progress" = Some ("Failed to process request: " +:+ msg)) ∧
    (∀ answer, before_try run = None → first_failure run = None →
       agent_call run = inl answer →
       d !! "status" = Some "COMPLETED" ∧ d !! "progress" = Some answer).
Proof.
  intros Hd0 run w'.
  destruct (process_agent_background_shape env w task_id user text websocket_url d0 Hd0)
    as (w1 & Hrun & evs_pre & d & evs_post & _ & _ & Hstatus & Hprogress & _ & Hd & _).
  assert (Hw' : w' = w1) by (subst w'; by rewrite Hrun). rewrite Hw'. clear Hw' Hrun.
  exists d. split; [ done | ].
  unfold prompt_outcome in Hstatus, Hprogress.
  destruct (prompt_run
              (update_task_progress env task_id "PROCESSING"
                 "Agent is analyzing your request..." w).2
              user (PromptText text) websocket_url (Some task_id)) as [Hres _].
  rewrite update_task_progress_runs in Hres. fold run in Hres.
  rewrite Hres in Hstatus, Hprogress. unfold prompt_text_result in *.
  split_and!.
  - intros msg Hb. rewrite Hb in *. done.
  - intros msg Hb Hf. rewrite Hb, Hf in *. done.
  - intros answer Hb Hf Hcall. rewrite Hb, Hf, Hcall in *. done.
Qed.


End Facts.

End IsolationFacts.

(** ** The terminal write and the notification *)

Module OrderingFacts.
Import Service Observations ServiceFacts.

#[local] Instance nothing_written_refl : Reflexive nothing_written.
Proof.
  intros w. split; [ done | ]. exists []. split; [ by rewrite app_nil_r | constructor ].
Qed.

#[local] Instance nothing_written_trans : Transitive nothing_written.
Proof.
  intros w1 w2 w3 [Hs12 (e12 & Ht12 & Hf12)] [Hs23 (e23 & Ht23 & Hf23)]. split.
  - congruence.
  - exists (e12 ++ e23). split; [ by rewrite Ht23, Ht12, app_assoc | by apply Forall_app ].
Qed.

#[local] Instance unrecorded_refl key : Reflexive (unrecorded key).
Proof. intros w _. reflexivity. Qed.

#[local] Instance unrecorded_trans key : Transitive (unrecorded key).
Proof.
  intros w1 w2 w3 H12 H23 Hnone. specialize (H12 Hnone).
  etrans; [ exact H12 | ]. apply H23. destruct H12 as [Hs _]. by rewrite Hs.
Qed.

Section Facts.

Variable env : Env.







End Facts.

End OrderingFacts.

(** ** The endpoints of web_app.py: more properties *)

Module EndpointFacts.
Import Service Observations Routing ServiceFacts.

Section Facts.

Variable env : Env.

(** The token check does not look at the world. *)
Lemma get_user_from_token_any_world (auth_header : option string) (w w' : World) :
  (get_user_from_token env auth_header w').1 = (get_user_from_token env auth_header w).1.
Proof.
  unfold get_user_from_token.
  destruct (negb (truthy_opt auth_header) || _); [ done | ].
  destruct (negb (jwks_client env)); [ done | ].
  by destruct (jwt_decode env _).
Qed.

(** X16: the task-status endpoint never raises and never changes the
    world.  An answer 200 always carries a stored record whose user_id is
    the id of the authenticated requester; every other answer carries
    nothing but an error message. *)
Theorem task_status_discloses_only_own_records (w : World)
    (auth_header : option string) (task_id : string) :
  let out := get_task_status env auth_header task_id w in
  out.2 = w ∧
  ∃ code body, out.1 = Ok (code, body) ∧
    (code = 200%Z →
       ∃ user, (get_user_from_token env auth_header w).1 = Ok user ∧
               s3 w !! task_key task_id = Some body ∧
               body !! "user_id" = Some (id user)) ∧
    (code ≠ 200%Z → ∃ msg, body = {[ "error" := msg ]}).
Proof.
  intros out. subst out.
  pose proof (get_user_from_token_world env auth_header w) as Hw.
  pose proof (get_user_from_token_raises env auth_header w) as Hraise.
  unfold get_task_status, try_except, bind, s3_get_object.
  destruct (get_user_from_token env auth_header w) as [[user|e] w']; simpl in *; subst w'.
  - destruct (s3 w !! task_key task_id) as [d|] eqn:Hd; simpl.
    + case_bool_decide as Howner; simpl.
      * split; [ done | ]. eexists _, _. split; [ done | ]. split; [ done | by eexists ].
      * split; [ done | ]. eexists _, _. split; [ done | ]. split; [ | done ].
        intros _. exists user. split; [ done | ]. split; [ done | ].
        destruct (decide (d !! "user_id" = Some (id user))); [ done | by destruct Howner ].
    + split; [ done | ]. eexists _, _. split; [ done | ]. split; [ done | by eexists ].
  - destruct (Hraise e eq_refl) as [msg ->]. simpl.
    split; [ done | ]. eexists _, _. split; [ done | ]. split; [ done | by eexists ].
Qed.

(** The record [create_task_session] writes. *)
Lemma create_task_session_run (user_id username prompt_text : string) (w : World) :
  let task_id := uuid4 env (uuids w) in
  ∃ record w',
    create_task_session env user_id username prompt_text w = (Ok task_id, w') ∧
    s3 w' = <[task_key task_id := record]> (s3 w) ∧
    completed_jobs_cache w' = completed_jobs_cache w ∧
    record !! "task_id" = Some task_id ∧
    record !! "status" = Some "STARTED" ∧
    record !! "user_id" = Some user_id ∧
    record !! "username" = Some username ∧
    record !! "prompt" = Some prompt_text.
Proof.
  intros task_id.
  unfold create_task_session, try_except, bind, uuid4_, utcnow_, s3_put_object,
    get_world, set_s3, emit, ret.
  cbv beta iota zeta. eexists _, _. split; [ reflexivity | ].
  cbn [s3 completed_jobs_cache].
  split; [ done | ]. split; [ done | ].
  split_and!; by simplify_map_eq.
Qed.

(** The status endpoint for an authenticated requester and a stored
    record. *)
Lemma get_task_status_run (w : World) (auth_header : option string) (task_id : string)
    (user : User) (record : gmap string string) :
  (get_user_from_token env auth_header w).1 = Ok user →
  s3 w !! task_key task_id = Some record →
  (get_task_status env auth_header task_id w).1 =
    if bool_decide (record !! "user_id" = Some (id user))
    then Ok (200%Z, record)
    else Ok (403%Z, {[ "error" := "Access denied" ]}).
Proof.
  intros Hauth Hrecord.
  pose proof (get_user_from_token_world env auth_header w) as Hw.
  unfold get_task_status, try_except, bind, s3_get_object.
  destruct (get_user_from_token env auth_header w) as [r w']. simpl in *. subst.
  rewrite Hrecord. by repeat case_bool_decide.
Qed.

(** A record that carries the user's id and the prompt is served to that
    user, with its status, and refused to every requester with another
    id. *)
Lemma record_visible_to_owner (w : World) (auth_header : option string)
    (task_id : string) (user : User) (record : gmap string string) :
  (get_user_from_token env auth_header w).1 = Ok user →
  s3 w !! task_key task_id = Some record →
  record !! "user_id" = Some (id user) →
  (get_task_status env auth_header task_id w).1 = Ok (200%Z, record) ∧
  (∀ other_header other,
     (get_user_from_token env other_header w).1 = Ok other →
     id other ≠ id user →
     (get_task_status env other_header task_id w).1 =
       Ok (403%Z, {[ "error" := "Access denied" ]})).
Proof.
  intros Hauth Hrecord Howner. split.
  - rewrite (get_task_status_run w _ _ user record Hauth Hrecord).
    by rewrite bool_decide_eq_true_2.
  - intros other_header other Hother Hne.
    rewrite (get_task_status_run w _ _ other record Hother Hrecord).
    rewrite bool_decide_eq_false_2; [ done | ]. congruence.
Qed.

(** X17: a request that is accepted for background processing can be
    followed by its owner and by nobody else, before and after the
    background thread has run.  For an authenticated user and an ASCII text
    that is not a simple message, the endpoint answers 200 with a fresh
    task id and starts a thread with that id, that user and the composite
    prompt.  In the state the endpoint leaves, which is the state before
    the first write of the thread, the record of the task has status
    STARTED; after the first write of the thread it has status PROCESSING;
    after the thread has run to its end it has status COMPLETED or FAILED.
    In each of these states the record carries the requester's id and the
    composite prompt, the status endpoint answers the requester 200 with
    the record, and it answers any requester with another id 403. *)
Theorem accepted_request_is_visible_to_its_owner (w : World) (req : agent_request)
    (user : User) (text : string) (websocket_url : option string) :
  (get_user_from_token env (authorization req) w).1 = Ok user →
  json req = BodyWithText text websocket_url →
  is_ascii text = true →
  is_simple_message text = false →
  let out := process_agent_request env req w in
  let task_id := uuid4 env (uuids w) in
  let prompt_text := composite_prompt user (client_ip req) text in
  let followed := λ (w' : World) (status : string),
    ∃ record,
      (get_task_status env (authorization req) task_id w').1 = Ok (200%Z, record) ∧
      record !! "status" = Some status ∧
      record !! "user_id" = Some (id user) ∧
      record !! "prompt" = Some prompt_text ∧
      (∀ other_header other,
         (get_user_from_token env other_header w').1 = Ok other →
         id other ≠ id user →
         (get_task_status env other_header task_id w').1 =
           Ok (403%Z, {[ "error" := "Access denied" ]})) in
  ∃ body job,
    out.1 = Ok (200%Z, body, Some job) ∧
    body !! "task_id" = Some task_id ∧
    body !! "processing_type" = Some "async" ∧
    job_task_id job = task_id ∧ job_user job = user ∧ job_prompt job = prompt_text ∧
    followed out.2 "STARTED" ∧
    followed (update_task_progress env task_id "PROCESSING"
                "Agent is analyzing your request..." out.2).2 "PROCESSING" ∧
    ∃ status, terminal_status status ∧ followed (run_job env job out.2).2 status.
Proof.
  intros Hauth Hjson _ Hsimple out task_id prompt_text followed. subst out.
  pose proof (get_user_from_token_world env (authorization req) w) as Hw.
  unfold process_agent_request, try_except, bind.
  destruct (get_user_from_token env (authorization req) w) as [r w0] eqn:Htoken.
  simpl in Hauth, Hw. subst r w0. rewrite Hjson, Hsimple.
  destruct (create_task_session_run (id user) (name user) prompt_text w)
    as (record & w' & Hcreate & Hs3 & _ & _ & Hstatus & Huser & _ & Hprompt).
  fold prompt_text. rewrite Hcreate. fold task_id.
  unfold ret. cbv beta match zeta. cbn [fst snd].
  set (url := if truthy_opt websocket_url then websocket_url else WEB_APP_NOTIFY_URL env).
  eexists _, _. split; [ reflexivity | ].
  split. { destruct url; by simplify_map_eq. }
  split. { destruct url; by simplify_map_eq. }
  split; [ done | ]. split; [ done | ]. split; [ done | ].
  assert (Hrecord : s3 w' !! task_key task_id = Some record).
  { rewrite Hs3. apply lookup_insert_eq. }
  assert (Hany : ∀ w2, (get_user_from_token env (authorization req) w2).1 = Ok user).
  { intros w2. rewrite (get_user_from_token_any_world _ w w2). by rewrite Htoken. }
  assert (Hfollowed : ∀ w2 record2 status,
            s3 w2 !! task_key task_id = Some record2 →
            same_identity record record2 →
            record2 !! "status" = Some status →
            followed w2 status).
  { intros w2 record2 status Hrec2 Hsame Hst2.
    assert (Huser2 : record2 !! "user_id" = Some (id user)).
    { rewrite <- Huser. apply (same_identity_fields _ _ Hsame).
      unfold identity_fields. rewrite !elem_of_cons. tauto. }
    assert (Hprompt2 : record2 !! "prompt" = Some prompt_text).
    { rewrite <- Hprompt. apply (same_identity_fields _ _ Hsame).
      unfold identity_fields. rewrite !elem_of_cons. tauto. }
    destruct (record_visible_to_owner w2 (authorization req) task_id user record2
                (Hany w2) Hrec2 Huser2) as [Hmine Hothers].
    exists record2. by split_and!. }
  split_and!.
  - by apply (Hfollowed w' record "STARTED").
  - rewrite (update_task_progress_found env w' task_id "PROCESSING" _ record Hrecord).
    cbn [snd]. eapply Hfollowed.
    + cbn [s3]. apply lookup_insert_eq.
    + apply session_update_identity.
    + apply session_update_status.
  - unfold run_job. cbn [job_task_id job_user job_prompt job_websocket_url].
    destruct (process_agent_background_shape env w' task_id user prompt_text url record
                Hrecord)
      as (w2 & Hrun & evs_pre & d_term & evs_post & _ & _ & Hst & _ & Hsame & Hterm & _).
    rewrite Hrun. cbn [snd]. eexists. split; [ apply terminal_record_status | ].
    by apply (Hfollowed w2 d_term).
Qed.

(** X18: the agent endpoint never raises, and the task store changes
    exactly when a task is announced.  A response with a job for the
    background has status 200 and carries the job's task id, and the store
    has gained, under that task's key, a record with status STARTED, the
    job's user and the job's prompt; every other response (the immediate
    answer, 400, 401, 500) carries no task id and leaves the store as it
    was.  A refused token is answered 401, and then nothing at all has
    happened. *)
Theorem announced_task_has_record_and_job (w : World) (req : agent_request) :
  let out := process_agent_request env req w in
  ∃ code body job,
    out.1 = Ok (code, body, job) ∧
    match job with
    | Some j =>
        code = 200%Z ∧ body !! "task_id" = Some (job_task_id j) ∧
        ∃ record, s3 out.2 = <[task_key (job_task_id j) := record]> (s3 w) ∧
                  record !! "status" = Some "STARTED" ∧
                  record !! "user_id" = Some (id (job_user j)) ∧
                  record !! "prompt" = Some (job_prompt j)
    | None => body !! "task_id" = None ∧ s3 out.2 = s3 w
    end ∧
    (∀ e, (get_user_from_token env (authorization req) w).1 = Raised e →
       code = 401%Z ∧ out.2 = w).
Proof.
  intros out. subst out.
  pose proof (get_user_from_token_world env (authorization req) w) as Hw.
  pose proof (get_user_from_token_raises env (authorization req) w) as Hraise.
  unfold process_agent_request, try_except, bind.
  destruct (get_user_from_token env (authorization req) w) as [[user|e] w0];
    simpl in Hw, Hraise; subst w0.
  2: { destruct (Hraise e eq_refl) as [msg ->]. cbn.
       eexists _, _, _. split; [ reflexivity | ]. by split. }
  destruct (json req) as [msg| |text websocket_url_field].
  1, 2: cbn; eexists _, _, _; (split; [ reflexivity | ]); by split.
  destruct (is_simple_message text).
  - set (url := if truthy_opt _ then _ else _).
    pose proof (IsolationFacts.prompt_store_kept env user
                  (PromptText (composite_prompt user (client_ip req) text)) url w) as Hs.
    destruct (prompt env user (PromptText (composite_prompt user (client_ip req) text))
                url None w) as [[response|e] w1]; simpl in Hs; cbn.
    + eexists _, _, _. split; [ reflexivity | ]. by split.
    + destruct e; cbn; eexists _, _, _; (split; [ reflexivity | ]); by split.
  - destruct (create_task_session_run (id user) (name user)
                (composite_prompt user (client_ip req) text) w)
      as (record & w' & Hcreate & Hs3 & _ & _ & Hstatus & Huser & _ & Hprompt).
    rewrite Hcreate. unfold ret. cbv beta match zeta. cbn [fst snd].
    eexists _, _, _. split; [ reflexivity | ]. cbn [job_task_id job_user job_prompt].
    split; [ | done ].
    split; [ done | ].
    split. { destruct (if truthy_opt _ then _ else _); by simplify_map_eq. }
    by exists record.
Qed.

End Facts.

End EndpointFacts.

(** ** Reads of the result cache: more properties *)

Module CacheReadFacts.
Import Service Observations.

Section Facts.

Variable env : Env.

(** X19: a read of the result cache never raises and touches neither
    the task store, nor the trace, nor the entry of any other user.  An
    absent answer is final: after it the user has no entry, and an
    immediate second read answers absent again and changes nothing.  An
    answer that is not absent is the formatted entry of the user, and the
    cache is left as it was. *)
Theorem cache_read_absent_is_final (w : World) (username : string) :
  let out := get_cached_job_results env username w in
  let key := lower username in
  s3 out.2 = s3 w ∧ trace out.2 = trace w ∧
  (∀ other, other ≠ key →
     completed_jobs_cache out.2 !! other = completed_jobs_cache w !! other) ∧
  ∃ text, out.1 = Ok text ∧
    (text = "" →
       completed_jobs_cache out.2 !! key = None ∧
       get_cached_job_results env username out.2 = (Ok "", out.2)) ∧
    (text ≠ "" →
       ∃ entry, completed_jobs_cache w !! key = Some entry ∧
                text = format_cached entry ∧
                completed_jobs_cache out.2 = completed_jobs_cache w).
Proof.
  intros out key. subst out.
  assert (Hdeleted : ∀ ticks',
    let w' := mkWorld (s3 w) (delete key (completed_jobs_cache w))
                      (trace w) ticks' (posts w) (runs w) (uuids w) in
    s3 w' = s3 w ∧ trace w' = trace w ∧
    (∀ other, other ≠ key →
       completed_jobs_cache w' !! other = completed_jobs_cache w !! other) ∧
    ∃ text, Ok "" = Ok text ∧
      (text = "" →
         completed_jobs_cache w' !! key = None ∧
         get_cached_job_results env username w' = (Ok "", w')) ∧
      (text ≠ "" →
         ∃ entry, completed_jobs_cache w !! key = Some entry ∧
                  text = format_cached entry ∧
                  completed_jobs_cache w' = completed_jobs_cache w)).
  { intros ticks' w'. split; [ done | ]. split; [ done | ].
    split; [ intros other Hother; by apply lookup_delete_ne | ].
    exists "". split; [ done | ]. split; [ | done ]. intros _.
    assert (Hnone : completed_jobs_cache w' !! lower username = None)
      by apply lookup_delete_eq.
    split; [ done | by apply CacheFacts.get_absent ]. }
  destruct (completed_jobs_cache w !! key) as [entry|] eqn:Hentry.
  2: { rewrite CacheFacts.get_absent by done. simpl.
       split; [ done | ]. split; [ done | ]. split; [ done | ].
       exists "". split; [ done | ]. split; [ | done ]. intros _.
       split; [ done | by apply CacheFacts.get_absent ]. }
  destruct (decide (dict_get entry "completion_time" "" = "")) as [Hstamp|Hstamp].
  { rewrite (CacheFacts.get_no_timestamp env w username entry) by done.
    apply Hdeleted. }
  destruct (fromisoformat env (replace_Z (dict_get entry "completion_time" "")))
    as [completion_time|] eqn:Hparse.
  2: { rewrite (CacheFacts.get_unparseable env w username entry) by done.
       apply Hdeleted. }
  rewrite (CacheFacts.get_parsed env w username entry completion_time) by done.
  case_bool_decide; [ apply Hdeleted | ]. simpl.
  split; [ done | ]. split; [ done | ]. split; [ done | ].
  exists (format_cached entry). split; [ done | ]. split.
  - intros Hempty. by destruct (CacheFacts.format_cached_nonempty entry).
  - intros _. by exists entry.
Qed.

End Facts.

End CacheReadFacts.

(** ** The request classifier of web_app.py *)

Module RoutingFacts.
Import Routing.

Lemma is_space_lower_ascii (c : Ascii.ascii) : is_space (lower_ascii c) = is_space c.
Proof. by destruct c as [[] [] [] [] [] [] [] []]. Qed.

Lemma lower_ascii_idemp (c : Ascii.ascii) : lower_ascii (lower_ascii c) = lower_ascii c.
Proof. by destruct c as [[] [] [] [] [] [] [] []]. Qed.

Lemma lower_idemp (s : string) : lower (lower s) = lower s.
Proof. induction s as [|c s IH]; simpl; [ done | ]. by rewrite lower_ascii_idemp, IH. Qed.

Lemma is_continuation_lower_ascii (c : Ascii.ascii) :
  is_continuation (lower_ascii c) = is_continuation c.
Proof. by destruct c as [[] [] [] [] [] [] [] []]. Qed.

Lemma lower_length (s : string) : str_len (lower s) = str_len s.
Proof.
  induction s as [|c s IH]; [ done | ].
  cbn [lower str_len]. by rewrite is_continuation_lower_ascii, IH.
Qed.

Lemma lower_app (s t : string) : lower (s +:+ t) = lower s +:+ lower t.
Proof. induction s as [|c s IH]; simpl; [ done | ]. by rewrite IH. Qed.

Lemma lstrip_lower (s : string) : lstrip (lower s) = lower (lstrip s).
Proof.
  induction s as [|c s IH]; simpl; [ done | ].
  rewrite is_space_lower_ascii. by destruct (is_space c).
Qed.

Lemma rstrip_lower (s : string) : rstrip (lower s) = lower (rstrip s).
Proof.
  induction s as [|c s IH]; simpl; [ done | ].
  rewrite IH, is_space_lower_ascii.
  destruct (rstrip s); simpl; [ by destruct (is_space c) | done ].
Qed.

Lemma strip_lower (s : string) : strip (lower s) = lower (strip s).
Proof. unfold strip. by rewrite lstrip_lower, rstrip_lower. Qed.

Lemma rstrip_idemp (s : string) : rstrip (rstrip s) = rstrip s.
Proof.
  induction s as [|c s IH]; simpl; [ done | ].
  destruct (rstrip s) as [|c' r] eqn:Hr.
  - destruct (is_space c) eqn:Hc; simpl; [ done | by rewrite Hc ].
  - change (rstrip (String c (String c' r))) with
      (match rstrip (String c' r) with
       | EmptyString => if is_space c then EmptyString else String c EmptyString
       | r0 => String c r0
       end).
    by rewrite IH.
Qed.

Lemma lstrip_starts_unspaced (s : string) : starts_unspaced (lstrip s) = true.
Proof. induction s as [|c s IH]; simpl; [ done | ]. destruct (is_space c) eqn:Hc; simpl; [ done | by rewrite Hc ]. Qed.

Lemma lstrip_unspaced (s : string) : starts_unspaced s = true → lstrip s = s.
Proof. destruct s as [|c s]; simpl; [ done | ]. destruct (is_space c); simpl; done. Qed.

Lemma rstrip_starts_unspaced (s : string) :
  starts_unspaced s = true → starts_unspaced (rstrip s) = true.
Proof.
  destruct s as [|c s]; cbn [starts_unspaced rstrip]; [ done | ]. intros Hc.
  destruct (rstrip s); cbn [starts_unspaced]; [ | done ].
  destruct (is_space c) eqn:E; cbn [starts_unspaced]; rewrite ?E; done.
Qed.

Lemma strip_idemp (s : string) : strip (strip s) = strip s.
Proof.
  unfold strip.
  rewrite (lstrip_unspaced (rstrip (lstrip s))).
  - apply rstrip_idemp.
  - apply rstrip_starts_unspaced, lstrip_starts_unspaced.
Qed.

(** X20: on ASCII text, where [lower], [strip] and the length are
    Python's, the classifier of web_app.py looks at a text only through its
    lower-cased, stripped form: a text, its lower-cased form and its
    stripped form are classified alike. *)
Theorem is_simple_message_ignores_case_and_margin (text : string) :
  is_ascii text = true →
  is_simple_message (lower text) = is_simple_message text ∧
  is_simple_message (strip text) = is_simple_message text.
Proof.
  intros _. unfold is_simple_message. split.
  - by rewrite lower_idemp, strip_lower, lower_length.
  - by rewrite strip_idemp, <- strip_lower, strip_idemp.
Qed.

Lemma rstrip_app (a b : string) :
  rstrip (a +:+ b) =
    match rstrip b with
    | EmptyString => rstrip a
    | r => a +:+ r
    end.
Proof.
  induction a as [|c a IH].
  - change ("" +:+ b) with b. by destruct (rstrip b).
  - change (rstrip (String c a +:+ b)) with
      (match rstrip (a +:+ b) with
       | EmptyString => if is_space c then EmptyString else String c EmptyString
       | r => String c r
       end).
    rewrite IH. destruct (rstrip b) as [|x r]; [ done | ].
    by destruct a.
Qed.

Lemma lstrip_app (a b : string) :
  lstrip (a +:+ b) =
    match lstrip a with
    | EmptyString => lstrip b
    | l => l +:+ b
    end.
Proof.
  induction a as [|c a IH]; [ done | ].
  change (lstrip (String c a +:+ b))
    with (if is_space c then lstrip (a +:+ b) else String c (a +:+ b)).
  change (lstrip (String c a)) with (if is_space c then lstrip a else String c a).
  destruct (is_space c); [ apply IH | done ].
Qed.

Lemma prefix_app (a b : string) : String.prefix a (a +:+ b) = true.
Proof.
  induction a as [|c a IH]; simpl; [ by destruct b | ].
  by destruct (Ascii.ascii_dec c c).
Qed.

Lemma ends_with_app (a b : string) : ends_with a (b +:+ a) = true.
Proof.
  induction b as [|c b IH].
  - destruct a; simpl; by rewrite ?Ascii.eqb_refl, ?String.eqb_refl.
  - change (ends_with a (String c b +:+ a))
      with (String.eqb a (String c (b +:+ a)) || ends_with a (b +:+ a)).
    rewrite IH. apply orb_true_r.
Qed.

Lemma append_assoc (a b c : string) : a +:+ (b +:+ c) = (a +:+ b) +:+ c.
Proof.
  induction a as [|x a IH]; [ done | ].
  change (String x (a +:+ b +:+ c) = String x ((a +:+ b) +:+ c)). by rewrite IH.
Qed.

Lemma simple_patterns_shape :
  Forall (λ p, lower p = p ∧ rstrip p = p ∧ starts_unspaced p = true ∧ p ≠ "")
         simple_patterns.
Proof. unfold simple_patterns. repeat constructor; done. Qed.

Lemma is_simple_message_of_match (text pattern : string) :
  pattern ∈ simple_patterns →
  matches_pattern (strip (lower text)) pattern = true →
  is_simple_message text = true.
Proof.
  intros Hin Hmatch. unfold is_simple_message.
  destruct (_ && _); [ done | ].
  apply existsb_exists. exists pattern. split; [ by apply list_elem_of_In | done ].
Qed.

(** X21: a text that starts with one of the conversational patterns
    followed by a space, or that ends with a space followed by one of them,
    is classified as a simple message, whatever its length and whatever
    else it contains (a long SQL request that begins with "no " is answered
    on the synchronous path). *)
Theorem pattern_at_either_end_is_simple (pattern rest : string) :
  pattern ∈ simple_patterns →
  is_simple_message (pattern +:+ " " +:+ rest) = true ∧
  is_simple_message (rest +:+ " " +:+ pattern) = true.
Proof.
  intros Hin.
  pose proof simple_patterns_shape as Hshape.
  rewrite Forall_forall in Hshape.
  destruct (Hshape pattern Hin) as (Hlower & Hrstrip & Hstart & Hne).
  split; apply (is_simple_message_of_match _ pattern Hin); unfold matches_pattern, strip.
  - rewrite !lower_app, Hlower. change (lower " ") with " ".
    rewrite lstrip_unspaced by (by destruct pattern).
    rewrite rstrip_app.
    change (rstrip (" " +:+ lower rest)) with
      (match rstrip (lower rest) with
       | EmptyString => EmptyString
       | r => String " "%char r
       end).
    destruct (rstrip (lower rest)) as [|x r].
    + by rewrite Hrstrip, String.eqb_refl.
    + change (pattern +:+ String " " (String x r))
        with (pattern +:+ (" " +:+ String x r)).
      rewrite append_assoc, prefix_app. by rewrite orb_true_r.
  - rewrite !lower_app, Hlower. change (lower " ") with " ".
    rewrite lstrip_app.
    destruct (lstrip (lower rest)) as [|x l] eqn:Hl.
    + change (lstrip (" " +:+ pattern)) with (lstrip pattern).
      rewrite lstrip_unspaced by done. by rewrite Hrstrip, String.eqb_refl.
    + rewrite rstrip_app.
      change (rstrip (" " +:+ pattern)) with
        (match rstrip pattern with
         | EmptyString => EmptyString
         | r => String " "%char r
         end).
      rewrite Hrstrip. destruct pattern as [|y p]; [ done | ].
      change (String " " (String y p)) with (" " +:+ String y p).
      rewrite ends_with_app. apply orb_true_r.
Qed.

Lemma contains_app_mid (keyword before after : string) :
  contains keyword (before +:+ keyword +:+ after) = true.
Proof.
  induction before as [|c before IH].
  - change ("" +:+ keyword +:+ after) with (keyword +:+ after).
    assert (Hunfold : ∀ hay, contains keyword hay =
              String.prefix keyword hay
              || match hay with
                 | EmptyString => false
                 | String _ hay' => contains keyword hay'
                 end) by (by intros []).
    by rewrite Hunfold, prefix_app.
  - change (contains keyword (String c before +:+ keyword +:+ after))
      with (String.prefix keyword (String c (before +:+ keyword +:+ after))
            || contains keyword (before +:+ keyword +:+ after)).
    rewrite IH. apply orb_true_r.
Qed.

Lemma synchronous_keywords_lower :
  Forall (λ keyword, lower keyword = keyword) (schema_keywords ++ simple_keywords).
Proof. unfold schema_keywords, simple_keywords. simpl. repeat constructor. Qed.

(** X26: the keywords of app.py are matched as substrings, and a schema
    or chat keyword overrules every data-processing keyword: a prompt that
    contains one of them anywhere, even inside another word (as "hi" in
    "this"), is not detected as a data request, so it is processed
    asynchronously exactly when the request asks for it. *)
Theorem synchronous_keyword_overrules_detection (keyword before after : string)
    (use_async : bool) :
  keyword ∈ schema_keywords ++ simple_keywords →
  use_async_processing (before +:+ keyword +:+ after) use_async = use_async.
Proof.
  intros Hin.
  pose proof synchronous_keywords_lower as Hlower.
  rewrite Forall_forall in Hlower. specialize (Hlower keyword Hin).
  unfold use_async_processing.
  assert (Hany : any_keyword_in schema_keywords (lower (before +:+ keyword +:+ after))
                 || any_keyword_in simple_keywords (lower (before +:+ keyword +:+ after))
                 = true).
  { rewrite !lower_app, Hlower. unfold any_keyword_in. rewrite <- existsb_app.
    apply existsb_exists. exists keyword.
    split; [ by apply list_elem_of_In | apply contains_app_mid ]. }
  rewrite Hany. apply orb_false_r.
Qed.

End RoutingFacts.

(** ** Every run of the poller *)

Module PollerRunFacts.
Import Poller PollerObservations PollerFacts.

Section Facts.

Variable cfg : Config.
Variable env : Env.
Variable req : request.

Lemma sleep_count_app (tr1 tr2 : list out_event) :
  sleep_count (tr1 ++ tr2) = (sleep_count tr1 + sleep_count tr2)%nat.
Proof. unfold sleep_count. by rewrite List.filter_app, length_app. Qed.

Lemma result_events_app (tr1 tr2 : list out_event) :
  result_events (tr1 ++ tr2) = result_events tr1 ++ result_events tr2.
Proof. apply List.filter_app. Qed.

Lemma progress_polls_app (tr1 tr2 : list out_event) :
  progress_polls (tr1 ++ tr2) = progress_polls tr1 ++ progress_polls tr2.
Proof.
  induction tr1 as [|e tr1 IH]; [ done | ].
  destruct e; simpl; by rewrite IH.
Qed.

(** What one read that returned a state adds to the trace. *)
Lemma with_progress_app (i : nat) (state : string) (poll_count : nat)
    (tr : list out_event) :
  ∃ evs, with_progress env req i state poll_count tr = tr ++ evs ∧
         sleep_count evs = 0%nat ∧ result_events evs = [] ∧
         progress_polls evs =
           (if reinvoke req then third_polls poll_count 1 else []).
Proof.
  unfold with_progress, third_polls. cbn [seq List.filter].
  destruct (reinvoke req); cbn [andb].
  - destruct (poll_count mod 3 =? 0)%nat.
    + eexists. split; [ done | ]. by split_and!.
    + exists []. by rewrite app_nil_r.
  - exists []. by rewrite app_nil_r.
Qed.

Lemma third_polls_cons (first len : nat) :
  third_polls first (S len) = third_polls first 1 ++ third_polls (S first) len.
Proof.
  unfold third_polls. cbn [seq List.filter]. by destruct (first mod 3 =? 0)%nat.
Qed.

(** The shape of every run of the loop that leaves it by [break]. *)
Lemma poll_loop_shape (fuel : nat) :
  ∀ (i : nat) (state : string) (poll_count : nat) (tr : list out_event)
    (st : string) (poll_count' reads : nat) (tr' : list out_event),
    poll_loop cfg env req fuel i state poll_count tr =
      Some (Break st poll_count' reads tr') →
    ∃ evs,
      tr' = tr ++ evs ∧
      (i < reads)%nat ∧
      poll_count' = (poll_count + state_reads env i (reads - i))%nat ∧
      is_terminal st = true ∧
      sleep_count evs = (reads - i - 1)%nat ∧
      Forall (λ e, is_sleep e = true → e = Sleep (POLL_INTERVAL cfg)) evs ∧
      result_events evs = [] ∧
      progress_polls evs =
        (if reinvoke req then third_polls (S poll_count) (poll_count' - poll_count)
         else []).
Proof.
  induction fuel as [|fuel IH]; intros i state poll_count tr st poll_count' reads tr' H;
    [ done | ].
  assert (Hone : (S i - i = 1)%nat) by lia.
  assert (Hnow : ∀ (st0 : string) (n : nat) (evs : list out_event),
            is_terminal st0 = true →
            n = (if is_state_read (get_job_run env i) then 1 else 0)%nat →
            sleep_count evs = 0%nat → result_events evs = [] →
            Forall (λ e, is_sleep e = true → e = Sleep (POLL_INTERVAL cfg)) evs →
            progress_polls evs =
              (if reinvoke req then third_polls (S poll_count) n else []) →
            Some (Break st0 (poll_count + n) (S i) (tr ++ evs)) =
              Some (Break st poll_count' reads tr') →
            ∃ evs,
              tr' = tr ++ evs ∧ (i < reads)%nat ∧
              poll_count' = (poll_count + state_reads env i (reads - i))%nat ∧
              is_terminal st = true ∧
              sleep_count evs = (reads - i - 1)%nat ∧
              Forall (λ e, is_sleep e = true → e = Sleep (POLL_INTERVAL cfg)) evs ∧
              result_events evs = [] ∧
              progress_polls evs =
                (if reinvoke req
                 then third_polls (S poll_count) (poll_count' - poll_count)
                 else [])).
  { intros st0 n evs Hterm Hn Hsl Hres Hall Hprog [= <- <- <- <-].
    exists evs. split; [ done | ]. split; [ lia | ].
    rewrite Hone, state_reads_cons. unfold state_reads at 1. simpl.
    rewrite <- Hn, Nat.add_0_r.
    split; [ done | ]. split; [ done | ]. split; [ by rewrite Hsl; lia | ].
    split; [ done | ]. split; [ done | ].
    by replace (poll_count + n - poll_count)%nat with n by lia. }
  assert (Hlater : ∀ (state1 : string) (n : nat) (evs : list out_event),
            n = (if is_state_read (get_job_run env i) then 1 else 0)%nat →
            sleep_count evs = 0%nat → result_events evs = [] →
            Forall (λ e, is_sleep e = true → e = Sleep (POLL_INTERVAL cfg)) evs →
            progress_polls evs =
              (if reinvoke req then third_polls (S poll_count) n else []) →
            poll_loop cfg env req fuel (S i) state1 (poll_count + n)
              ((tr ++ evs) ++ [Sleep (POLL_INTERVAL cfg)]) =
              Some (Break st poll_count' reads tr') →
            ∃ evs,
              tr' = tr ++ evs ∧ (i < reads)%nat ∧
              poll_count' = (poll_count + state_reads env i (reads - i))%nat ∧
              is_terminal st = true ∧
              sleep_count evs = (reads - i - 1)%nat ∧
              Forall (λ e, is_sleep e = true → e = Sleep (POLL_INTERVAL cfg)) evs ∧
              result_events evs = [] ∧
              progress_polls evs =
                (if reinvoke req
                 then third_polls (S poll_count) (poll_count' - poll_count)
                 else [])).
  { intros state1 n evs Hn Hsl Hres Hall Hprog Hloop.
    destruct (IH _ _ _ _ _ _ _ _ Hloop)
      as (evs' & -> & Hlt & -> & Hterm & Hsl' & Hall' & Hres' & Hprog').
    exists (evs ++ [Sleep (POLL_INTERVAL cfg)] ++ evs').
    split; [ by rewrite <- !app_assoc | ]. split; [ lia | ].
    replace (reads - i)%nat with (S (reads - S i)) by lia.
    rewrite state_reads_cons, <- Hn.
    split; [ lia | ]. split; [ done | ].
    split.
    { rewrite !sleep_count_app, Hsl, Hsl'. unfold sleep_count at 1. simpl. lia. }
    split.
    { apply Forall_app. split; [ done | ]. apply Forall_app. split; [ | done ].
      by constructor. }
    split.
    { by rewrite !result_events_app, Hres, Hres'. }
    rewrite !progress_polls_app, Hprog, Hprog'. simpl.
    destruct (reinvoke req); [ | done ].
    replace (poll_count + n + state_reads env (S i) (reads - S i) - poll_count)%nat
      with (n + state_reads env (S i) (reads - S i))%nat by lia.
    replace (poll_count + n + state_reads env (S i) (reads - S i) - (poll_count + n))%nat
      with (state_reads env (S i) (reads - S i)) by lia.
    destruct (is_state_read (get_job_run env i)); subst n.
    - replace (S (poll_count + 1)) with (S (S poll_count)) by lia.
      change (1 + state_reads env (S i) (reads - S i))%nat
        with (S (state_reads env (S i) (reads - S i))).
      by rewrite (third_polls_cons (S poll_count) (state_reads env (S i) (reads - S i))).
    - rewrite Nat.add_0_r. done. }
  destruct (get_job_run env i) as [s|msg|msg] eqn:Hread.
  - destruct (with_progress_app i s (S poll_count) tr) as (evs & Hwp & Hsl & Hres & Hprog).
    assert (Hall : Forall (λ e, is_sleep e = true → e = Sleep (POLL_INTERVAL cfg)) evs).
    { clear -Hsl. induction evs as [|e evs IHe]; constructor.
      - unfold sleep_count in Hsl. simpl in Hsl. by destruct (is_sleep e).
      - apply IHe. unfold sleep_count in *. simpl in Hsl. by destruct (is_sleep e). }
    destruct (is_terminal s) eqn:Hterm.
    + rewrite (poll_loop_terminal cfg env req fuel i state s) in H by done.
      rewrite Hwp in H. replace (S poll_count) with (poll_count + 1)%nat in H by lia.
      by apply (Hnow s 1%nat evs).
    + rewrite (poll_loop_running cfg env req fuel i state s) in H by done.
      rewrite Hwp in H. replace (S poll_count) with (poll_count + 1)%nat in H by lia.
      destruct (ceiling_exceeded cfg env i).
      * by apply (Hnow "TIMEOUT" 1%nat evs).
      * by apply (Hlater s 1%nat evs).
  - rewrite (poll_loop_client_error cfg env req fuel i state poll_count tr msg) in H by done.
    destruct (ceiling_exceeded cfg env i).
    + apply (Hnow "TIMEOUT" 0%nat []); try done;
        [ by destruct (reinvoke req) | by rewrite Nat.add_0_r, app_nil_r ].
    + apply (Hlater state 0%nat []); try done;
        [ by destruct (reinvoke req) | by rewrite Nat.add_0_r, app_nil_r ].
  - by rewrite (poll_loop_other_exception cfg env req fuel i state poll_count tr msg) in H.
Qed.

(** X22: the shape of every run of the poller that returns.  The
    returned status is one of the four terminal states; the loop has read
    the job state at least once and slept exactly once between two
    successive reads, each time for the configured interval; with
    re-invocation on, a progress event was sent for every poll whose number
    is a multiple of three and for no other, and the trace ends with the one
    result event of the run, which carries the returned status and, unless
    that is SUCCEEDED, the output path of the request and no preview; with
    re-invocation off, nothing but sleeps happened. *)
Theorem poller_run_shape (fuel : nat) (status : string) (reads : nat)
    (tr : list out_event) :
  handler cfg env req fuel = Some (Returned status reads tr) →
  is_terminal status = true ∧
  (0 < reads)%nat ∧
  sleep_count tr = (reads - 1)%nat ∧
  Forall (λ e, is_sleep e = true → e = Sleep (POLL_INTERVAL cfg)) tr ∧
  progress_polls tr =
    (if reinvoke req then third_polls 1 (state_reads env 0 reads) else []) ∧
  if reinvoke req then
    ∃ evs location preview,
      tr = evs ++ [Result status location preview] ∧
      result_events evs = [] ∧
      (status ≠ "SUCCEEDED" → location = output_s3_path req ∧ preview = None)
  else result_events tr = [].
Proof.
  unfold handler.
  destruct (negb (truthy_opt (BUCKETNAME cfg))); [ done | ].
  destruct (negb (truthy_opt (job_name req)) || negb (truthy_opt (run_id req))); [ done | ].
  destruct (poll_loop cfg env req fuel 0 "RUNNING" 0 []) as [[st pc rd tr0|msg rd tr0]|] eqn:Hloop;
    [ | done | done ].
  destruct (poll_loop_shape fuel _ _ _ _ _ _ _ _ Hloop)
    as (evs & -> & Hlt & -> & Hterm & Hsl & Hall & Hres & Hprog).
  rewrite app_nil_l, Nat.add_0_l in *.
  rewrite !Nat.sub_0_r in Hsl, Hprog.
  set (found := if bool_decide (st = "SUCCEEDED") then _ else _).
  assert (Hfound : st ≠ "SUCCEEDED" → found = (None, None)).
  { intros Hne. subst found. by rewrite bool_decide_eq_false_2. }
  destruct found as [preview location].
  intros [= <- <- <-]. split; [ done | ]. split; [ done | ].
  destruct (reinvoke req).
  - split. { rewrite sleep_count_app, Hsl. unfold sleep_count. simpl. lia. }
    split. { apply Forall_app. split; [ done | ]. by constructor. }
    split. { rewrite progress_polls_app, Hprog. simpl. by rewrite app_nil_r, ?Nat.sub_0_r. }
    eexists evs, _, preview. split; [ done | ]. split; [ done | ].
    intros Hne. by injection (Hfound Hne) as -> ->.
  - split; [ lia | ]. split; [ done | ]. by split.
Qed.

(** The loop from iteration [i], when the reads before iteration [i + n]
    keep it going below the ceiling and the read of iteration [i + n]
    returns a terminal state. *)
Lemma poll_loop_reaches_terminal (n : nat) (s : string) :
  ∀ (i : nat) (state : string) (poll_count : nat) (tr : list out_event) (fuel : nat),
    (∀ j, i ≤ j < i + n →
       keeps_polling (get_job_run env j) ∧ ceiling_exceeded cfg env j = false)%nat →
    get_job_run env (i + n) = JobRunState s →
    is_terminal s = true →
    (n < fuel)%nat →
    ∃ poll_count' tr',
      poll_loop cfg env req fuel i state poll_count tr =
        Some (Break s poll_count' (S (i + n)) tr').
Proof.
  induction n as [|n IH]; intros i state poll_count tr fuel Hbefore Hread Hterm Hfuel;
    (destruct fuel as [|fuel]; [ lia | ]).
  - rewrite Nat.add_0_r in *.
    rewrite (poll_loop_terminal cfg env req fuel i state s) by done. by eexists _, _.
  - destruct (Hbefore i) as [Hkeep Hbelow]; [ lia | ].
    assert (Hnext : ∀ state1 pc1 tr1,
              ∃ poll_count' tr',
                poll_loop cfg env req fuel (S i) state1 pc1 tr1 =
                  Some (Break s poll_count' (S (i + S n)) tr')).
    { intros state1 pc1 tr1.
      replace (i + S n)%nat with (S i + n)%nat in * by lia.
      apply IH; try done; try lia. intros j Hj. apply Hbefore. lia. }
    destruct (get_job_run env i) as [st|msg|msg] eqn:Hi; simpl in Hkeep; [ | | done ].
    + rewrite (poll_loop_running cfg env req fuel i state st) by done.
      rewrite Hbelow. apply Hnext.
    + rewrite (poll_loop_client_error cfg env req fuel i state poll_count tr msg) by done.
      rewrite Hbelow. apply Hnext.
Qed.

(** X23: the state of the job wins over the ceiling.  When the reads
    before iteration [n] keep the loop going below the ceiling and the read
    of iteration [n] returns a terminal state, the handler returns that
    state after [n + 1] reads, whatever the clock says in iteration [n]:
    the ceiling is checked only after a read that did not end the loop, so
    TIMEOUT is never forced on a job that was just seen finished. *)
Theorem terminal_read_wins_over_ceiling (n fuel : nat) (s : string) :
  well_formed cfg req →
  (∀ j, j < n →
     keeps_polling (get_job_run env j) ∧ ceiling_exceeded cfg env j = false)%nat →
  get_job_run env n = JobRunState s →
  is_terminal s = true →
  (n < fuel)%nat →
  ∃ tr, handler cfg env req fuel = Some (Returned s (S n) tr).
Proof.
  intros Hwf Hbefore Hread Hterm Hfuel.
  rewrite (handler_runs_loop cfg env req fuel Hwf).
  destruct (poll_loop_reaches_terminal n s 0 "RUNNING" 0 [] fuel)
    as (poll_count' & tr' & Hloop); try done.
  { intros j Hj. apply Hbefore. lia. }
  rewrite Hloop. simpl.
  destruct (if bool_decide (s = "SUCCEEDED") then _ else _). by eexists.
Qed.

(** The shape of every run of the loop that is left by an exception. *)
Lemma poll_loop_propagates_shape (fuel : nat) :
  ∀ (i : nat) (state : string) (poll_count : nat) (tr : list out_event)
    (msg : string) (reads : nat) (tr' : list out_event),
    poll_loop cfg env req fuel i state poll_count tr = Some (Propagates msg reads tr') →
    ∃ evs,
      tr' = tr ++ evs ∧ result_events evs = [] ∧
      (i < reads)%nat ∧ get_job_run env (reads - 1) = OtherException msg ∧
      (∀ j, i ≤ j < reads - 1 → keeps_polling (get_job_run env j))%nat.
Proof.
  induction fuel as [|fuel IH]; intros i state poll_count tr msg reads tr' H; [ done | ].
  assert (Hlater : ∀ state1 pc1 evs,
            keeps_polling (get_job_run env i) →
            result_events evs = [] →
            poll_loop cfg env req fuel (S i) state1 pc1
              ((tr ++ evs) ++ [Sleep (POLL_INTERVAL cfg)]) =
              Some (Propagates msg reads tr') →
            ∃ evs,
              tr' = tr ++ evs ∧ result_events evs = [] ∧
              (i < reads)%nat ∧ get_job_run env (reads - 1) = OtherException msg ∧
              (∀ j, i ≤ j < reads - 1 → keeps_polling (get_job_run env j))%nat).
  { intros state1 pc1 evs Hkeep Hres Hloop.
    destruct (IH _ _ _ _ _ _ _ Hloop) as (evs' & -> & Hres' & Hlt & Hlast & Hbefore).
    exists (evs ++ [Sleep (POLL_INTERVAL cfg)] ++ evs').
    split; [ by rewrite <- !app_assoc | ].
    split; [ by rewrite !result_events_app, Hres, Hres' | ].
    split; [ lia | ]. split; [ done | ].
    intros j Hj. destruct (decide (j = i)) as [->|Hne]; [ done | ].
    apply Hbefore. lia. }
  destruct (get_job_run env i) as [s|msg'|msg'] eqn:Hread.
  - destruct (with_progress_app i s (S poll_count) tr) as (evs & Hwp & _ & Hres & _).
    destruct (is_terminal s) eqn:Hterm.
    + by rewrite (poll_loop_terminal cfg env req fuel i state s) in H.
    + rewrite (poll_loop_running cfg env req fuel i state s) in H by done.
      rewrite Hwp in H. destruct (ceiling_exceeded cfg env i); [ done | ].
      by apply (Hlater s (S poll_count) evs).
  - rewrite (poll_loop_client_error cfg env req fuel i state poll_count tr msg') in H by done.
    destruct (ceiling_exceeded cfg env i); [ done | ].
    apply (Hlater state poll_count []); try done. by rewrite app_nil_r.
  - rewrite (poll_loop_other_exception cfg env req fuel i state poll_count tr msg') in H
      by done.
    injection H as <- <- <-. exists []. rewrite app_nil_r.
    split; [ done | ]. split; [ done | ]. split; [ lia | ].
    replace (S i - 1)%nat with i by lia. split; [ done | ]. intros j Hj. lia.
Qed.

(** X24: a poller that ends with an exception has told nobody.  The
    handler raises only when a read of the job state raises something
    other than the client error, after reads that all kept the loop going;
    whatever was sent before, no result event was sent, so the agent never
    learns how the job ended. *)
Theorem uncaught_read_failure_sends_no_result (fuel : nat) (msg : string)
    (tr : list out_event) :
  handler cfg env req fuel = Some (Raised msg tr) →
  result_events tr = [] ∧
  ∃ n, get_job_run env n = OtherException msg ∧
       (∀ j, j < n → keeps_polling (get_job_run env j))%nat.
Proof.
  unfold handler.
  destruct (negb (truthy_opt (BUCKETNAME cfg))); [ done | ].
  destruct (negb (truthy_opt (job_name req)) || negb (truthy_opt (run_id req))); [ done | ].
  destruct (poll_loop cfg env req fuel 0 "RUNNING" 0 []) as [[st pc rd tr0|msg0 rd tr0]|] eqn:Hloop;
    [ | | done ].
  { by destruct (if bool_decide (st = "SUCCEEDED") then _ else _). }
  intros [= <- <-].
  destruct (poll_loop_propagates_shape fuel _ _ _ _ _ _ _ Hloop)
    as (evs & -> & Hres & Hlt & Hlast & Hbefore).
  split; [ done | ]. exists (rd - 1)%nat. split; [ done | ].
  intros j Hj. apply Hbefore. lia.
Qed.

End Facts.

End PollerRunFacts.

(** ** Bucket addresses *)

Module S3UriFacts.
Import S3Uri.

(** [remove_scheme] at a string that does not start with the scheme. *)
Lemma remove_scheme_cons (c : Ascii.ascii) (s : string) :
  String.prefix "s3://" (String c s) = false →
  remove_scheme (String c s) = String c (remove_scheme s).
Proof.
  intros Hprefix.
  destruct (Ascii.ascii_dec c "s") as [->|Hc].
  2: { destruct c as [[] [] [] [] [] [] [] []]; done. }
  destruct s as [|c2 s]; [ done | ].
  destruct (Ascii.ascii_dec c2 "3") as [->|Hc2].
  2: { destruct c2 as [[] [] [] [] [] [] [] []]; done. }
  destruct s as [|c3 s]; [ done | ].
  destruct (Ascii.ascii_dec c3 ":") as [->|Hc3].
  2: { destruct c3 as [[] [] [] [] [] [] [] []]; done. }
  destruct s as [|c4 s]; [ done | ].
  destruct (Ascii.ascii_dec c4 "/") as [->|Hc4].
  2: { destruct c4 as [[] [] [] [] [] [] [] []]; done. }
  destruct s as [|c5 s]; [ done | ].
  destruct (Ascii.ascii_dec c5 "/") as [->|Hc5].
  2: { destruct c5 as [[] [] [] [] [] [] [] []]; done. }
  simpl in Hprefix. by destruct s.
Qed.

Lemma remove_scheme_absent (s : string) :
  contains "s3://" s = false → remove_scheme s = s.
Proof.
  induction s as [|c s IH]; [ done | ].
  intros H. change (contains "s3://" (String c s))
    with (String.prefix "s3://" (String c s) || contains "s3://" s) in H.
  apply orb_false_iff in H as [Hprefix Hrest].
  rewrite remove_scheme_cons by done. by rewrite IH.
Qed.

Lemma split_first_slash_app (bucket key : string) :
  contains "/" bucket = false →
  split_first_slash (bucket +:+ "/" +:+ key) = (bucket, Some key).
Proof.
  induction bucket as [|c bucket IH]; [ done | ].
  intros H. change (contains "/" (String c bucket))
    with (String.prefix "/" (String c bucket) || contains "/" bucket) in H.
  apply orb_false_iff in H as [Hprefix Hrest].
  change (split_first_slash (String c bucket +:+ "/" +:+ key))
    with (if Ascii.eqb c "/"%char then (EmptyString, Some (bucket +:+ "/" +:+ key))
          else let '(b, k) := split_first_slash (bucket +:+ "/" +:+ key) in (String c b, k)).
  destruct (Ascii.eqb c "/") eqn:Hc.
  - apply Ascii.eqb_eq in Hc as ->. simpl in Hprefix. by destruct bucket.
  - by rewrite IH.
Qed.

Lemma split_first_slash_none (bucket : string) :
  contains "/" bucket = false → split_first_slash bucket = (bucket, None).
Proof.
  induction bucket as [|c bucket IH]; [ done | ].
  intros H. change (contains "/" (String c bucket))
    with (String.prefix "/" (String c bucket) || contains "/" bucket) in H.
  apply orb_false_iff in H as [Hprefix Hrest].
  change (split_first_slash (String c bucket))
    with (if Ascii.eqb c "/"%char then (EmptyString, Some bucket)
          else let '(b, k) := split_first_slash bucket in (String c b, k)).
  destruct (Ascii.eqb c "/") eqn:Hc.
  - apply Ascii.eqb_eq in Hc as ->. simpl in Hprefix. by destruct bucket.
  - by rewrite IH.
Qed.

(** X25: [parse_s3_uri] undoes the composition of an address.  For a
    bucket name without a slash, and when the scheme does not occur inside
    the rest of the address, the address of the bucket and a key parses to
    that bucket and that key, and the address of the bucket alone parses to
    the bucket and the empty key.  An address that does not start with the
    scheme is refused. *)
Theorem parse_s3_uri_round_trip (bucket key : string) :
  contains "/" bucket = false →
  contains "s3://" (bucket +:+ "/" +:+ key) = false →
  parse_s3_uri ("s3://" +:+ bucket +:+ "/" +:+ key) = Some (bucket, key) ∧
  (contains "s3://" bucket = false →
     parse_s3_uri ("s3://" +:+ bucket) = Some (bucket, "")) ∧
  (∀ uri, String.prefix "s3://" uri = false → parse_s3_uri uri = None).
Proof.
  intros Hbucket Hscheme. split_and!.
  - unfold parse_s3_uri.
    change (String.prefix "s3://" ("s3://" +:+ bucket +:+ "/" +:+ key))
      with (String.prefix "" (bucket +:+ "/" +:+ key)).
    change (remove_scheme ("s3://" +:+ bucket +:+ "/" +:+ key))
      with (remove_scheme (bucket +:+ "/" +:+ key)).
    rewrite remove_scheme_absent by done.
    rewrite split_first_slash_app by done.
    by destruct (bucket +:+ "/" +:+ key).
  - intros Hb. unfold parse_s3_uri.
    change (String.prefix "s3://" ("s3://" +:+ bucket))
      with (String.prefix "" bucket).
    change (remove_scheme ("s3://" +:+ bucket)) with (remove_scheme bucket).
    rewrite remove_scheme_absent by done.
    rewrite split_first_slash_none by done.
    by destruct bucket.
  - intros uri Huri. unfold parse_s3_uri. by rewrite Huri.
Qed.

End S3UriFacts.

(** ** Examples for the properties above *)

Module MoreScenarios.
Import Fixtures MoreFixtures.



Lemma registry_lifecycle_round_trip_witness :
  let r1 := (RegistryHandler.handler "$connect" "c-1" None true Registry.empty).2 in
  let r2 := (RegistryHandler.handler "$default" "c-1"
               (Some (Registry.mkMessage (Some "auth") (Some "alice"))) true r1).2 in
  (RegistryHandler.handler "$disconnect" "c-1" None true r2).2 = Registry.empty.
Proof.
  apply (ChannelFacts.registry_lifecycle_round_trip Registry.empty "c-1" "alice" true);
    [ reflexivity | reflexivity | discriminate ].
Defined.

Lemma registry_changes_only_on_connect_auth_disconnect_witness :
  let r := Registry.register "c-1" "alice" Registry.empty in
  let out := RegistryHandler.handler "$default" "c-2"
               (Some (Registry.mkMessage (Some "ping") None)) true r in
  out.2 = r ∧ out.1 = 200%Z.
Proof.
  intros r out.
  destruct (ChannelFacts.registry_changes_only_on_connect_auth_disconnect
              "$default" "c-2" (Some (Registry.mkMessage (Some "ping") None)) true r)
    as (Hkept & _ & _ & Hcode).
  - discriminate.
  - discriminate.
  - intros u Hu. discriminate Hu.
  - split; [ exact Hkept | ]. apply Hcode; [ reflexivity | discriminate ].
Defined.

Lemma closed_channel_leaves_stale_mapping_witness :
  let m1 := ConnectionManager.close_channel "s-1"
              (ConnectionManager.auth "s-1" "alice"
                 (ConnectionManager.open_channel "s-1" ConnectionManager.empty)) in
  ConnectionManager.lookup m1 "alice" = Some "s-1" ∧
  ConnectionManager.send_to_user "alice" true m1 = (false, m1).
Proof.
  intros m1.
  destruct (ChannelFacts.closed_channel_leaves_stale_mapping ConnectionManager.empty
              "s-1" "alice" true) as (Hlookup & _ & Hsend).
  - discriminate.
  - split; [ exact Hlookup | exact Hsend ].
Defined.

Lemma pending_messages_delivered_once_in_order_witness :
  let st := WebApp.mkState ConnectionManager.empty ∅ in
  let body := λ m : string, Some (<["message" := m]> (<["username" := "alice"]> ∅)) in
  let st1 := (WebApp.notify_user (body "first") 1000 false st).2 in
  let st2 := (WebApp.notify_user (body "second") 2000 false st1).2 in
  let turn := WebApp.take_pending "alice" [("user", "hello")] st2 in
  turn.1 = [("user", "hello"); ("assistant", "first"); ("assistant", "second")] ∧
  WebApp.take_pending "alice" turn.1 turn.2 = (turn.1, turn.2).
Proof.
  apply (WebAppFacts.pending_messages_delivered_once_in_order
           (WebApp.mkState ConnectionManager.empty ∅) "alice" "first" "second"
           1000 2000 false false [("user", "hello")]);
    [ discriminate | discriminate | discriminate | reflexivity ].
Defined.

Lemma retry_backoff_schedule_witness :
  let env := example_env fails_twice (λ _, responding "") in
  let out := Service.send_websocket_notification_with_retry env "Alice" "done"
               "https://web/api/notify" 5 empty_world in
  ∃ evs, out.1 = Service.Ok true ∧ Service.trace out.2 = evs ∧
         Observations.post_count evs = 3%nat ∧
         Observations.sleeps_of evs = [1; 2]%Z.
Proof.
  intros env out.
  destruct (NotificationFacts.retry_backoff_schedule env empty_world "Alice" "done"
              "https://web/api/notify" 5 2) as (evs & Hout & Htrace & _ & _ & Hposts & Hsleeps & _).
  - vm_compute. lia.
  - intros j Hj. destruct j as [|[|j]]; [ reflexivity | reflexivity | lia ].
  - intros _. reflexivity.
  - exists evs. split; [ exact Hout | ]. split; [ exact Htrace | ].
    split; [ exact Hposts | exact Hsleeps ].
Defined.

Lemma cache_written_only_for_answered_completion_event_witness :
  let env := example_env always_ok (λ _, responding "42 rows") in
  let ev := completion_event (Some "https://web/api/notify") in
  let out := Service.prompt env alice (Service.PromptEvent ev)
               (Some "https://web/api/notify") None empty_world in
  Service.completed_jobs_cache out.2 !! "alice" =
    Some (Service.job_result_data env ev "42 rows" 0) ∧
  ev !! "type" = Some "glue_job_result" ∧
  ∃ text, out.1 = Service.Ok text.
Proof.
  intros env ev out.
  assert (Hentry : Service.completed_jobs_cache out.2 !! "alice" =
                   Some (Service.job_result_data env ev "42 rows" 0)) by reflexivity.
  destruct (IsolationFacts.cache_written_only_for_answered_completion_event env
              empty_world alice ev (Some "https://web/api/notify") None)
    as (Htype & _ & _ & _ & text & _ & Hout).
  - intros Hsame. fold out in Hsame. rewrite Hsame in Hentry. discriminate Hentry.
  - split; [ exact Hentry | ]. split; [ exact Htype | ]. exists text. exact Hout.
Defined.

Lemma task_reports_engine_failure_as_completed_witness :
  let env := example_env always_ok (λ _, failing_call "model unavailable") in
  let w := created_world env in
  ∃ d, Service.s3 (Service.process_agent_background env "task-0" alice
                     "count the rows" None w).2 !! Service.task_key "task-0" = Some d ∧
       d !! "status" = Some "COMPLETED" ∧
       d !! "progress" = Some "Failed to process request: model unavailable".
Proof.
  intros env w.
  destruct (IsolationFacts.task_reports_engine_failure_as_completed env w "task-0" alice
              "count the rows" None (created_record env) eq_refl)
    as (d & Hd & _ & Hfailed & _).
  exists d. split; [ exact Hd | ].
  apply (Hfailed "model unavailable"); reflexivity.
Defined.

Lemma accepted_request_is_visible_to_its_owner_witness :
  let env := example_env always_ok (λ _, responding "42 rows") in
  let out := Routing.process_agent_request env data_request empty_world in
  ∃ body job started finished status,
    out.1 = Service.Ok (200%Z, body, Some job) ∧
    body !! "task_id" = Some "task-0" ∧
    Routing.job_task_id job = "task-0" ∧
    (Service.get_task_status env (Some "Bearer token") "task-0" out.2).1 =
      Service.Ok (200%Z, started) ∧
    started !! "status" = Some "STARTED" ∧
    (Service.get_task_status env (Some "Bearer token") "task-0"
       (Routing.run_job env job out.2).2).1 = Service.Ok (200%Z, finished) ∧
    finished !! "status" = Some status ∧
    Service.terminal_status status.
Proof.
  intros env out.
  destruct (EndpointFacts.accepted_request_is_visible_to_its_owner env empty_world
              data_request (Service.mkUser "test-user" "Test User")
              "select count(*) from orders" None eq_refl eq_refl eq_refl eq_refl)
    as (body & job & Hout & Hid & _ & Hjob & _ & _ &
        (started & Hstarted & Hstatus & _) & _ &
        (status & Hterminal & (finished & Hfinished & Hdone & _))).
  exists body, job, started, finished, status.
  split; [ exact Hout | ]. split; [ exact Hid | ]. split; [ exact Hjob | ].
  split; [ exact Hstarted | ]. split; [ exact Hstatus | ].
  split; [ exact Hfinished | ]. split; [ exact Hdone | exact Hterminal ].
Defined.

Lemma is_simple_message_ignores_case_and_margin_witness :
  Routing.is_simple_message (lower "  Run The Nightly Load  ") =
    Routing.is_simple_message "  Run The Nightly Load  " ∧
  Routing.is_simple_message (strip "  Run The Nightly Load  ") =
    Routing.is_simple_message "  Run The Nightly Load  ".
Proof.
  apply (RoutingFacts.is_simple_message_ignores_case_and_margin
           "  Run The Nightly Load  ").
  reflexivity.
Defined.

Lemma pattern_at_either_end_is_simple_witness :
  Routing.is_simple_message "no select * from orders where total > 100" = true ∧
  Routing.is_simple_message "select * from orders where total > 100 no" = true.
Proof.
  apply (RoutingFacts.pattern_at_either_end_is_simple "no"
           "select * from orders where total > 100").
  apply list_elem_of_In. vm_compute. tauto.
Defined.

Lemma poller_run_shape_witness :
  ∃ tr, Poller.handler poller_cfg scripted_env poller_req 10 =
          Some (Poller.Returned "SUCCEEDED" 4 tr) ∧
        PollerObservations.sleep_count tr = 3%nat ∧
        PollerObservations.progress_polls tr = [3%nat].
Proof.
  eexists. split; [ reflexivity | ].
  destruct (PollerRunFacts.poller_run_shape poller_cfg scripted_env poller_req 10
              "SUCCEEDED" 4 _ eq_refl) as (_ & _ & Hsleeps & _ & Hprogress & _).
  split; [ exact Hsleeps | exact Hprogress ].
Defined.

Lemma terminal_read_wins_over_ceiling_witness :
  Poller.ceiling_exceeded poller_cfg overdue_env 0 = true ∧
  ∃ tr, Poller.handler poller_cfg overdue_env poller_req 1 =
          Some (Poller.Returned "FAILED" 1 tr).
Proof.
  split; [ reflexivity | ].
  apply (PollerRunFacts.terminal_read_wins_over_ceiling poller_cfg overdue_env
           poller_req 0 1 "FAILED").
  - repeat split.
  - intros j Hj. lia.
  - reflexivity.
  - reflexivity.
  - lia.
Defined.

Lemma uncaught_read_failure_sends_no_result_witness :
  Poller.handler poller_cfg unreachable_env poller_req 5 =
    Some (Poller.Raised "EndpointConnectionError" []) ∧
  ∃ n, Poller.get_job_run unreachable_env n =
         Poller.OtherException "EndpointConnectionError".
Proof.
  split; [ reflexivity | ].
  destruct (PollerRunFacts.uncaught_read_failure_sends_no_result poller_cfg
              unreachable_env poller_req 5 "EndpointConnectionError" [] eq_refl)
    as (_ & n & Hread & _).
  exists n. exact Hread.
Defined.

Lemma parse_s3_uri_round_trip_witness :
  S3Uri.parse_s3_uri "s3://results-bucket/output/session_s-1/" =
    Some ("results-bucket", "output/session_s-1/").
Proof.
  exact (proj1 (S3UriFacts.parse_s3_uri_round_trip "results-bucket"
                  "output/session_s-1/" eq_refl eq_refl)).
Defined.

Lemma synchronous_keyword_overrules_detection_witness :
  Routing.use_async_processing "count records in this table" false = false ∧
  any_keyword_in Routing.data_processing_keywords (lower "count records in this table")
    = true.
Proof.
  split; [ | reflexivity ].
  apply (RoutingFacts.synchronous_keyword_overrules_detection "hi"
           "count records in t" "s table" false).
  apply list_elem_of_In. vm_compute. tauto.
Defined.

End MoreScenarios.
